(** * mylg trace: a shallow embedding of [icmp/trace.go]

    The probe/response engine of the traceroute command: the wire codecs
    ([checkSum], [udpMessage], [tcpMessage], [setTCPCheckSum]), the send and
    receive paths ([Sendv4], [Send], [Recv]), the hop prober ([NextHop]),
    the enrichment ([whois], [addWhois]), the two scan loops ([Run],
    [MRun]) and the result formatter ([Marshal]).

    Go's [int] is modelled by [Z]; conversions to fixed-width unsigned types
    are written out as reductions modulo a power of two.  Byte slices are
    [list byte].  The kernel, the network, the clock and the random number
    generator are oracles: every call that reaches them takes its outcome
    from an explicit environment value. *)

From Stdlib Require Import ZArith Lia List Bool.
From Stdlib Require Import Strings.String Strings.Ascii Strings.Byte.
From Stdlib Require Import Numbers.DecimalString.
From Stdlib Require Import Floats.SpecFloat.
From stdpp Require Import base option list strings gmap.

Local Open Scope Z_scope.
Local Open Scope list_scope.

Set Warnings "-register-all".

(** ** Machine integers and bytes *)

Module Wire.

(** [uint8(z)], [uint16(z)], [uint32(z)], [uint64(z)] *)
Definition uint8 (z : Z) : Z := z mod 2 ^ 8.
Definition uint16 (z : Z) : Z := z mod 2 ^ 16.
Definition uint32 (z : Z) : Z := z mod 2 ^ 32.
Definition uint64 (z : Z) : Z := z mod 2 ^ 64.

(** Go's [int] on the 64-bit targets the program is built for: two's
    complement wrap-around of a mathematical result. *)
Definition int (z : Z) : Z := (z + 2 ^ 63) mod 2 ^ 64 - 2 ^ 63.

(** The numeric value of a byte, and the byte holding the low 8 bits of an
    integer. *)
Definition Zb (b : byte) : Z := Z.of_N (Byte.to_N b).

Definition byte_of (z : Z) : byte :=
  match Byte.of_N (Z.to_N (uint8 z)) with
  | Some b => b
  | None => x00
  end.

(** [binary.Write(buf, binary.BigEndian, v)] for the unsigned widths. *)
Definition be8 (v : Z) : list byte := [byte_of v].
Definition be16 (v : Z) : list byte :=
  [byte_of (Z.shiftr (uint16 v) 8); byte_of (uint16 v)].
Definition be32 (v : Z) : list byte :=
  be16 (Z.shiftr (uint32 v) 16) ++ be16 (uint32 v).
Definition be64 (v : Z) : list byte :=
  be32 (Z.shiftr (uint64 v) 32) ++ be32 (uint64 v).

(** [data[i]] as a number.  The model reads inside the slice wherever the
    program does; outside it, where Go panics, the value is 0. *)
Definition byte_at (data : list byte) (i : Z) : Z :=
  if i <? 0 then 0 else Zb (nth (Z.to_nat i) data x00).

(** Reading a big-endian 16-bit field back, at a byte offset. *)

Definition get16 (data : list byte) (off : Z) : Z :=
  Z.shiftl (byte_at data off) 8 + byte_at data (off + 1).

(** [make([]byte, n)] *)
Definition zeros (n : Z) : list byte := repeat x00 (Z.to_nat n).

Definition len {A} (l : list A) : Z := Z.of_nat (length l).

End Wire.
Import Wire.

(** ** Checksum *)

(** [for i := 0; i < length; i += 2 { sum += (uint32(data[i]) << 8) + uint32(data[i+1]) }]
    with [sum] a [uint32].  [fuel] bounds the number of iterations; the
    loop runs [length / 2] times. *)
Fixpoint checkSum_words (fuel : nat) (data : list byte) (length i sum : Z) : Z :=
  match fuel with
  | O => sum
  | S fuel' =>
      if i <? length
      then checkSum_words fuel' data length (i + 2)
             (uint32 (sum + uint32 (uint32 (Z.shiftl (byte_at data i) 8)
                                    + byte_at data (i + 1))))
      else sum
  end.

(** [for (sum >> 16) > 0 { sum = (sum >> 16) + (sum & 0xffff) }] *)
Fixpoint fold_carries (fuel : nat) (sum : Z) : Z :=
  match fuel with
  | O => sum
  | S fuel' =>
      if Z.shiftr sum 16 >? 0
      then fold_carries fuel' (Z.shiftr sum 16 + Z.land sum 65535)
      else sum
  end.

(** [func checkSum(data []byte) uint16] *)
Definition checkSum (data : list byte) : Z :=
  let sum := 0 in
  let length := Z.land (len data) (Z.lnot 1) in
  let sum := checkSum_words (Datatypes.length data) data length 0 sum in
  let sum :=
    if negb (Z.land (len data) 1 =? 0)
    then uint32 (sum + byte_at data length)
    else sum in
  let sum := fold_carries 2 sum in
  uint16 (Z.lnot sum).

(** The checksum as the specification words it: the 16-bit one's-complement
    sum of the big-endian words, a final odd byte taken as the high byte of
    a last word, all carries folded, the result inverted on 16 bits. *)
Fixpoint be_words (data : list byte) : list Z :=
  match data with
  | hi :: lo :: rest => (Z.shiftl (Zb hi) 8 + Zb lo) :: be_words rest
  | [b] => [Z.shiftl (Zb b) 8]
  | [] => []
  end.

Definition internet_checksum (data : list byte) : Z :=
  let total := fold_right Z.add 0 (be_words data) in
  let folded := fold_carries (Z.to_nat (Z.log2 total) + 2) total in
  Z.lxor folded 65535.

(** ** Wire codecs *)

(** [func udpMessage(lport, rport, pSize int, isIPv4 bool) []byte] *)
Definition udpMessage (lport rport pSize : Z) (isIPv4 : bool) : list byte :=
  let pSize := if isIPv4 then int (pSize - (20 + 8)) else int (pSize - (40 + 8)) in
  let buf := be16 lport in
  let buf := buf ++ be16 rport in
  let buf := buf ++ be16 (int (8 + pSize)) in
  let buf := buf ++ be16 0 in
  if pSize >? 0 then buf ++ zeros pSize else buf.

(** [type TCPOption struct] *)
Module TCPOption.
Record t := mk {
  kind : Z;
  length : Z;
  data : list byte
}.
End TCPOption.

(** The body of [for _, option := range tcpOptions] in [tcpMessage]. *)
Definition write_option (buf : list byte) (option : TCPOption.t) : list byte :=
  let buf := buf ++ be8 (TCPOption.kind option) in
  if TCPOption.length option >? 1
  then (buf ++ be8 (TCPOption.length option)) ++ TCPOption.data option
  else buf.

(** [func tcpMessage(lport, rport, pSize uint16, isIPv4 bool) []byte].
    [rnd] is the value [rand.Uint32()] returns and [now] the value of
    [time.Now().Unix()]. *)
Definition tcpMessage (lport rport pSize : Z) (isIPv4 : bool) (rnd now : Z)
  : list byte :=
  let offset := 8 + 3 in
  let buf := be16 lport in
  let buf := buf ++ be16 rport in
  let buf := buf ++ be32 rnd in
  let buf := buf ++ be32 0 in
  let mix :=
    Z.lor (Z.lor (Z.lor (uint16 (Z.shiftl (uint16 offset) 12))
                        (uint16 (Z.shiftl (uint16 0) 9)))
                 (uint16 (Z.shiftl (uint16 0) 6)))
          (uint16 2) in
  let buf := buf ++ be16 mix in
  let buf := buf ++ be16 65535 in
  let buf := buf ++ be16 0 in
  let buf := buf ++ be16 0 in
  let tcpOptions :=
    [ TCPOption.mk 2 4 [x05; xb4];
      TCPOption.mk 3 3 [x05];
      TCPOption.mk 4 2 [x01];
      TCPOption.mk 8 10 (be64 now);
      TCPOption.mk 0 0 [] ] in
  let tcp := fold_left write_option tcpOptions buf in
  let pad := offset * 4 - len tcp in
  tcp ++ zeros pad.

(** [func setTCPCheckSum(src, dst net.IP, tcpHeader []byte)].  The header
    is updated in place; the result is the updated slice, or [None] when
    an index is out of range and the function panics. *)
Definition setTCPCheckSum (src dst : list byte) (tcpHeader : list byte)
  : option (list byte) :=
  let pbuf := src ++ dst in
  let pd := 0 in
  let prot := 6 in
  let tcpSize := uint16 (len tcpHeader) in
  let pbuf := pbuf ++ be8 pd in
  let pbuf := pbuf ++ be8 prot in
  let pbuf := pbuf ++ be16 tcpSize in
  let header := pbuf ++ tcpHeader in
  let checksum := checkSum header in
  let high := byte_of (Z.shiftr checksum 8) in
  let low := byte_of checksum in
  if len tcpHeader <=? 17 then None
  else Some (<[16%nat := high]> (<[17%nat := low]> tcpHeader)).

(** ** Errors, addresses and the parts of the program outside this file *)

(** Go [error] values: [nil] is [None : option error]. *)
Inductive error :=
| Errno (e : Z)                          (* syscall.Errno *)
| errorString (msg : string)             (* fmt.Errorf *)
| SyscallError (call : string) (e : error). (* os.NewSyscallError *)

(** [syscall.EAGAIN] (Linux). *)
Definition EAGAIN : error := Errno 11.

Definition is_EAGAIN (err : error) : bool :=
  match err with
  | Errno e => e =? 11
  | _ => false
  end.

(** A computation that may panic. *)
Inductive outcome (A : Type) :=
| Done (a : A)
| Panicked.
Arguments Done {A} a.
Arguments Panicked {A}.

Definition obind {A B} (m : outcome A) (k : A -> outcome B) : outcome B :=
  match m with
  | Done a => k a
  | Panicked => Panicked
  end.

Notation "'do!' x <- m ; k" := (obind m (fun x => k))
  (at level 10, x pattern, m at level 100, k at level 200).

(** [net.IP] is a byte slice; [nil] is the empty list. *)
Definition IP := list byte.

(** [func (ip IP) To4() IP] *)
Definition To4 (ip : IP) : IP :=
  if len ip =? 4 then ip
  else if (len ip =? 16)
          && forallb (fun b => Zb b =? 0) (firstn 10 ip)
          && (byte_at ip 10 =? 255) && (byte_at ip 11 =? 255)
       then firstn 4 (skipn 12 ip)
       else [].

(** [func (ip IP) To16() IP] *)
Definition To16 (ip : IP) : IP :=
  if len ip =? 4
  then repeat x00 10 ++ [xff; xff] ++ ip
  else if len ip =? 16 then ip else [].

Definition is_nil {A} (s : list A) : bool :=
  match s with [] => true | _ => false end.

(** [float64] values are IEEE 754 binary64 numbers. *)
Definition float64 := spec_float.
Definition f64_prec : Z := 53.
Definition f64_emax : Z := 1024.
Definition f64_zero : float64 := S754_zero false.
Definition f64_of_Z (z : Z) : float64 := binary_normalize f64_prec f64_emax z 0 false.
Definition f64_add : float64 -> float64 -> float64 := SFadd f64_prec f64_emax.
Definition f64_mul : float64 -> float64 -> float64 := SFmul f64_prec f64_emax.
Definition f64_div : float64 -> float64 -> float64 := SFdiv f64_prec f64_emax.

(** [type Whois struct] *)
Module Whois.
Record t := mk {
  holder : string;
  asn : float64
}.
(** [Whois{}] *)
Definition zero : t := mk EmptyString f64_zero.
End Whois.

(** [type HopResp struct], fields in the order of the positional literals
    of [NextHop]. *)
Module HopResp.
Record t := mk {
  num : Z;
  hop : string;
  ip : string;
  elapsed : float64;
  last : bool;
  err : option error;
  whois : Whois.t
}.
Definition set_last (r : t) (v : bool) : t :=
  mk (num r) (hop r) (ip r) (elapsed r) v (err r) (whois r).
Definition set_whois (r : t) (w : Whois.t) : t :=
  mk (num r) (hop r) (ip r) (elapsed r) (last r) (err r) w.
End HopResp.

(** [type ICMPResp struct]: the fields this file reads; [ip] is the outer
    IP header of the reply ([resp.ip.dst], [resp.ip.id]). *)
Module ICMPResp.
Record IPHdr := mkIPHdr {
  dst : IP;
  ipid : Z
}.
Record t := mk {
  typ : Z;
  code : Z;
  id : Z;
  seq : Z;
  src : IP;
  ip : IPHdr
}.
(** [var resp ICMPResp] *)
Definition zero : t := mk 0 0 0 0 [] (mkIPHdr [] 0).
Definition set_src (r : t) (a : IP) : t :=
  mk (typ r) (code r) (id r) (seq r) a (ip r).
End ICMPResp.

(** [type Trace struct]: the fields [NewTrace] fills in, [ttl] and [fd]. *)
Module Trace.
Record t := mk {
  host : string;
  ips : list IP;
  ip : IP;
  src : IP;
  seq : Z;
  family : Z;
  proto : Z;
  icmp : bool;
  udp : bool;
  tcp : bool;
  pSize : Z;
  uiTheme : string;
  wait : string;
  resolve : bool;
  ripe : bool;
  realTime : bool;
  maxTTL : Z;
  count : Z;
  report : bool;
  km : bool;
  ttl : Z;
  fd : Z
}.
Definition set_seq (i : t) (v : Z) : t :=
  mk (host i) (ips i) (ip i) (src i) v (family i) (proto i) (icmp i)
     (udp i) (tcp i) (pSize i) (uiTheme i) (wait i) (resolve i) (ripe i)
     (realTime i) (maxTTL i) (count i) (report i) (km i) (ttl i) (fd i).
Definition set_ttl (i : t) (v : Z) : t :=
  mk (host i) (ips i) (ip i) (src i) (seq i) (family i) (proto i) (icmp i)
     (udp i) (tcp i) (pSize i) (uiTheme i) (wait i) (resolve i) (ripe i)
     (realTime i) (maxTTL i) (count i) (report i) (km i) v (fd i).
Definition set_fd (i : t) (v : Z) : t :=
  mk (host i) (ips i) (ip i) (src i) (seq i) (family i) (proto i) (icmp i)
     (udp i) (tcp i) (pSize i) (uiTheme i) (wait i) (resolve i) (ripe i)
     (realTime i) (maxTTL i) (count i) (report i) (km i) (ttl i) v.
Definition set_count (i : t) (v : Z) : t :=
  mk (host i) (ips i) (ip i) (src i) (seq i) (family i) (proto i) (icmp i)
     (udp i) (tcp i) (pSize i) (uiTheme i) (wait i) (resolve i) (ripe i)
     (realTime i) (maxTTL i) v (report i) (km i) (ttl i) (fd i).
Definition set_pSize (i : t) (v : Z) : t :=
  mk (host i) (ips i) (ip i) (src i) (seq i) (family i) (proto i) (icmp i)
     (udp i) (tcp i) v (uiTheme i) (wait i) (resolve i) (ripe i)
     (realTime i) (maxTTL i) (count i) (report i) (km i) (ttl i) (fd i).
End Trace.

(** A decoded JSON value, as [encoding/json] stores it in
    [map[string]interface{}]. *)
Inductive JVal :=
| JNull
| JBool (b : bool)
| JNum (f : spec_float)
| JStr (s : string)
| JArr (l : list JVal)
| JObj (m : list (string * JVal)).

(** Functions and constants the file uses that are declared elsewhere:
    in other files of the package ([IsIPv4], the ICMP builders and
    parsers, the echo-reply type codes), in the [ripe] package, and in Go's
    [net] and [time] packages. *)
Class Externals := {
  IsIPv4 : IP -> bool;
  IsIPv6 : IP -> bool;
  IPv4ICMPTypeEchoReply : Z;
  IPv6ICMPTypeEchoReply : Z;
  icmpV4Message : Z -> Z -> Z -> list byte * option error;
  icmpV6Message : Z -> Z -> Z -> list byte * option error;
  icmpV4RespParser : list byte -> ICMPResp.t;
  icmpV6RespParser : list byte -> ICMPResp.t;
  (* net.IP.String *)
  IP_String : IP -> string;
  (* time.ParseDuration, in nanoseconds; None is a parse error *)
  ParseDuration : string -> option Z;
  (* net.ParseCIDR: the address and the network (address, mask) *)
  ParseCIDR : string -> option (IP * (IP * list byte));
  (* String of a pointer to net.IPNet, None being the nil pointer *)
  IPNet_String : option (IP * list byte) -> string;
  (* ripe.Prefix: Set(resource); GetData(); the Data field afterwards *)
  ripe_Data : string -> list (string * JVal);
  (* cli.Flag and cli.SetFlag(...).(T) at the three types used *)
  Flags : Type;
  cli_Flag : string -> string * Flags;
  flag_has : Flags -> string -> bool;
  SetFlag_bool : Flags -> string -> bool -> bool;
  SetFlag_int : Flags -> string -> Z -> Z;
  SetFlag_string : Flags -> string -> string -> string;
  (* net.LookupIP and getLocalAddr *)
  LookupIP : string -> list IP + error;
  getLocalAddr : string -> IP + error
}.

(** ** The environment of one probe *)

(** [ipv4.Header], the fields [Sendv4] sets. *)
Record Header := mkHeader {
  Version : Z;
  Len : Z;
  TotalLen : Z;
  Protocol : Z;
  ID : Z;
  TTL : Z;
  Dst : IP
}.

(** What a send puts on the wire. *)
Inductive Packet :=
| RawV4 (h : Header) (b : list byte)
    (* p.WriteTo(h, b, nil) on the raw IPv4 connection *)
| SendtoV6 (hoplimit : Z) (m : list byte) (port : Z) (addr : list byte).
    (* syscall.Sendto(fd, m, 0, &addr) after setIPv6HopLimit(fd, ttl) *)

(** The outcomes of the system calls, the clock and the random number
    generator during one [Send]. *)
Record SendEnv := mkSendEnv {
  Getpid : Z;                                  (* os.Getpid() *)
  rand_src : Z;                                (* the generator's next draw *)
  Now_Unix : Z;                                (* time.Now().Unix() *)
  Socket_err : Z -> Z -> Z -> option error;    (* syscall.Socket(family, sotype, proto) *)
  ListenPacket_err : Z -> option error;        (* net.ListenPacket for ip4:proto *)
  NewRawConn_err : option error;               (* ipv4.NewRawConn(c) *)
  WriteTo_err : option error;                  (* p.WriteTo(h, b, nil) *)
  Sendto_err : option error                    (* syscall.Sendto *)
}.

(** [rand.Intn(n)] and [rand.Uint32()] *)
Definition rand_Intn (e : SendEnv) (n : Z) : Z := rand_src e mod n.
Definition rand_Uint32 (e : SendEnv) : Z := uint32 (rand_src e).

(** One return of [syscall.Recvfrom(i.fd, b, 0)] and the value of
    [time.Since(ts)], in nanoseconds, when the loop body reads the clock. *)
Inductive RecvEvent :=
| RecvError (err : error) (since : Z)
| RecvFrame (frame : list byte) (from : list byte) (since : Z).

(** Everything outside the program during one [NextHop]: the send, the
    returns of [Recvfrom] in order, [time.Since(begin)] in nanoseconds and
    the answer of [net.LookupAddr] ([None] when it does not arrive within
    the second [lookupAddr] waits).  Once [recv_events] is used up the
    receive time-out of the socket fires with the wait window closed. *)
Record ProbeEnv := mkProbeEnv {
  send_env : SendEnv;
  recv_events : list RecvEvent;
  Since_begin : Z;
  LookupAddr : option (list string);
  ASN_snapshot : gmap string Whois.t
    (* MRun: the shared ASN map as the producer reads it *)
}.

(** Socket constants of [syscall] (Linux). *)
Definition AF_INET : Z := 2.
Definition AF_INET6 : Z := 10.
Definition SOCK_DGRAM : Z := 2.
Definition SOCK_RAW : Z := 3.
Definition IPPROTO_ICMP : Z := 1.
Definition IPPROTO_UDP : Z := 17.
Definition IPPROTO_ICMPV6 : Z := 58.

Definition of_option {A} (o : option A) : outcome A :=
  match o with Some a => Done a | None => Panicked end.

(** [time.Duration.Seconds]: [float64(d / Second) + float64(d % Second) / 1e9] *)
Definition Seconds (d : Z) : float64 :=
  f64_add (f64_of_Z (Z.quot d 1000000000))
          (f64_div (f64_of_Z (Z.rem d 1000000000)) (f64_of_Z 1000000000)).

Section Engine.
Context `{Externals}.

(** ** Send path *)

(** [func (i *Trace) SetTTL(ttl int)] *)
Definition SetTTL (i : Trace.t) (ttl : Z) : Trace.t := Trace.set_ttl i ttl.

(** The [switch] of [Sendv4]: the protocol number and the transport bytes
    of the probe. *)
Definition Sendv4_probe (i : Trace.t) (seq rport : Z) (e : SendEnv)
  : outcome (Z * list byte) :=
  if Trace.icmp i then
    let proto := 1 in
    let b := fst (icmpV4Message (Z.land (Getpid e) 65535) seq (Trace.pSize i)) in
    Done (proto, b)
  else if Trace.udp i then
    let proto := 17 in
    let lport := 64000 + rand_Intn e 3 * 100 in
    let b := udpMessage lport rport (Trace.pSize i) true in
    Done (proto, b)
  else if Trace.tcp i then
    let proto := 6 in
    let b := tcpMessage 0 33434 64 true (rand_Uint32 e) (Now_Unix e) in
    do! b <- of_option (setTCPCheckSum (Trace.src i) (Trace.ip i) b);
    Done (proto, b)
  else Done (0, []).

(** [func (i *Trace) Sendv4(id, seq, rport int) error]: the error returned
    and the packets written. *)
Definition Sendv4 (i : Trace.t) (id seq rport : Z) (e : SendEnv)
  : outcome (option error * list Packet) :=
  do! pb <- Sendv4_probe i seq rport e;
  let '(proto, b) := pb in
  match ListenPacket_err e proto with
  | Some err => Done (Some err, [])
  | None =>
    match NewRawConn_err e with
    | Some err => Done (Some err, [])
    | None =>
      let h := {| Version := 4; Len := 20; TotalLen := 20 + len b;
                  Protocol := proto; ID := id; TTL := Trace.ttl i;
                  Dst := To4 (Trace.ip i) |} in
      match WriteTo_err e with
      | Some err => Done (Some err, [])
      | None => Done (None, [RawV4 h b])
      end
    end
  end.

(** [func (i *Trace) Send(port int) (int, int, error)]: the results, the
    tracer with [seq] advanced, and the packets written. *)
Definition Send (i : Trace.t) (port : Z) (e : SendEnv)
  : outcome (Z * Z * option error * Trace.t * list Packet) :=
  let seq := Trace.seq i in
  let id := int (38840 + seq) in
  let i := Trace.set_seq i (int (Trace.seq i + 1)) in
  let '(sotype, proto) :=
    if Trace.icmp i && negb (is_nil (To4 (Trace.ip i))) then (SOCK_RAW, IPPROTO_ICMP)
    else if Trace.icmp i && negb (is_nil (To16 (Trace.ip i))) then (SOCK_RAW, IPPROTO_ICMPV6)
    else (SOCK_DGRAM, IPPROTO_UDP) in
  match Socket_err e (Trace.family i) sotype proto with
  | Some err => Done (id, seq, Some err, i, [])
  | None =>
    if IsIPv4 (Trace.ip i) then
      do! r <- Sendv4 i id seq port e;
      Done (id, seq, fst r, i, snd r)
    else
      let b := firstn 16 (To16 (Trace.ip i) ++ repeat x00 16) in
      let '(m, err) := icmpV6Message (Z.land (Getpid e) 65535) seq (Trace.pSize i) in
      match err with
      | Some err => Done (id, seq, Some err, i, [])
      | None =>
        match Sendto_err e with
        | Some err => Done (id, seq, Some err, i, [])
        | None => Done (id, seq, None, i, [SendtoV6 (Trace.ttl i) m port b])
        end
      end
  end.

(** ** Receive path *)

(** [du, _ := time.ParseDuration(i.wait)] *)
Definition wait_du (i : Trace.t) : Z :=
  match ParseDuration (Trace.wait i) with
  | Some d => d
  | None => 0
  end.

(** The test that sends [Recv] back to reading, computed from the frame
    just parsed: [(i.icmp && wSeq) || (!i.icmp && (wDst || wID || wV4))],
    together with the parsed reply. *)
Definition Recv_parse (i : Trace.t) (id seq : Z) (b from : list byte)
  : ICMPResp.t * bool :=
  let '(resp, wID, wSeq, wDst, wV4) :=
    if len (To4 (Trace.ip i)) =? 4 then
      let resp := icmpV4RespParser b in
      let wID := (ICMPResp.typ resp =? IPv4ICMPTypeEchoReply)
                 && negb (id =? ICMPResp.id resp) in
      let wSeq := negb (seq =? ICMPResp.seq resp) in
      let wDst := negb (String.eqb (IP_String (ICMPResp.dst (ICMPResp.ip resp)))
                                   (IP_String (Trace.ip i))) in
      let wV4 := negb (id =? ICMPResp.ipid (ICMPResp.ip resp))
                 && negb (ICMPResp.ipid (ICMPResp.ip resp) =? 0) in
      (resp, wID, wSeq, wDst, wV4)
    else
      let resp := icmpV6RespParser b in
      let resp := ICMPResp.set_src resp from in
      let wID := (ICMPResp.typ resp =? IPv6ICMPTypeEchoReply)
                 && negb (id =? ICMPResp.id resp) in
      let wSeq := negb (seq =? ICMPResp.seq resp) in
      let wDst := negb (String.eqb (IP_String (ICMPResp.dst (ICMPResp.ip resp)))
                                   (IP_String (Trace.ip i))) in
      let wV4 := false in
      (resp, wID, wSeq, wDst, wV4) in
  (resp, (Trace.icmp i && wSeq) || (negb (Trace.icmp i) && (wDst || wID || wV4))).

(** The [for] loop of [Recv].  [blen] is [len(b)], which [b = b[:n]]
    shrinks to the size of the last frame read; [resp] is the last reply
    parsed. *)
Fixpoint Recv_loop (i : Trace.t) (id seq : Z) (blen : nat) (resp : ICMPResp.t)
  (events : list RecvEvent) : ICMPResp.t * option error :=
  match events with
  | [] => (resp, Some EAGAIN)
  | RecvError err since :: events' =>
      if is_EAGAIN err && (since <? wait_du i)
      then Recv_loop i id seq blen resp events'
      else (resp, Some err)
  | RecvFrame frame from since :: events' =>
      let b := firstn blen frame in
      let '(resp, wrong) := Recv_parse i id seq b from in
      if wrong then
        if since <? wait_du i
        then Recv_loop i id seq (Datatypes.length b) resp events'
        else (resp, Some (errorString "wrong response"))
      else (resp, None)
  end.

(** [func (i *Trace) Recv(id, seq int) (ICMPResp, error)] *)
Definition Recv (i : Trace.t) (id seq : Z) (events : list RecvEvent)
  : ICMPResp.t * option error :=
  Recv_loop i id seq 512 ICMPResp.zero events.

(** ** Hop prober *)

(** [func lookupAddr(ip net.IP) ([]string, error)] *)
Definition lookupAddr (answer : option (list string))
  : list string * option error :=
  match answer with
  | Some n => (n, None)
  | None => ([], Some (errorString "lookup.addr timeout"))
  end.

(** [func (i *Trace) NextHop(hop int) HopResp]: the result, the tracer
    afterwards and the packets written. *)
Definition NextHop (i : Trace.t) (hop : Z) (e : ProbeEnv)
  : outcome (HopResp.t * Trace.t * list Packet) :=
  let dnsCache : gmap string (list string) := ∅ in
  let port := 33434 in
  let i := SetTTL i hop in
  do! s <- Send i port (send_env e);
  let '(id, seq, err, i, pkts) := s in
  match err with
  | Some err =>
      Done (HopResp.mk hop EmptyString EmptyString f64_zero false (Some err) Whois.zero,
            i, pkts)
  | None =>
      let '(resp, err) := Recv i id seq (recv_events e) in
      match err with
      | Some _ =>
          Done (HopResp.mk hop EmptyString EmptyString f64_zero false None Whois.zero,
                i, pkts)
      | None =>
          let elapsed := Since_begin e in
          let name :=
            if Trace.resolve i then
              match dnsCache !! IP_String (ICMPResp.src resp) with
              | Some name => name
              | None => fst (lookupAddr (LookupAddr e))
              end
            else [] in
          let ms := f64_mul (Seconds elapsed) (f64_of_Z 1000) in
          let r :=
            match name with
            | n0 :: _ => HopResp.mk hop n0 (IP_String (ICMPResp.src resp)) ms false None Whois.zero
            | [] => HopResp.mk hop EmptyString (IP_String (ICMPResp.src resp)) ms false None Whois.zero
            end in
          let r :=
            if existsb (fun h => String.eqb (IP_String (ICMPResp.src resp)) (IP_String h))
                       (Trace.ips i)
            then HopResp.set_last r true
            else r in
          Done (r, i, pkts)
      end
  end.

End Engine.

(** ** Enrichment *)

(** [m[k]] on a decoded JSON object: the nil interface when [k] is absent. *)
Fixpoint assoc (k : string) (m : list (string * JVal)) : JVal :=
  match m with
  | [] => JNull
  | (k', v) :: m' => if String.eqb k k' then v else assoc k m'
  end.

Section Enrichment.
Context `{Externals}.

(** The resource [whois] hands to [ripe.Prefix.Set]: the address is
    parsed with the suffix /24 by [net.ParseCIDR], and
    [if err != nil { ip = net.String() }]. *)
Definition whois_resource (ip : string) : string :=
  match ParseCIDR (ip ++ "/24") with
  | Some _ => ip
  | None => IPNet_String None
  end.

(** The body of [for _, h := range asns] in [whois]. *)
Definition whois_record (resp : Whois.t) (h : JVal) : outcome Whois.t :=
  match h with
  | JObj m =>
      match assoc "holder" m with
      | JStr s =>
          let resp := Whois.mk s (Whois.asn resp) in
          match assoc "asn" m with
          | JNum f => Done (Whois.mk (Whois.holder resp) f)
          | _ => Panicked
          end
      | _ => Panicked
      end
  | _ => Panicked
  end.

(** [func whois(ip string) (Whois, error)]; the type assertions without
    [ok] panic when they fail. *)
Definition whois (ip : string) : outcome (Whois.t * option error) :=
  let resp := Whois.zero in
  let ip := whois_resource ip in
  let Data := ripe_Data ip in
  match assoc "data" Data with
  | JObj data =>
      match assoc "asns" data with
      | JArr asns =>
          do! resp <- fold_left (fun acc h => do! resp <- acc; whois_record resp h)
                                asns (Done resp);
          Done (resp, None)
      | _ => Panicked
      end
  | _ => Done (Whois.zero, Some (errorString "data not available"))
  end.

(** [func (i *Trace) addWhois(R []HopResp)]: [R] is updated in place. *)
Definition addWhois (R : list HopResp.t) : outcome (list HopResp.t) :=
  let ips : gmap string Whois.t :=
    fold_left (fun ips r => <[HopResp.ip r := Whois.zero]> ips) R ∅ in
  do! ips <-
    map_fold (fun ip _ (acc : outcome (gmap string Whois.t)) =>
                do! ips <- acc;
                if String.eqb ip EmptyString then Done ips
                else
                  do! we <- whois ip;
                  match snd we with
                  | Some _ => Done ips
                  | None => Done (<[ip := fst we]> ips)
                  end)
             (Done ips) ips;
  Done (map (fun r => HopResp.set_whois r (default Whois.zero (ips !! HopResp.ip r))) R).

End Enrichment.

(** ** Scan orchestrator *)

(** The world of a scan: the outcome of the system calls of [Bind] (a
    failure of [SetDeadLine] is only printed), and
    for each probe, numbered by the tracer's [seq] when [NextHop] starts,
    its environment. *)
Record World := mkWorld {
  bind_Socket : Z + error;
  bind_Bind : option error;
  probe : Z -> ProbeEnv
}.

Section Scan.
Context `{Externals}.

(** [func (i *Trace) Bind() error] *)
Definition Bind (i : Trace.t) (w : World) : Trace.t * option error :=
  match bind_Socket w with
  | inr err => (i, Some (SyscallError "bind.socket" err))
  | inl fd =>
      let i := Trace.set_fd i fd in
      match bind_Bind w with
      | Some err =>
          if Trace.family i =? AF_INET
          then (i, Some (SyscallError "bindv4" err))
          else (i, Some (SyscallError "bindv6" err))
      | None => (i, None)
      end
  end.

(** [for n := 0; n < retry; n++ { hop := i.NextHop(h); r = append(r, hop); ... }] *)
Fixpoint Run_retries (w : World) (fuel : nat) (i : Trace.t) (h n retry : Z)
  (r : list HopResp.t) : outcome (Trace.t * list HopResp.t) :=
  match fuel with
  | O => Done (i, r)
  | S fuel' =>
      if n <? retry then
        do! x <- NextHop i h (probe w (Trace.seq i));
        let '(hop, i, _) := x in
        let r := r ++ [hop] in
        if bool_decide (HopResp.err hop <> None) then Done (i, r)
        else Run_retries w fuel' i h (n + 1) retry r
      else Done (i, r)
  end.

(** [for _, R := range r { if R.last || R.err != nil { break LOOP } }] *)
Definition Run_stop (r : list HopResp.t) : bool :=
  existsb (fun R => HopResp.last R || bool_decide (HopResp.err R <> None)) r.

(** The [LOOP] of [Run]: the batches sent on the channel, each as the
    slice stands when it is sent, and whether the channel was closed.  A
    panic is recovered by the deferred function, which leaves the channel
    open. *)
Fixpoint Run_loop (w : World) (fuel : nat) (i : Trace.t) (h retry : Z)
  (r : list HopResp.t) : list (list HopResp.t) * bool :=
  match fuel with
  | O => ([], true)
  | S fuel' =>
      if h <=? Trace.maxTTL i then
        match Run_retries w (Z.to_nat retry) i h 0 retry r with
        | Panicked => ([], false)
        | Done (i, r) =>
            match (if Trace.ripe i then addWhois r else Done r) with
            | Panicked => ([], false)
            | Done r =>
                if Run_stop r then ([r], true)
                else
                  let r' := firstn 0 r in
                  let '(sent, closed) := Run_loop w fuel' i (h + 1) retry r' in
                  (r :: sent, closed)
            end
        end
      else ([], true)
  end.

(** [func (i *Trace) Run(retry int) (chan []HopResp, error)] *)
Definition Run (i : Trace.t) (retry : Z) (w : World)
  : list (list HopResp.t) * bool * option error :=
  match Bind i w with
  | (_, Some err) => ([], false, Some err)
  | (i, None) => (Run_loop w (Z.to_nat (Trace.maxTTL i)) i 1 retry [], None)
  end.

(** How one pass [for h := 1; h <= maxTTL; h++] of [MRun] ends. *)
Inductive pass_end :=
| PassDone (i : Trace.t) (maxTTL : Z)
| PassPanic.

(** One pass over the hops in [MRun].  [maxTTL] is the local variable, and
    [Trace.maxTTL i] the field it started from. *)
Fixpoint MRun_pass (w : World) (fuel : nat) (i : Trace.t) (h maxTTL : Z)
  : list HopResp.t * pass_end :=
  match fuel with
  | O => ([], PassDone i maxTTL)
  | S fuel' =>
      if h <=? maxTTL then
        let e := probe w (Trace.seq i) in
        match NextHop i h e with
        | Panicked => ([], PassPanic)
        | Done (hop, i, _) =>
            let hop :=
              match ASN_snapshot e !! HopResp.ip hop with
              | Some w => HopResp.set_whois hop w
              | None => hop
              end in
            let maxTTL :=
              if HopResp.last hop && (maxTTL =? Trace.maxTTL i) then h else maxTTL in
            let '(sent, e) := MRun_pass w fuel' i (h + 1) maxTTL in
            (hop :: sent, e)
        end
      else ([], PassDone i maxTTL)
  end.

(** The outer [for] of [MRun], observed for [passes] passes: the results
    sent so far and whether the channel was closed. *)
Fixpoint MRun_loop (w : World) (passes : nat) (i : Trace.t) (maxTTL count : Z)
  : list HopResp.t * bool :=
  match passes with
  | O => ([], false)
  | S passes' =>
      match MRun_pass w (Z.to_nat (Trace.maxTTL i)) i 1 maxTTL with
      | (sent, PassPanic) => (sent, false)
      | (sent, PassDone i maxTTL) =>
          let count := int (count + 1) in
          if (Trace.count i >? 0) && (count >=? Trace.count i) then (sent, true)
          else
            let '(sent', closed) := MRun_loop w passes' i maxTTL count in
            (sent ++ sent', closed)
      end
  end.

(** [func (i *Trace) MRun() (chan HopResp, error)] *)
Definition MRun (i : Trace.t) (w : World) (passes : nat)
  : list HopResp.t * bool * option error :=
  match Bind i w with
  | (_, Some err) => ([], false, Some err)
  | (i, None) => (MRun_loop w passes i (Trace.maxTTL i) 0, None)
  end.

End Scan.

(** ** Result formatter *)

Module Fmt.

(** The double quote character. *)
Definition dq : string := String (ascii_of_nat 34) EmptyString.

(** [%d] *)
Definition d (z : Z) : string := NilZero.string_of_int (Z.to_int z).

(** [%t] *)
Definition t (b : bool) : string := if b then "true" else "false".

(** The integer nearest to [m * 2^e * 10^prec], ties to even: the digits
    [strconv] keeps when it formats the binary value [m * 2^e] with
    [prec] decimals. *)
Definition scaled_round (m : positive) (e : Z) (prec : nat) : Z :=
  let num := Z.pos m * 10 ^ Z.of_nat prec in
  if 0 <=? e then num * 2 ^ e
  else
    let den := 2 ^ (- e) in
    let q := num / den in
    let r := num mod den in
    if 2 * r <? den then q
    else if den <? 2 * r then q + 1
    else if Z.even q then q else q + 1.

Fixpoint zero_digits (n : nat) : string :=
  match n with
  | O => EmptyString
  | S n' => String "0" (zero_digits n')
  end.

(** The decimal digits of [n / 10^prec], a point when [prec > 0], and the
    [prec] digits of the fraction. *)
Definition fixed (n : Z) (prec : nat) : string :=
  let whole := d (n / 10 ^ Z.of_nat prec) in
  let frac := d (n mod 10 ^ Z.of_nat prec) in
  match prec with
  | O => whole
  | S _ => whole ++ "." ++ zero_digits (prec - String.length frac) ++ frac
  end.

(** [%.<prec>f] of a [float64] *)
Definition f (prec : nat) (x : float64) : string :=
  match x with
  | S754_nan => "NaN"
  | S754_infinity false => "+Inf"
  | S754_infinity true => "-Inf"
  | S754_zero s => (if s then "-" else EmptyString) ++ fixed 0 prec
  | S754_finite s m e =>
      (if s then "-" else EmptyString) ++ fixed (scaled_round m e prec) prec
  end.

End Fmt.

(** [func (h *HopResp) Marshal() string]: the format string of the
    [fmt.Sprintf] call, piece by piece, with its verbs %d, %s, %s, %.3f,
    %s, %.0f and %t filled in order.  The key IP is followed by a space
    before its colon. *)
Definition Marshal (h : HopResp.t) : string :=
  let q := Fmt.dq in
  "{ " ++ q ++ "Id" ++ q ++ ": " ++ Fmt.d (HopResp.num h)
  ++ ", " ++ q ++ "Hop" ++ q ++ ": " ++ q ++ HopResp.hop h ++ q
  ++ ", " ++ q ++ "IP" ++ q ++ " : " ++ q ++ HopResp.ip h ++ q
  ++ ", " ++ q ++ "Elapsed" ++ q ++ ": " ++ Fmt.f 3 (HopResp.elapsed h)
  ++ ", " ++ q ++ "Holder" ++ q ++ ": " ++ q ++ Whois.holder (HopResp.whois h) ++ q
  ++ ", " ++ q ++ "ASN" ++ q ++ ": " ++ Fmt.f 0 (Whois.asn (HopResp.whois h))
  ++ ", " ++ q ++ "Last" ++ q ++ ": " ++ Fmt.t (HopResp.last h) ++ " }".

(** The JSON result line as the specification writes it. *)
Definition json_line (h : HopResp.t) : string :=
  let q := Fmt.dq in
  "{ " ++ q ++ "Id" ++ q ++ ": " ++ Fmt.d (HopResp.num h)
  ++ ", " ++ q ++ "Hop" ++ q ++ ": " ++ q ++ HopResp.hop h ++ q
  ++ ", " ++ q ++ "IP" ++ q ++ ": " ++ q ++ HopResp.ip h ++ q
  ++ ", " ++ q ++ "Elapsed" ++ q ++ ": " ++ Fmt.f 3 (HopResp.elapsed h)
  ++ ", " ++ q ++ "Holder" ++ q ++ ": " ++ q ++ Whois.holder (HopResp.whois h) ++ q
  ++ ", " ++ q ++ "ASN" ++ q ++ ": " ++ Fmt.f 0 (Whois.asn (HopResp.whois h))
  ++ ", " ++ q ++ "Last" ++ q ++ ": " ++ Fmt.t (HopResp.last h) ++ " }".

(** ** Construction *)

(** What [NewTrace] returns: [(nil, nil)], [(nil, err)] or [(t, nil)]. *)
Inductive NewTrace_result :=
| NT_nil
| NT_err (e : error)
| NT_ok (t : Trace.t).

Section Construction.
Context `{Externals}.

(** [func (i *Trace) setReportDCount(c int)] *)
Definition setReportDCount (i : Trace.t) (c : Z) : Trace.t :=
  if Trace.report i && (Trace.count i <? 0) then Trace.set_count i c else i.

(** [func NewTrace(args string, cfg cli.Config)], with [cfg.Trace.Theme]
    and [cfg.Trace.Wait] as arguments. *)
Definition NewTrace (args : string) (Theme Wait : string) : NewTrace_result :=
  let '(target, flag) := cli_Flag args in
  let forceIPv4 := SetFlag_bool flag "4" false in
  let forceIPv6 := SetFlag_bool flag "6" false in
  if flag_has flag "help" || (Z.of_nat (String.length target) <? 3) then NT_nil
  else
    match LookupIP target with
    | inr err => NT_err err
    | inl ips =>
        let ip :=
          default [] (List.find (fun IP => (IsIPv4 IP && negb forceIPv6)
                                           || (IsIPv6 IP && negb forceIPv4)) ips) in
        if is_nil ip then NT_err (errorString "there is not A or AAAA record")
        else
          match getLocalAddr (IP_String ip) with
          | inr err => NT_err err
          | inl lAddr =>
              let '(family, proto) :=
                if IsIPv4 ip then (AF_INET, IPPROTO_ICMP)
                else (AF_INET6, IPPROTO_ICMPV6) in
              let UDP := SetFlag_bool flag "u" false in
              let TCP := SetFlag_bool flag "t" false in
              let t :=
                {| Trace.host := target;
                   Trace.ips := ips;
                   Trace.ip := ip;
                   Trace.src := lAddr;
                   Trace.seq := 1;
                   Trace.family := family;
                   Trace.proto := proto;
                   Trace.icmp := negb UDP && negb TCP;
                   Trace.udp := UDP && negb TCP;
                   Trace.tcp := TCP && negb UDP;
                   Trace.pSize := SetFlag_int flag "p" 52;
                   Trace.uiTheme := SetFlag_string flag "T" Theme;
                   Trace.wait := SetFlag_string flag "w" Wait;
                   Trace.resolve := SetFlag_bool flag "n" true;
                   Trace.ripe := SetFlag_bool flag "nr" true;
                   Trace.realTime := SetFlag_bool flag "r" false;
                   Trace.maxTTL := SetFlag_int flag "m" 30;
                   Trace.count := SetFlag_int flag "c" (-1);
                   Trace.report := SetFlag_bool flag "R" false;
                   Trace.km := SetFlag_bool flag "km" false;
                   Trace.ttl := 0;
                   Trace.fd := 0 |} in
              NT_ok (setReportDCount t 10)
          end
    end.

End Construction.

(** ** A concrete host for the examples

    The theorems below hold for every instance of [Externals].  The closed
    examples run the model on this one, which fills in the functions
    declared outside the file for IPv4 and the ICMP layouts of the
    specification. *)
Module Fixture.

Fixpoint split_on (c : ascii) (s : string) : list string :=
  match s with
  | EmptyString => [EmptyString]
  | String a s' =>
      if Ascii.eqb a c then EmptyString :: split_on c s'
      else match split_on c s' with
           | w :: ws => String a w :: ws
           | [] => [String a EmptyString]
           end
  end.

Definition parse_dec (s : string) : option Z :=
  match s with
  | EmptyString => None
  | _ => Z.of_uint <$> NilZero.uint_of_string s
  end.

(** Dotted-decimal text of an IPv4 address, and back. *)
Definition dotted (a : list byte) : string :=
  String.concat "." (map (fun b => Fmt.d (Zb b)) a).

Definition parse_ipv4 (s : string) : option IP :=
  match map parse_dec (split_on "." s) with
  | [Some a; Some b; Some c; Some d] =>
      if forallb (fun x => x <=? 255) [a; b; c; d]
      then Some (map byte_of [a; b; c; d])
      else None
  | _ => None
  end.

(** [net.IP.String] on IPv4 addresses (in 4-byte or 16-byte form). *)
Definition IP_String_v4 (ip : IP) : string :=
  if is_nil ip then "<nil>"
  else if is_nil (To4 ip) then "?" else dotted (To4 ip).

(** The mask of [bits] leading ones on 32 bits. *)
Definition mask32 (bits : Z) : list byte :=
  be32 (Z.shiftl (Z.ones bits) (32 - bits)).

(** [net.ParseCIDR] on IPv4 prefixes. *)
Definition ParseCIDR_v4 (s : string) : option (IP * (IP * list byte)) :=
  match split_on "/" s with
  | [addr; bits] =>
      match parse_ipv4 addr, parse_dec bits with
      | Some ip, Some n =>
          if n <=? 32 then
            let m := mask32 n in
            Some (ip, (map byte_of (zip_with (fun a b => Z.land (Zb a) (Zb b)) ip m), m))
          else None
      | _, _ => None
      end
  | _ => None
  end.

Definition IPNet_String_v4 (n : option (IP * list byte)) : string :=
  match n with
  | None => "<nil>"
  | Some (ip, m) =>
      dotted ip ++ "/" ++
      Fmt.d (fold_right Z.add 0 (map (fun b => Z.of_nat (Datatypes.length
               (filter (fun k => Z.testbit (Zb b) (Z.of_nat k)) (seq 0 8)))) m))
  end.

(** Modelled from the spec: the ICMPv4 echo request, which
    [icmpV4Message] builds in another file of the package.  Type 8, code 0,
    the 16-bit checksum over the message, identifier, sequence, and a
    payload of zero bytes such that IPv4 header (20) + ICMP header (8) +
    payload is the packet size. *)
Definition icmpV4Message_model (id seq pSize : Z) : list byte * option error :=
  let body := be16 id ++ be16 seq ++ zeros (pSize - 28) in
  let sum := checkSum ([x08; x00; x00; x00] ++ body) in
  ([x08; x00] ++ be16 sum ++ body, None).

(** Modelled from the spec: the ICMPv6 echo request of
    [icmpV6Message]: type 128, code 0, checksum left to the kernel, and a
    payload such that IPv6 header (40) + ICMP (8) + payload is the packet
    size. *)
Definition icmpV6Message_model (id seq pSize : Z) : list byte * option error :=
  ([x80; x00; x00; x00] ++ be16 id ++ be16 seq ++ zeros (pSize - 48), None).

(** Modelled from the spec: the parser of received IPv4 frames,
    [icmpV4RespParser].  The source is the source of the outer header; an
    echo reply (type 0) carries its identifier and sequence; any other
    type embeds the IP header of the probe and the first 8 bytes of its
    transport header, from which the identifier, the sequence, the
    destination and the IP id are read. *)
Definition icmpV4RespParser_model (b : list byte) : ICMPResp.t :=
  let hl := Z.land (byte_at b 0) 15 * 4 in
  let typ := byte_at b hl in
  let code := byte_at b (hl + 1) in
  let src := firstn 4 (skipn 12 b) in
  if typ =? 0 then
    ICMPResp.mk typ code (get16 b (hl + 4)) (get16 b (hl + 6)) src
      (ICMPResp.mkIPHdr [] 0)
  else
    let e := hl + 8 in
    let ehl := Z.land (byte_at b e) 15 * 4 in
    ICMPResp.mk typ code (get16 b (e + ehl + 4)) (get16 b (e + ehl + 6)) src
      (ICMPResp.mkIPHdr (firstn 4 (skipn (Z.to_nat (e + 16)) b)) (get16 b (e + 4))).

(** Modelled from the spec: the parser of received ICMPv6 messages,
    [icmpV6RespParser]; there is no outer IP header, and an error embeds
    the 40-byte IPv6 header of the probe. *)
Definition icmpV6RespParser_model (b : list byte) : ICMPResp.t :=
  let typ := byte_at b 0 in
  let code := byte_at b 1 in
  if typ =? 129 then
    ICMPResp.mk typ code (get16 b 4) (get16 b 6) [] (ICMPResp.mkIPHdr [] 0)
  else
    ICMPResp.mk typ code (get16 b 52) (get16 b 54) []
      (ICMPResp.mkIPHdr (firstn 16 (skipn 32 b)) 0).

(** Command-line options after parsing. *)
Inductive FlagVal :=
| FBool (b : bool)
| FInt (z : Z)
| FString (s : string).

(** The prefix service: one origin AS for 192.0.2.1, two for 198.51.100.7,
    a reply without data otherwise. *)
Definition asn_record (holder : string) (asn : Z) : JVal :=
  JObj [("holder", JStr holder); ("asn", JNum (f64_of_Z asn))].

Definition ripe_Data_demo (resource : string) : list (string * JVal) :=
  if String.eqb resource "192.0.2.1" then
    [("data", JObj [("asns", JArr [asn_record "EXAMPLE-ONE" 64500])])]
  else if String.eqb resource "198.51.100.7" then
    [("data", JObj [("asns", JArr [asn_record "EXAMPLE-ONE" 64500;
                                    asn_record "EXAMPLE-TWO" 64501])])]
  else [].

(** The command lines of the examples, as [cli.Flag] splits them. *)
Definition cli_Flag_demo (args : string) : string * gmap string FlagVal :=
  if String.eqb args "192.0.2.9 -u -p 10" then
    ("192.0.2.9", {[ "u" := FBool true; "p" := FInt 10 ]})
  else (args, ∅).

Definition host : Externals := {|
  IsIPv4 ip := len (To4 ip) =? 4;
  IsIPv6 ip := (len ip =? 16) && is_nil (To4 ip);
  IPv4ICMPTypeEchoReply := 0;
  IPv6ICMPTypeEchoReply := 129;
  icmpV4Message := icmpV4Message_model;
  icmpV6Message := icmpV6Message_model;
  icmpV4RespParser := icmpV4RespParser_model;
  icmpV6RespParser := icmpV6RespParser_model;
  IP_String := IP_String_v4;
  ParseDuration s :=
    if String.eqb s "2s" then Some 2000000000
    else if String.eqb s "500ms" then Some 500000000
    else None;
  ParseCIDR := ParseCIDR_v4;
  IPNet_String := IPNet_String_v4;
  ripe_Data := ripe_Data_demo;
  Flags := gmap string FlagVal;
  cli_Flag := cli_Flag_demo;
  flag_has flag k := bool_decide (is_Some (flag !! k));
  SetFlag_bool flag k v := match flag !! k with Some (FBool b) => b | _ => v end;
  SetFlag_int flag k v := match flag !! k with Some (FInt z) => z | _ => v end;
  SetFlag_string flag k v := match flag !! k with Some (FString s) => s | _ => v end;
  LookupIP target :=
    match parse_ipv4 target with
    | Some ip => inl [ip]
    | None => inr (errorString "no such host")
    end;
  getLocalAddr _ := inl [xc0; x00; x02; x02]
|}.

End Fixture.

(** ** Inputs of the examples *)
Module Examples.

(** 192.0.2.9, the target; 192.0.2.2, the local address; 198.51.100.7, a
    router on the way. *)
Definition target : IP := [xc0; x00; x02; x09].
Definition local : IP := [xc0; x00; x02; x02].
Definition router : IP := [xc6; x33; x64; x07].

(** A tracer as [NewTrace] builds it for the target, in the given mode. *)
Definition tracer (icmp udp tcp : bool) (pSize maxTTL count : Z) : Trace.t :=
  {| Trace.host := "192.0.2.9"; Trace.ips := [target]; Trace.ip := target;
     Trace.src := local; Trace.seq := 1; Trace.family := AF_INET;
     Trace.proto := IPPROTO_ICMP; Trace.icmp := icmp; Trace.udp := udp;
     Trace.tcp := tcp; Trace.pSize := pSize; Trace.uiTheme := "dark";
     Trace.wait := "2s"; Trace.resolve := false; Trace.ripe := false;
     Trace.realTime := false; Trace.maxTTL := maxTTL; Trace.count := count;
     Trace.report := false; Trace.km := false; Trace.ttl := 0; Trace.fd := 0 |}.

(** A send during which every system call succeeds. *)
Definition sends : SendEnv :=
  {| Getpid := 4242; rand_src := 1; Now_Unix := 1700000000;
     Socket_err := fun _ _ _ => None; ListenPacket_err := fun _ => None;
     NewRawConn_err := None; WriteTo_err := None; Sendto_err := None |}.

(** A send whose raw write fails with EPERM. *)
Definition send_fails : SendEnv :=
  {| Getpid := 4242; rand_src := 1; Now_Unix := 1700000000;
     Socket_err := fun _ _ _ => None; ListenPacket_err := fun _ => None;
     NewRawConn_err := None; WriteTo_err := Some (Errno 1); Sendto_err := None |}.

(** A probe nobody answers, and a probe answered by the given frames, one
    millisecond apart. *)
Definition silent : ProbeEnv :=
  {| send_env := sends; recv_events := []; Since_begin := 2000000000;
     LookupAddr := None; ASN_snapshot := ∅ |}.

Definition answered (frames : list (list byte)) : ProbeEnv :=
  {| send_env := sends;
     recv_events := imap (fun k f => RecvFrame f [] (Z.of_nat (S k) * 1000000)) frames;
     Since_begin := Z.of_nat (Datatypes.length frames) * 1000000 + 500000;
     LookupAddr := None; ASN_snapshot := ∅ |}.

Definition unsent : ProbeEnv :=
  {| send_env := send_fails; recv_events := []; Since_begin := 1000;
     LookupAddr := None; ASN_snapshot := ∅ |}.

(** An IPv4 header without options, and the two kinds of reply. *)
Definition ipv4_header (proto total ipid : Z) (src dst : IP) : list byte :=
  [x45; x00] ++ be16 total ++ be16 ipid ++ [x00; x00; x40] ++ be8 proto
  ++ [x00; x00] ++ src ++ dst.

Definition echo_reply (src dst : IP) (id seq : Z) : list byte :=
  ipv4_header 1 28 0 src dst ++ [x00; x00; x00; x00] ++ be16 id ++ be16 seq.

Definition time_exceeded (src dst probe_dst : IP) (ipid id seq : Z) : list byte :=
  ipv4_header 1 56 0 src dst ++ [x0b; x00; x00; x00; x00; x00; x00; x00]
  ++ ipv4_header 1 28 ipid dst probe_dst
  ++ [x08; x00; x00; x00] ++ be16 id ++ be16 seq.

(** The world of a scan in which [Bind] succeeds. *)
Definition world (probes : Z -> ProbeEnv) : World :=
  {| bind_Socket := inl 3; bind_Bind := None; probe := probes |}.

(** The router answers the probes numbered 1 to 3 and the target the
    later ones. *)
Definition two_hops : World :=
  world (fun s =>
           if s <=? 3
           then answered [time_exceeded router local target (38840 + s) 4242 s]
           else answered [echo_reply target local 4242 s]).

(** The route changes during the scan: the router answers the first
    probe, the target every later one, whatever its TTL. *)
Definition route_change : World :=
  world (fun s =>
           if s =? 1
           then answered [time_exceeded router local target (38840 + s) 4242 s]
           else answered [echo_reply target local 4242 s]).

(** The result of the marshaling scenario: hop 5, name r.x, address
    1.2.3.4, 12.345 ms (the [float64] nearest to 12345 / 1000), holder
    EXAMPLE AS, AS 64500, not the last hop. *)
Definition hop5 : HopResp.t :=
  HopResp.mk 5 "r.x" "1.2.3.4" (f64_div (f64_of_Z 12345) (f64_of_Z 1000)) false None
    (Whois.mk "EXAMPLE AS" (f64_of_Z 64500)).

Definition quoted (s : string) : string := Fmt.dq ++ s ++ Fmt.dq.

(** The line [Marshal] prints for it, and the line in the layout of the
    specification. *)
Definition hop5_Marshal : string :=
  "{ " ++ quoted "Id" ++ ": 5, " ++ quoted "Hop" ++ ": " ++ quoted "r.x"
  ++ ", " ++ quoted "IP" ++ " : " ++ quoted "1.2.3.4"
  ++ ", " ++ quoted "Elapsed" ++ ": 12.345, " ++ quoted "Holder" ++ ": "
  ++ quoted "EXAMPLE AS" ++ ", " ++ quoted "ASN" ++ ": 64500, "
  ++ quoted "Last" ++ ": false }".

Definition hop5_json_line : string :=
  "{ " ++ quoted "Id" ++ ": 5, " ++ quoted "Hop" ++ ": " ++ quoted "r.x"
  ++ ", " ++ quoted "IP" ++ ": " ++ quoted "1.2.3.4"
  ++ ", " ++ quoted "Elapsed" ++ ": 12.345, " ++ quoted "Holder" ++ ": "
  ++ quoted "EXAMPLE AS" ++ ", " ++ quoted "ASN" ++ ": 64500, "
  ++ quoted "Last" ++ ": false }".

(** The hop number and the [last] flag of each result. *)
Definition summary (sent : list HopResp.t) : list (Z * bool) :=
  map (fun r => (HopResp.num r, HopResp.last r)) sent.

End Examples.

(** ** Sorting interface *)

(** [type MHopResp []HopResp] with the three methods of [sort.Interface].
    An index outside the slice panics. *)
Module MHopResp.

(** [func (h MHopResp) Len() int] *)
Definition Len (h : list HopResp.t) : Z := len h.

(** [h[i]] *)
Definition at_ (h : list HopResp.t) (i : Z) : outcome HopResp.t :=
  if i <? 0 then Panicked else of_option (h !! Z.to_nat i).

(** [func (h MHopResp) Swap(i, j int)]: [h[i], h[j] = h[j], h[i]] *)
Definition Swap (h : list HopResp.t) (i j : Z) : outcome (list HopResp.t) :=
  do! hj <- at_ h j;
  do! hi <- at_ h i;
  Done (<[Z.to_nat j := hi]> (<[Z.to_nat i := hj]> h)).

(** [func (h MHopResp) Less(i, j int) bool] *)
Definition Less (h : list HopResp.t) (i j : Z) : outcome bool :=
  do! hi <- at_ h i;
  do! hj <- at_ h j;
  Done (Z.of_nat (String.length (HopResp.ip hi))
        >? Z.of_nat (String.length (HopResp.ip hj))).

End MHopResp.

(** ** Further inputs of the examples *)
Module Scenarios.

(** The value of [time.Since] an event carries. *)
Definition event_since (ev : RecvEvent) : Z :=
  match ev with
  | RecvError _ since => since
  | RecvFrame _ _ since => since
  end.

(** The event with its frame cut to its first [n] bytes. *)
Definition cut_event (n : nat) (ev : RecvEvent) : RecvEvent :=
  match ev with
  | RecvError err since => RecvError err since
  | RecvFrame frame from since => RecvFrame (firstn n frame) from since
  end.

(** 2001:db8::1, and a tracer for it. *)
Definition target6 : IP :=
  [x20; x01; x0d; xb8; x00; x00; x00; x00; x00; x00; x00; x00; x00; x00; x00; x01].

Definition tracer6 (icmp udp tcp : bool) : Trace.t :=
  {| Trace.host := "2001:db8::1"; Trace.ips := [target6]; Trace.ip := target6;
     Trace.src := target6; Trace.seq := 1; Trace.family := AF_INET6;
     Trace.proto := IPPROTO_ICMPV6; Trace.icmp := icmp; Trace.udp := udp;
     Trace.tcp := tcp; Trace.pSize := 52; Trace.uiTheme := "dark";
     Trace.wait := "2s"; Trace.resolve := false; Trace.ripe := false;
     Trace.realTime := false; Trace.maxTTL := 30; Trace.count := -1;
     Trace.report := false; Trace.km := false; Trace.ttl := 7; Trace.fd := 0 |}.

(** A world in which no probe is answered. *)
Definition quiet : World := Examples.world (fun _ => Examples.silent).

(** A hop result with the given address. *)
Definition from (ip : string) : HopResp.t :=
  HopResp.mk 1 EmptyString ip f64_zero false None Whois.zero.

(** The IPv4 tracer in ICMP mode with a wait that does not parse as a
    duration. *)
Definition hasty : Trace.t :=
  {| Trace.host := "192.0.2.9"; Trace.ips := [Examples.target];
     Trace.ip := Examples.target; Trace.src := Examples.local; Trace.seq := 1;
     Trace.family := AF_INET; Trace.proto := IPPROTO_ICMP; Trace.icmp := true;
     Trace.udp := false; Trace.tcp := false; Trace.pSize := 52;
     Trace.uiTheme := "dark"; Trace.wait := "soon"; Trace.resolve := false;
     Trace.ripe := false; Trace.realTime := false; Trace.maxTTL := 30;
     Trace.count := -1; Trace.report := false; Trace.km := false;
     Trace.ttl := 0; Trace.fd := 0 |}.

(** The IPv4 tracer in ICMP mode with the reverse lookup on. *)
Definition resolving : Trace.t :=
  {| Trace.host := "192.0.2.9"; Trace.ips := [Examples.target];
     Trace.ip := Examples.target; Trace.src := Examples.local; Trace.seq := 1;
     Trace.family := AF_INET; Trace.proto := IPPROTO_ICMP; Trace.icmp := true;
     Trace.udp := false; Trace.tcp := false; Trace.pSize := 52;
     Trace.uiTheme := "dark"; Trace.wait := "2s"; Trace.resolve := true;
     Trace.ripe := false; Trace.realTime := false; Trace.maxTTL := 30;
     Trace.count := -1; Trace.report := false; Trace.km := false;
     Trace.ttl := 0; Trace.fd := 0 |}.

(** A world in which [syscall.Socket] fails in [Bind] with EACCES. *)
Definition refused : World :=
  {| bind_Socket := inr (Errno 13); bind_Bind := None;
     probe := fun _ => Examples.silent |}.


(** A probe answered by the target, whose reverse lookup gives the names,
    or times out. *)
Definition named (names : option (list string)) : ProbeEnv :=
  {| send_env := Examples.sends;
     recv_events := [RecvFrame (Examples.echo_reply Examples.target Examples.local 4242 1)
                               [] 1000000];
     Since_begin := 1500000; LookupAddr := names; ASN_snapshot := ∅ |}.

(** More command lines, as [cli.Flag] splits them, and the host that
    understands them. *)
Definition cli_Flag_more (args : string) : string * gmap string Fixture.FlagVal :=
  if String.eqb args "192.0.2.9 -u -t" then
    ("192.0.2.9", {[ "u" := Fixture.FBool true; "t" := Fixture.FBool true ]})
  else if String.eqb args "192.0.2.9 -4 -6" then
    ("192.0.2.9", {[ "4" := Fixture.FBool true; "6" := Fixture.FBool true ]})
  else if String.eqb args "192.0.2.9 -R -t" then
    ("192.0.2.9", {[ "R" := Fixture.FBool true; "t" := Fixture.FBool true ]})
  else Fixture.cli_Flag_demo args.

Definition host : Externals := {|
  IsIPv4 := @IsIPv4 Fixture.host;
  IsIPv6 := @IsIPv6 Fixture.host;
  IPv4ICMPTypeEchoReply := 0;
  IPv6ICMPTypeEchoReply := 129;
  icmpV4Message := Fixture.icmpV4Message_model;
  icmpV6Message := Fixture.icmpV6Message_model;
  icmpV4RespParser := Fixture.icmpV4RespParser_model;
  icmpV6RespParser := Fixture.icmpV6RespParser_model;
  IP_String := Fixture.IP_String_v4;
  ParseDuration := @ParseDuration Fixture.host;
  ParseCIDR := Fixture.ParseCIDR_v4;
  IPNet_String := Fixture.IPNet_String_v4;
  ripe_Data := Fixture.ripe_Data_demo;
  Flags := gmap string Fixture.FlagVal;
  cli_Flag := cli_Flag_more;
  flag_has := @flag_has Fixture.host;
  SetFlag_bool := @SetFlag_bool Fixture.host;
  SetFlag_int := @SetFlag_int Fixture.host;
  SetFlag_string := @SetFlag_string Fixture.host;
  LookupIP := @LookupIP Fixture.host;
  getLocalAddr := @getLocalAddr Fixture.host
|}.

End Scenarios.

(** ** Statistics *)

(** [type Stats struct]: the fields [calcStatistics] updates. *)
Module Stats.
Record t := mk {
  min : float64;
  avg : float64;
  max : float64
}.
End Stats.

(** The comparisons of [float64]: [==] and [<]; a NaN compares false. *)
Definition f64_eqb : float64 -> float64 -> bool := SFeqb.
Definition f64_ltb : float64 -> float64 -> bool := SFltb.

Module Statistics.

(** [func min(a, b float64) float64] *)
Definition min (a b : float64) : float64 :=
  if f64_eqb a f64_zero then b
  else if f64_ltb a b then a
  else b.

(** [func avg(a, b float64) float64] *)
Definition avg (a b : float64) : float64 :=
  if negb (f64_eqb a f64_zero) then f64_div (f64_add a b) (f64_of_Z 2)
  else b.

(** [func max(a, b float64) float64] *)
Definition max (a b : float64) : float64 :=
  if f64_ltb b a then a
  else b.

End Statistics.

(** [func calcStatistics(s *Stats, elapsed float64)] *)
Definition calcStatistics (s : Stats.t) (elapsed : float64) : Stats.t :=
  let s := Stats.mk (Statistics.min (Stats.min s) elapsed) (Stats.avg s) (Stats.max s) in
  let s := Stats.mk (Stats.min s) (Statistics.avg (Stats.avg s) elapsed) (Stats.max s) in
  Stats.mk (Stats.min s) (Stats.avg s) (Statistics.max (Stats.max s) elapsed).

(** * Properties *)

(** ** Bytes and big-endian fields *)

Lemma Zb_range (b : byte) : 0 <= Zb b < 256.
Proof.
  unfold Zb. pose proof (Byte.to_N_bounded b) as Hb.
  change 256 with (Z.of_N 256). lia.
Qed.

Lemma Zb_byte_of (z : Z) : Zb (byte_of z) = z mod 256.
Proof.
  unfold byte_of, uint8. change (2 ^ 8) with 256.
  pose proof (Z.mod_pos_bound z 256 ltac:(lia)) as Hm.
  destruct (Byte.of_N (Z.to_N (z mod 256))) as [b|] eqn:E.
  - apply Byte.to_of_N in E. unfold Zb. rewrite E. lia.
  - apply Byte.of_N_None_iff in E. lia.
Qed.

Lemma len_app {A} (l1 l2 : list A) : len (l1 ++ l2) = len l1 + len l2.
Proof. unfold len. rewrite length_app. lia. Qed.

Lemma len_nonneg {A} (l : list A) : 0 <= len l.
Proof. unfold len. lia. Qed.

Lemma byte_at_app_r (pre rest : list byte) (k : Z) :
  0 <= k -> byte_at (pre ++ rest) (len pre + k) = byte_at rest k.
Proof.
  intros Hk. unfold byte_at, len.
  destruct (Z.ltb_spec (Z.of_nat (Datatypes.length pre) + k) 0); [lia|].
  destruct (Z.ltb_spec k 0); [lia|].
  f_equal. rewrite app_nth2 by lia. f_equal. lia.
Qed.

Lemma byte_at_0 (b : byte) (l : list byte) : byte_at (b :: l) 0 = Zb b.
Proof. reflexivity. Qed.

Lemma byte_at_1 (a b : byte) (l : list byte) : byte_at (a :: b :: l) 1 = Zb b.
Proof. reflexivity. Qed.

Lemma length_be16 (v : Z) : Datatypes.length (be16 v) = 2%nat.
Proof. reflexivity. Qed.

Lemma length_be32 (v : Z) : Datatypes.length (be32 v) = 4%nat.
Proof. reflexivity. Qed.

Lemma length_be64 (v : Z) : Datatypes.length (be64 v) = 8%nat.
Proof. reflexivity. Qed.

Lemma length_zeros (n : Z) : Datatypes.length (zeros n) = Z.to_nat n.
Proof. unfold zeros. apply repeat_length. Qed.

(** A 16-bit field written big-endian reads back as the value modulo 2^16. *)
Lemma get16_be16 (v : Z) (rest : list byte) :
  get16 (be16 v ++ rest) 0 = uint16 v.
Proof.
  unfold get16, be16. cbn [app].
  rewrite byte_at_0. change (0 + 1) with 1. rewrite byte_at_1.
  rewrite !Zb_byte_of. unfold uint16.
  pose proof (Z.mod_pos_bound v (2 ^ 16) ltac:(lia)) as Hv.
  set (u := v mod 2 ^ 16) in *.
  rewrite Z.shiftr_div_pow2, Z.shiftl_mul_pow2 by lia.
  change (2 ^ 16) with 65536 in *. change (2 ^ 8) with 256.
  rewrite (Z.mod_small (u / 256) 256) by (split; [apply Z.div_pos; lia | apply Z.div_lt_upper_bound; lia]).
  pose proof (Z.div_mod u 256 ltac:(lia)). lia.
Qed.

Lemma get16_skip (pre rest : list byte) (off : Z) :
  0 <= off -> get16 (pre ++ rest) (len pre + off) = get16 rest off.
Proof.
  intros Hoff. unfold get16.
  rewrite byte_at_app_r by lia.
  replace (len pre + off + 1) with (len pre + (off + 1)) by lia.
  rewrite byte_at_app_r by lia. reflexivity.
Qed.

(** ** Checksum *)

Lemma land_lnot_1 (n : Z) : Z.land n (Z.lnot 1) = 2 * (n / 2).
Proof.
  rewrite <- Z.ldiff_land. change 1 with (Z.ones 1) at 1.
  rewrite Z.ldiff_ones_r by lia.
  rewrite Z.shiftr_div_pow2, Z.shiftl_mul_pow2 by lia.
  change (2 ^ 1) with 2. lia.
Qed.

Lemma land_1 (n : Z) : Z.land n 1 = n mod 2.
Proof. change 1 with (Z.ones 1) at 1. rewrite Z.land_ones by lia. reflexivity. Qed.

Lemma uint32_small (z : Z) : 0 <= z < 2 ^ 32 -> uint32 z = z.
Proof. intros. unfold uint32. apply Z.mod_small. lia. Qed.

Lemma word_range (a b : byte) : 0 <= Z.shiftl (Zb a) 8 + Zb b < 2 ^ 16.
Proof.
  pose proof (Zb_range a). pose proof (Zb_range b).
  rewrite Z.shiftl_mul_pow2 by lia. change (2 ^ 8) with 256. lia.
Qed.

Lemma be_words_total_range (n : nat) (rest : list byte) :
  Datatypes.length rest = (2 * n)%nat ->
  0 <= fold_right Z.add 0 (be_words rest) <= Z.of_nat n * 65535.
Proof.
  revert rest. induction n as [|n IH]; intros rest Hlen.
  - destruct rest; [cbn; lia | discriminate].
  - destruct rest as [|a [|b rest]]; cbn in Hlen; try lia.
    cbn [be_words fold_right].
    pose proof (word_range a b). specialize (IH rest ltac:(lia)). lia.
Qed.

Lemma checkSum_words_spec (n : nat) :
  forall (rest pre tail : list byte) (fuel : nat) (sum : Z),
    Datatypes.length rest = (2 * n)%nat -> (n <= fuel)%nat -> 0 <= sum < 2 ^ 32 ->
    checkSum_words fuel (pre ++ rest ++ tail) (len pre + len rest) (len pre) sum
    = uint32 (sum + fold_right Z.add 0 (be_words rest)).
Proof.
  induction n as [|n IH]; intros rest pre tail fuel sum Hlen Hfuel Hsum.
  - destruct rest; [|discriminate]. cbn [be_words fold_right].
    replace (sum + 0) with sum by lia. rewrite uint32_small by lia.
    destruct fuel; cbn [checkSum_words]; [reflexivity|].
    change (len (@nil byte)) with 0.
    replace (len pre + 0) with (len pre) by lia.
    rewrite Z.ltb_irrefl. reflexivity.
  - destruct rest as [|a [|b rest]]; cbn in Hlen; try lia.
    destruct fuel as [|fuel]; [lia|]. cbn [checkSum_words].
    assert (Hl : (len pre <? len pre + len (a :: b :: rest)) = true).
    { apply Z.ltb_lt. unfold len. cbn [Datatypes.length]. lia. }
    rewrite Hl.
    assert (Ha : byte_at (pre ++ (a :: b :: rest) ++ tail) (len pre) = Zb a).
    { replace (len pre) with (len pre + 0) by lia.
      rewrite byte_at_app_r by lia. reflexivity. }
    assert (Hb : byte_at (pre ++ (a :: b :: rest) ++ tail) (len pre + 1) = Zb b).
    { rewrite byte_at_app_r by lia. reflexivity. }
    rewrite Ha, Hb. cbn [app].
    replace (pre ++ a :: b :: rest ++ tail) with ((pre ++ [a; b]) ++ rest ++ tail)
      by (rewrite <- app_assoc; reflexivity).
    replace (len pre + len (a :: b :: rest)) with (len (pre ++ [a; b]) + len rest)
      by (rewrite len_app; unfold len; cbn [Datatypes.length]; lia).
    replace (len pre + 2) with (len (pre ++ [a; b]))
      by (rewrite len_app; reflexivity).
    rewrite IH; [| lia | lia | unfold uint32; apply Z.mod_pos_bound; reflexivity].
    cbn [be_words fold_right].
    pose proof (word_range a b) as Hw.
    rewrite (uint32_small (Z.shiftl (Zb a) 8)).
    2:{ pose proof (Zb_range a). rewrite Z.shiftl_mul_pow2 by lia.
        change (2 ^ 32) with 4294967296. change (2 ^ 8) with 256. lia. }
    rewrite (uint32_small (Z.shiftl (Zb a) 8 + Zb b)).
    2:{ change (2 ^ 32) with 4294967296. change (2 ^ 16) with 65536 in Hw. lia. }
    unfold uint32. rewrite Zplus_mod_idemp_l. f_equal. lia.
Qed.

Lemma fold_carries_step (s : Z) :
  0 <= s -> Z.shiftr s 16 + Z.land s 65535 = s - 65535 * (s / 65536)
            /\ 0 <= s / 65536.
Proof.
  intros Hs. rewrite Z.shiftr_div_pow2 by lia.
  change 65535 with (Z.ones 16) at 1. rewrite Z.land_ones by lia.
  change (2 ^ 16) with 65536.
  pose proof (Z.div_mod s 65536 ltac:(lia)).
  pose proof (Z.div_pos s 65536 Hs ltac:(lia)). lia.
Qed.

Lemma fold_carries_nonneg (n : nat) : forall s, 0 <= s -> 0 <= fold_carries n s.
Proof.
  induction n as [|n IH]; intros s Hs; cbn [fold_carries]; [lia|].
  destruct (Z.shiftr s 16 >? 0); [|lia].
  apply IH. destruct (fold_carries_step s Hs) as [-> Hq].
  pose proof (Z.mul_div_le s 65536 ltac:(lia)). lia.
Qed.

(** Folding preserves the sum modulo 2^16 - 1. *)
Lemma fold_carries_mod (n : nat) :
  forall s, 0 <= s -> fold_carries n s mod 65535 = s mod 65535.
Proof.
  induction n as [|n IH]; intros s Hs; cbn [fold_carries]; [reflexivity|].
  destruct (Z.shiftr s 16 >? 0); [|reflexivity].
  destruct (fold_carries_step s Hs) as [E Hq].
  rewrite IH.
  - rewrite E. replace (s - 65535 * (s / 65536)) with (s + (- (s / 65536)) * 65535) by lia.
    apply Z.mod_add. lia.
  - rewrite E. pose proof (Z.mul_div_le s 65536 ltac:(lia)). lia.
Qed.

Lemma fold_carries_small (n : nat) (s : Z) :
  0 <= s < 2 ^ 16 -> fold_carries n s = s.
Proof.
  intros Hs. destruct n; cbn [fold_carries]; [reflexivity|].
  rewrite Z.shiftr_div_pow2 by lia. rewrite Z.div_small by lia. reflexivity.
Qed.

(** Two rounds fold any 32-bit sum: the loop of [checkSum] has ended. *)
Lemma fold_carries_done (s : Z) :
  0 <= s < 2 ^ 32 -> 0 <= fold_carries 2 s < 2 ^ 16.
Proof.
  intros Hs. cbn [fold_carries].
  assert (Hstep : forall x, 0 <= x -> Z.shiftr x 16 = x / 65536
                    /\ Z.land x 65535 = x mod 65536).
  { intros x Hx. rewrite Z.shiftr_div_pow2 by lia.
    change 65535 with (Z.ones 16). rewrite Z.land_ones by lia. auto. }
  destruct (Hstep s ltac:(lia)) as [E1 E2]. rewrite E1, E2.
  change (2 ^ 32) with 4294967296 in Hs. change (2 ^ 16) with 65536.
  pose proof (Z.div_mod s 65536 ltac:(lia)) as Hdm.
  pose proof (Z.mod_pos_bound s 65536 ltac:(lia)) as Hm.
  assert (0 <= s / 65536 < 65536) as Hq
    by (split; [apply Z.div_pos; lia | apply Z.div_lt_upper_bound; lia]).
  destruct (Z.gtb_spec (s / 65536) 0) as [Hgt|Hle]; [|lia].
  set (s1 := s / 65536 + s mod 65536) in *.
  destruct (Hstep s1 ltac:(lia)) as [F1 F2]. rewrite F1, F2.
  pose proof (Z.div_mod s1 65536 ltac:(lia)) as Hdm1.
  pose proof (Z.mod_pos_bound s1 65536 ltac:(lia)) as Hm1.
  assert (0 <= s1 / 65536 < 2) as Hq1
    by (split; [apply Z.div_pos; lia | apply Z.div_lt_upper_bound; lia]).
  destruct (Z.gtb_spec (s1 / 65536) 0) as [Hgt1|Hle1]; lia.
Qed.

Lemma fold_carries_more (n k : nat) :
  forall s, 0 <= s -> 0 <= fold_carries n s < 2 ^ 16 ->
            fold_carries (n + k) s = fold_carries n s.
Proof.
  induction n as [|n IH]; intros s Hs Hdone.
  - cbn [fold_carries] in Hdone. cbn [Nat.add fold_carries].
    apply fold_carries_small; lia.
  - cbn [Nat.add fold_carries] in *.
    destruct (Z.shiftr s 16 >? 0); [|reflexivity].
    apply IH; [|assumption].
    destruct (fold_carries_step s Hs) as [-> Hq].
    pose proof (Z.mul_div_le s 65536 ltac:(lia)). lia.
Qed.

Lemma uint16_lnot (s : Z) : 0 <= s < 2 ^ 16 -> uint16 (Z.lnot s) = Z.lxor s 65535.
Proof.
  intros Hs. unfold uint16. apply Z.bits_inj'. intros k Hk.
  rewrite Z.lxor_spec. change 65535 with (Z.ones 16).
  destruct (Z.ltb_spec k 16) as [Hlt|Hge].
  - rewrite Z.mod_pow2_bits_low by lia. rewrite Z.lnot_spec by lia.
    rewrite Z.ones_spec_low by lia. destruct (Z.testbit s k); reflexivity.
  - rewrite Z.mod_pow2_bits_high by lia. rewrite Z.ones_spec_high by lia.
    assert (Z.testbit s k = false) as ->; [|reflexivity].
    destruct (Z.eq_dec s 0) as [->|Hnz]; [apply Z.bits_0|].
    apply Z.bits_above_log2; [lia|].
    assert (Z.log2 s < 16) by (apply Z.log2_lt_pow2; lia). lia.
Qed.

Lemma even_len (n : nat) (data : list byte) :
  Datatypes.length data = (2 * n)%nat ->
  Z.land (len data) (Z.lnot 1) = len data /\ Z.land (len data) 1 = 0.
Proof.
  intros Hlen. rewrite land_lnot_1, land_1. unfold len. rewrite Hlen.
  replace (Z.of_nat (2 * n)) with (Z.of_nat n * 2) by lia.
  rewrite Z.div_mul, Z.mod_mul by lia. lia.
Qed.

Lemma odd_len (n : nat) (data : list byte) (b : byte) :
  Datatypes.length data = (2 * n)%nat ->
  Z.land (len (data ++ [b])) (Z.lnot 1) = len data /\ Z.land (len (data ++ [b])) 1 = 1.
Proof.
  intros Hlen. rewrite land_lnot_1, land_1. unfold len. rewrite length_app, Hlen.
  cbn [Datatypes.length].
  replace (Z.of_nat (2 * n + 1)) with (1 + Z.of_nat n * 2) by lia.
  rewrite Z.div_add, Z.mod_add by lia.
  change (1 / 2) with 0. change (1 mod 2) with 1. lia.
Qed.

(** What [checkSum] computes on an even number of bytes. *)
Lemma checkSum_even (n : nat) (data : list byte) :
  Datatypes.length data = (2 * n)%nat ->
  checkSum data
  = Z.lxor (fold_carries 2 (uint32 (fold_right Z.add 0 (be_words data)))) 65535.
Proof.
  intros Hlen. unfold checkSum.
  destruct (even_len n data Hlen) as [-> ->]. cbn [Z.eqb negb].
  pose proof (checkSum_words_spec n data [] [] (Datatypes.length data) 0 Hlen
                ltac:(lia) ltac:(lia)) as Hw.
  rewrite app_nil_r in Hw. cbn [app] in Hw. change (len []) with 0 in Hw.
  rewrite !Z.add_0_l in Hw. rewrite Hw.
  apply uint16_lnot. apply fold_carries_done.
  unfold uint32. apply Z.mod_pos_bound. reflexivity.
Qed.

(** What [checkSum] computes on an odd number of bytes: the last byte is
    added as it is. *)
Lemma checkSum_odd (n : nat) (data : list byte) (b : byte) :
  Datatypes.length data = (2 * n)%nat ->
  checkSum (data ++ [b])
  = Z.lxor (fold_carries 2 (uint32 (uint32 (fold_right Z.add 0 (be_words data)) + Zb b)))
           65535.
Proof.
  intros Hlen. unfold checkSum.
  destruct (odd_len n data b Hlen) as [-> ->]. cbn [Z.eqb negb].
  pose proof (checkSum_words_spec n data [] [b] (Datatypes.length (data ++ [b])) 0 Hlen
                ltac:(rewrite length_app; lia) ltac:(lia)) as Hw.
  cbn [app] in Hw. change (len []) with 0 in Hw.
  rewrite !Z.add_0_l in Hw. rewrite Hw.
  replace (len data) with (len data + 0) at 1 by lia.
  rewrite byte_at_app_r by lia. rewrite byte_at_0.
  apply uint16_lnot. apply fold_carries_done.
  unfold uint32. apply Z.mod_pos_bound. reflexivity.
Qed.

Lemma lxor_inj_r (a b k : Z) : Z.lxor a k = Z.lxor b k -> a = b.
Proof.
  intros E. apply (f_equal (fun x => Z.lxor x k)) in E.
  rewrite !Z.lxor_assoc, !Z.lxor_nilpotent, !Z.lxor_0_r in E. exact E.
Qed.

Lemma be_words_snoc (n : nat) :
  forall (data : list byte) (b : byte),
    Datatypes.length data = (2 * n)%nat ->
    be_words (data ++ [b]) = be_words data ++ [Z.shiftl (Zb b) 8].
Proof.
  induction n as [|n IH]; intros data b Hlen.
  - destruct data; [reflexivity | discriminate].
  - destruct data as [|x [|y data]]; cbn in Hlen; try lia.
    cbn [app be_words]. rewrite <- IH by lia. reflexivity.
Qed.

Lemma fold_right_add_app (l1 l2 : list Z) :
  fold_right Z.add 0 (l1 ++ l2) = fold_right Z.add 0 l1 + fold_right Z.add 0 l2.
Proof. induction l1 as [|x l1 IH]; cbn [app fold_right]; lia. Qed.

Lemma Zb_zero (b : byte) : Zb b = 0 -> b = x00.
Proof.
  unfold Zb. intros E. pose proof (Byte.of_to_N b) as Hb.
  replace (Byte.to_N b) with 0%N in Hb by lia.
  cbn in Hb. congruence.
Qed.

(** On an even number of bytes (fewer than 2^17, so that the 32-bit
    accumulator cannot wrap) [checkSum] is the checksum of the
    specification. *)
Theorem checkSum_even_agrees (n : nat) (data : list byte) :
  Datatypes.length data = (2 * n)%nat -> len data < 2 ^ 17 ->
  checkSum data = internet_checksum data.
Proof.
  intros Hlen Hshort. rewrite (checkSum_even n data Hlen).
  unfold internet_checksum. cbv zeta.
  pose proof (be_words_total_range n data Hlen) as Ht.
  set (total := fold_right Z.add 0 (be_words data)) in *.
  assert (Hn : Z.of_nat n <= 65535).
  { unfold len in Hshort. rewrite Hlen in Hshort.
    change (2 ^ 17) with 131072 in Hshort. lia. }
  assert (Hr : 0 <= total < 2 ^ 32) by (change (2 ^ 32) with 4294967296; nia).
  rewrite uint32_small by exact Hr.
  f_equal. rewrite Nat.add_comm. symmetry.
  apply fold_carries_more; [lia|]. apply fold_carries_done. exact Hr.
Qed.

(** On an odd number of bytes ending in a byte other than zero, [checkSum]
    is not the checksum of the specification. *)
Theorem checkSum_odd_disagrees (n : nat) (data : list byte) (b : byte) :
  Datatypes.length data = (2 * n)%nat -> len data < 2 ^ 17 -> b <> x00 ->
  checkSum (data ++ [b]) <> internet_checksum (data ++ [b]).
Proof.
  intros Hlen Hshort Hb E. rewrite (checkSum_odd n data b Hlen) in E.
  unfold internet_checksum in E. cbv zeta in E.
  rewrite (be_words_snoc n data b Hlen), fold_right_add_app in E.
  cbn [fold_right] in E.
  pose proof (be_words_total_range n data Hlen) as Ht.
  set (total := fold_right Z.add 0 (be_words data)) in *.
  assert (Hn : Z.of_nat n <= 65535).
  { unfold len in Hshort. rewrite Hlen in Hshort.
    change (2 ^ 17) with 131072 in Hshort. lia. }
  pose proof (Zb_range b) as Hbr.
  assert (Hnz : Zb b <> 0) by (intros Hz; apply Hb, Zb_zero, Hz).
  rewrite (uint32_small total) in E by (change (2 ^ 32) with 4294967296; nia).
  rewrite uint32_small in E by (change (2 ^ 32) with 4294967296; nia).
  apply lxor_inj_r in E.
  apply (f_equal (fun x => x mod 65535)) in E.
  rewrite Z.shiftl_mul_pow2 in E by lia. change (2 ^ 8) with 256 in E.
  rewrite !fold_carries_mod in E by lia.
  revert E. generalize (Zb b) Hbr Hnz. intros z Hz Hz0 E.
  Z.div_mod_to_equations. lia.
Qed.

(** C5, at the failing input: on the single byte 0x01 [checkSum] returns
    0xFFFE, the complement of 0x0001, where the checksum of the
    specification, which takes the final odd byte shifted left by 8 bits,
    is 0xFEFF, the complement of 0x0100. *)
Theorem checkSum_odd_byte_not_shifted :
  checkSum [x01] = 65534 /\ internet_checksum [x01] = 65279.
Proof. split; reflexivity. Qed.

(** ** UDP probe *)

Lemma int_small (z : Z) : - 2 ^ 63 <= z < 2 ^ 63 -> int z = z.
Proof.
  intros Hz. unfold int.
  change (2 ^ 63) with 9223372036854775808 in *.
  change (2 ^ 64) with 18446744073709551616.
  rewrite Z.mod_small by lia. lia.
Qed.

Lemma uint16_small (z : Z) : 0 <= z < 65536 -> uint16 z = z.
Proof. intros. unfold uint16. apply Z.mod_small. change (2 ^ 16) with 65536. lia. Qed.

(** The bytes of an IPv4 UDP probe whose size covers the headers. *)
Lemma udpMessage_v4_bytes (lport rport pSize : Z) :
  28 <= pSize < 2 ^ 62 ->
  udpMessage lport rport pSize true
  = be16 lport ++ be16 rport ++ be16 (pSize - 20) ++ be16 0 ++ zeros (pSize - 28).
Proof.
  intros Hp. unfold udpMessage.
  change (2 ^ 62) with 4611686018427387904 in Hp.
  rewrite int_small by (change (2 ^ 63) with 9223372036854775808; lia).
  rewrite int_small by (change (2 ^ 63) with 9223372036854775808; lia).
  replace (8 + (pSize - (20 + 8))) with (pSize - 20) by lia.
  replace (pSize - (20 + 8)) with (pSize - 28) by lia.
  destruct (Z.gtb_spec (pSize - 28) 0) as [Hgt|Hle].
  - rewrite <- !app_assoc. reflexivity.
  - replace (pSize - 28) with 0 by lia. cbn [zeros Z.to_nat repeat].
    rewrite <- !app_assoc. reflexivity.
Qed.

(** The bytes of an IPv4 UDP probe whose size is below the 28 bytes of
    the headers: the bare UDP header. *)
Lemma udpMessage_v4_short (lport rport pSize : Z) :
  - 2 ^ 62 <= pSize <= 28 ->
  udpMessage lport rport pSize true
  = be16 lport ++ be16 rport ++ be16 (pSize - 20) ++ be16 0.
Proof.
  intros Hp. unfold udpMessage.
  change (2 ^ 62) with 4611686018427387904 in Hp.
  rewrite int_small by (change (2 ^ 63) with 9223372036854775808; lia).
  rewrite int_small by (change (2 ^ 63) with 9223372036854775808; lia).
  replace (8 + (pSize - (20 + 8))) with (pSize - 20) by lia.
  destruct (Z.gtb_spec (pSize - (20 + 8)) 0) as [Hgt|Hle]; [lia|].
  rewrite <- !app_assoc. reflexivity.
Qed.

Lemma udp_fields (lport rport l : Z) (payload : list byte) :
  let b := be16 lport ++ be16 rport ++ be16 l ++ be16 0 ++ payload in
  get16 b 0 = uint16 lport /\ get16 b 2 = uint16 rport /\
  get16 b 4 = uint16 l /\ get16 b 6 = 0 /\ skipn 8 b = payload /\
  len b = 8 + len payload.
Proof.
  cbv zeta. refine (conj _ (conj _ (conj _ (conj _ (conj _ _))))).
  - apply get16_be16.
  - change 2 with (len (be16 lport) + 0) at 1. rewrite get16_skip by lia. apply get16_be16.
  - rewrite app_assoc. change 4 with (len (be16 lport ++ be16 rport) + 0) at 1.
    rewrite get16_skip by lia. apply get16_be16.
  - reflexivity.
  - reflexivity.
  - unfold len. rewrite !length_app, !length_be16. lia.
Qed.

Lemma rand_Intn_3 (e : SendEnv) :
  In (64000 + rand_Intn e 3 * 100) [64000; 64100; 64200].
Proof.
  unfold rand_Intn. pose proof (Z.mod_pos_bound (rand_src e) 3 ltac:(lia)) as Hm.
  assert (rand_src e mod 3 = 0 \/ rand_src e mod 3 = 1 \/ rand_src e mod 3 = 2)
    as [-> | [-> | ->]] by lia; cbn; auto.
Qed.

Section Probes.
Context `{Externals}.

(** The transport bytes do not depend on the counters of the tracer. *)
Lemma Sendv4_probe_set_seq (i : Trace.t) (v seq rport : Z) (e : SendEnv) :
  Sendv4_probe (Trace.set_seq i v) seq rport e = Sendv4_probe i seq rport e.
Proof. reflexivity. Qed.

Lemma Sendv4_probe_set_ttl (i : Trace.t) (v seq rport : Z) (e : SendEnv) :
  Sendv4_probe (Trace.set_ttl i v) seq rport e = Sendv4_probe i seq rport e.
Proof. reflexivity. Qed.

(** A raw IPv4 packet written by [Sendv4] carries the bytes of
    [Sendv4_probe] under a header of total length 20 more. *)
Lemma Sendv4_RawV4 (i : Trace.t) (id seq rport : Z) (e : SendEnv)
  (err : option error) (pkts : list Packet) (h : Header) (b : list byte) :
  Sendv4 i id seq rport e = Done (err, pkts) -> In (RawV4 h b) pkts ->
  exists proto, Sendv4_probe i seq rport e = Done (proto, b)
                /\ Protocol h = proto /\ TotalLen h = 20 + len b /\ TTL h = Trace.ttl i
                /\ ID h = id /\ err = None /\ pkts = [RawV4 h b].
Proof.
  unfold Sendv4. destruct (Sendv4_probe i seq rport e) as [[proto b']|]; cbn [obind];
    [|discriminate].
  destruct (ListenPacket_err e proto); [intros [= <- <-] []|].
  destruct (NewRawConn_err e); [intros [= <- <-] []|].
  destruct (WriteTo_err e); [intros [= <- <-] []|].
  intros [= <- <-] [[= <- <-]|[]]. exists proto. cbn. auto 10.
Qed.

Lemma Send_RawV4 (i : Trace.t) (port : Z) (e : SendEnv) (id seq : Z)
  (err : option error) (i' : Trace.t) (pkts : list Packet) (h : Header) (b : list byte) :
  Send i port e = Done (id, seq, err, i', pkts) -> In (RawV4 h b) pkts ->
  exists proto, Sendv4_probe i seq port e = Done (proto, b)
                /\ Protocol h = proto /\ TotalLen h = 20 + len b /\ TTL h = Trace.ttl i
                /\ seq = Trace.seq i /\ err = None /\ pkts = [RawV4 h b].
Proof.
  unfold Send.
  destruct (if Trace.icmp _ && _ then _ else _) as [sotype proto0].
  destruct (Socket_err e _ sotype proto0); [intros [= <- <- <- <- <-] []|].
  destruct (IsIPv4 _).
  - destruct (Sendv4 _ _ _ _ _) as [[err' pkts']|] eqn:E; cbn [obind]; [|discriminate].
    intros [= <- <- <- <- <-] Hin.
    destruct (Sendv4_RawV4 _ _ _ _ _ _ _ _ _ E Hin) as (proto & Hp & ? & ? & ? & ? & ? & ?).
    exists proto. rewrite Sendv4_probe_set_seq in Hp. cbn in *. auto 10.
  - destruct (icmpV6Message _ _ _) as [m [err'|]]; [intros [= <- <- <- <- <-] []|].
    destruct (Sendto_err e); [intros [= <- <- <- <- <-] []|].
    intros [= <- <- <- <- <-] [[=]|[]].
Qed.

Lemma NextHop_Send (i : Trace.t) (hop : Z) (e : ProbeEnv)
  (r : HopResp.t) (i' : Trace.t) (pkts : list Packet) :
  NextHop i hop e = Done (r, i', pkts) ->
  exists id seq err,
    Send (SetTTL i hop) 33434 (send_env e) = Done (id, seq, err, i', pkts).
Proof.
  unfold NextHop.
  destruct (Send _ _ _) as [[[[[id seq] err] i2] pkts2]|]; cbn [obind]; [|discriminate].
  destruct err as [err|].
  - intros [= <- <- <-]. eauto.
  - destruct (Recv _ _ _ _) as [resp [err|]]; intros [= <- <- <-]; eauto.
Qed.

(** C6: in IPv4 UDP mode with a packet size in [28, 1500], every packet
    the hop prober writes is a UDP datagram whose source port is 64000
    plus 100 times a draw from {0, 1, 2}, whose destination port is 33434,
    whose length field is the packet size less 20, whose checksum field is
    zero, and whose payload is packet size less 28 zero bytes, so that the
    datagram has packet size less 20 bytes and the IP total length is the
    packet size. *)
Theorem udp_probe_decodes (i : Trace.t) (hop : Z) (e : ProbeEnv)
  (r : HopResp.t) (i' : Trace.t) (pkts : list Packet) (h : Header) (b : list byte) :
  Trace.icmp i = false -> Trace.udp i = true ->
  28 <= Trace.pSize i <= 1500 ->
  NextHop i hop e = Done (r, i', pkts) -> In (RawV4 h b) pkts ->
  let lport := 64000 + rand_Intn (send_env e) 3 * 100 in
  In lport [64000; 64100; 64200]
  /\ get16 b 0 = lport /\ get16 b 2 = 33434
  /\ get16 b 4 = Trace.pSize i - 20 /\ get16 b 6 = 0
  /\ skipn 8 b = zeros (Trace.pSize i - 28)
  /\ len b = Trace.pSize i - 20
  /\ Protocol h = 17 /\ TotalLen h = Trace.pSize i /\ TTL h = hop.
Proof.
  intros Hicmp Hudp Hp Hnext Hin lport.
  destruct (NextHop_Send _ _ _ _ _ _ Hnext) as (id & seq & err & Hsend).
  destruct (Send_RawV4 _ _ _ _ _ _ _ _ _ _ Hsend Hin)
    as (proto & Hprobe & Hproto & Hlen & Httl & _).
  unfold SetTTL in Hprobe. rewrite Sendv4_probe_set_ttl in Hprobe.
  unfold Sendv4_probe in Hprobe. rewrite Hicmp, Hudp in Hprobe.
  injection Hprobe as <- <-.
  pose proof (rand_Intn_3 (send_env e)) as Hl. fold lport in Hl |- *.
  rewrite udpMessage_v4_bytes in * by (change (2 ^ 62) with 4611686018427387904; lia).
  destruct (udp_fields lport 33434 (Trace.pSize i - 20) (zeros (Trace.pSize i - 28)))
    as (F0 & F2 & F4 & F6 & Fp & Fl).
  rewrite uint16_small in F0 by (cbn in Hl; lia).
  rewrite uint16_small in F2 by lia.
  rewrite uint16_small in F4 by lia.
  assert (Hz : len (zeros (Trace.pSize i - 28)) = Trace.pSize i - 28)
    by (unfold len; rewrite length_zeros; lia).
  rewrite Hz in Fl.
  fold lport in Hlen. rewrite Fl in Hlen.
  repeat split; try assumption; try lia.
Qed.

End Probes.

Lemma udp_probe_decodes_witness :
  let b := udpMessage 64100 33434 52 true in
  let h := mkHeader 4 20 52 17 38841 1 Examples.target in
  In 64100 [64000; 64100; 64200]
  /\ get16 b 0 = 64100 /\ get16 b 2 = 33434
  /\ get16 b 4 = 52 - 20 /\ get16 b 6 = 0
  /\ skipn 8 b = zeros (52 - 28)
  /\ len b = 52 - 20
  /\ Protocol h = 17 /\ TotalLen h = 52 /\ TTL h = 1.
Proof.
  cbv zeta.
  eapply (udp_probe_decodes (H := Fixture.host)
            (Examples.tracer false true false 52 30 (-1)) 1 Examples.silent).
  - reflexivity.
  - reflexivity.
  - cbn. lia.
  - reflexivity.
  - left. reflexivity.
Defined.

(** ** TCP probe *)

Lemma tcpMessage_length (lport rport pSize : Z) (isIPv4 : bool) (rnd now : Z) :
  Datatypes.length (tcpMessage lport rport pSize isIPv4 rnd now) = 44%nat.
Proof. reflexivity. Qed.

(** The size argument and the address family are not used. *)
Lemma tcpMessage_ignores_pSize (lport rport pSize pSize' : Z) (isIPv4 isIPv4' : bool)
  (rnd now : Z) :
  tcpMessage lport rport pSize isIPv4 rnd now
  = tcpMessage lport rport pSize' isIPv4' rnd now.
Proof. reflexivity. Qed.

Lemma tcpMessage_offset (lport rport pSize : Z) (isIPv4 : bool) (rnd now : Z) :
  tcpMessage lport rport pSize isIPv4 rnd now !! 12%nat = Some xb0.
Proof. reflexivity. Qed.

Lemma byte_at_lookup (l : list byte) (k : nat) (b : byte) :
  l !! k = Some b -> byte_at l (Z.of_nat k) = Zb b.
Proof.
  intros Hl. unfold byte_at.
  destruct (Z.ltb_spec (Z.of_nat k) 0); [lia|].
  rewrite Nat2Z.id, nth_lookup, Hl. reflexivity.
Qed.

(** [setTCPCheckSum] on a 44-byte segment: it does not panic, keeps the
    length and writes bytes 16 and 17 only. *)
Lemma setTCPCheckSum_tcpMessage (src dst : list byte) (lport rport pSize : Z)
  (isIPv4 : bool) (rnd now : Z) :
  exists b,
    setTCPCheckSum src dst (tcpMessage lport rport pSize isIPv4 rnd now) = Some b
    /\ Datatypes.length b = 44%nat /\ b !! 12%nat = Some xb0.
Proof.
  unfold setTCPCheckSum. unfold len at 2. rewrite tcpMessage_length.
  cbn [Z.of_nat Pos.of_succ_nat Z.leb Z.compare Pos.compare Pos.compare_cont].
  eexists. split; [reflexivity|]. split.
  - rewrite !length_insert. apply tcpMessage_length.
  - rewrite !list_lookup_insert_ne by lia. apply tcpMessage_offset.
Qed.

Section TCPProbe.
Context `{Externals}.

(** C10: in TCP mode the transport bytes [Sendv4] builds are the 44 bytes
    of [tcpMessage], with data offset 11, whatever the packet size of the
    tracer: changing the packet size changes neither the bytes nor what
    [Sendv4] returns and writes. *)
Theorem tcp_probe_44_bytes (i : Trace.t) (id seq rport p : Z) (e : SendEnv) :
  Trace.icmp i = false -> Trace.udp i = false -> Trace.tcp i = true ->
  (exists b, Sendv4_probe i seq rport e = Done (6, b)
             /\ len b = 44 /\ Z.shiftr (byte_at b 12) 4 = 8 + 3)
  /\ Sendv4_probe (Trace.set_pSize i p) seq rport e = Sendv4_probe i seq rport e
  /\ Sendv4 (Trace.set_pSize i p) id seq rport e = Sendv4 i id seq rport e
  /\ forall lport rport' pSize pSize' rnd now,
       tcpMessage lport rport' pSize true rnd now
       = tcpMessage lport rport' pSize' true rnd now
       /\ len (tcpMessage lport rport' pSize true rnd now) = 44.
Proof.
  intros Hicmp Hudp Htcp.
  assert (Hsame : Sendv4_probe (Trace.set_pSize i p) seq rport e
                  = Sendv4_probe i seq rport e).
  { unfold Sendv4_probe. cbn [Trace.icmp Trace.udp Trace.tcp Trace.set_pSize
      Trace.src Trace.ip]. rewrite Hicmp, Hudp, Htcp. reflexivity. }
  refine (conj _ (conj Hsame (conj _ _))).
  - unfold Sendv4_probe. rewrite Hicmp, Hudp, Htcp.
    destruct (setTCPCheckSum_tcpMessage (Trace.src i) (Trace.ip i) 0 33434 64 true
                (rand_Uint32 e) (Now_Unix e)) as (b & -> & Hlen & H12).
    exists b. cbn [of_option obind]. split; [reflexivity|]. split.
    + unfold len. rewrite Hlen. reflexivity.
    + change 12 with (Z.of_nat 12). rewrite (byte_at_lookup _ _ _ H12). reflexivity.
  - unfold Sendv4. rewrite Hsame. reflexivity.
  - intros. split; reflexivity.
Qed.

End TCPProbe.

Lemma tcp_probe_44_bytes_witness :
  (exists b, Sendv4_probe (H := Fixture.host)
               (Examples.tracer false false true 52 30 (-1)) 1 33434 Examples.sends
             = Done (6, b)
             /\ len b = 44 /\ Z.shiftr (byte_at b 12) 4 = 8 + 3)
  /\ Sendv4_probe (H := Fixture.host)
       (Trace.set_pSize (Examples.tracer false false true 52 30 (-1)) 1400)
       1 33434 Examples.sends
     = Sendv4_probe (H := Fixture.host)
         (Examples.tracer false false true 52 30 (-1)) 1 33434 Examples.sends
  /\ Sendv4 (H := Fixture.host)
       (Trace.set_pSize (Examples.tracer false false true 52 30 (-1)) 1400)
       38841 1 33434 Examples.sends
     = Sendv4 (H := Fixture.host)
         (Examples.tracer false false true 52 30 (-1)) 38841 1 33434 Examples.sends
  /\ forall lport rport' pSize pSize' rnd now,
       tcpMessage lport rport' pSize true rnd now
       = tcpMessage lport rport' pSize' true rnd now
       /\ len (tcpMessage lport rport' pSize true rnd now) = 44.
Proof.
  apply (tcp_probe_44_bytes (H := Fixture.host)
           (Examples.tracer false false true 52 30 (-1)) 38841 1 33434 1400
           Examples.sends); reflexivity.
Defined.

(** ** Packet sizes below the header overhead *)

Section ShortPackets.
Context `{Externals}.

(** [NewTrace] stores the packet size option as it is given. *)
Lemma NewTrace_pSize (args Theme Wait : string) (t : Trace.t) :
  NewTrace args Theme Wait = NT_ok t ->
  Trace.pSize t = SetFlag_int (snd (cli_Flag args)) "p" 52.
Proof.
  unfold NewTrace. destruct (cli_Flag args) as [target flag]. cbn [snd].
  destruct (flag_has flag "help" || _); [discriminate|].
  destruct (LookupIP target) as [ips|err]; [|discriminate].
  destruct (is_nil _); [discriminate|].
  destruct (getLocalAddr _) as [lAddr|err]; [|discriminate].
  destruct (if IsIPv4 _ then _ else _) as [family proto].
  unfold setReportDCount. cbn [Trace.report Trace.count].
  destruct (_ && _); intros [= <-]; reflexivity.
Qed.

(** C9, amended: in IPv4 UDP mode a packet size below 28 is not rejected.
    The probe is the bare 8-byte UDP header without payload, its length
    field is the packet size less 20 modulo 2^16, and when the system
    calls succeed [Sendv4] writes it and returns no error; [NewTrace]
    stores the packet size unchecked. *)
Theorem udp_short_size_not_rejected (i : Trace.t) (id seq rport : Z) (e : SendEnv) :
  Trace.icmp i = false -> Trace.udp i = true ->
  - 2 ^ 62 <= Trace.pSize i < 28 ->
  let b := be16 (64000 + rand_Intn e 3 * 100) ++ be16 rport
           ++ be16 (Trace.pSize i - 20) ++ be16 0 in
  Sendv4_probe i seq rport e = Done (17, b)
  /\ len b = 8
  /\ get16 b 4 = (Trace.pSize i - 20) mod 2 ^ 16
  /\ (ListenPacket_err e 17 = None -> NewRawConn_err e = None ->
      WriteTo_err e = None ->
      Sendv4 i id seq rport e
      = Done (None, [RawV4 (mkHeader 4 20 28 17 id (Trace.ttl i) (To4 (Trace.ip i))) b]))
  /\ (forall args Theme Wait t,
        NewTrace args Theme Wait = NT_ok t ->
        Trace.pSize t = SetFlag_int (snd (cli_Flag args)) "p" 52).
Proof.
  intros Hicmp Hudp Hp b.
  assert (Hprobe : Sendv4_probe i seq rport e = Done (17, b)).
  { unfold Sendv4_probe. rewrite Hicmp, Hudp.
    rewrite udpMessage_v4_short by lia. reflexivity. }
  refine (conj Hprobe (conj eq_refl (conj _ (conj _ NewTrace_pSize)))).
  - subst b. rewrite app_assoc.
    change 4 with (len (be16 (64000 + rand_Intn e 3 * 100) ++ be16 rport) + 0) at 1.
    rewrite get16_skip by lia. apply get16_be16.
  - intros Hl Hr Hw. unfold Sendv4. rewrite Hprobe. cbn [obind].
    rewrite Hl, Hr, Hw. reflexivity.
Qed.

End ShortPackets.

Lemma udp_short_size_not_rejected_witness :
  let i := Examples.tracer false true false 10 30 (-1) in
  let b := be16 64100 ++ be16 33434 ++ be16 (10 - 20) ++ be16 0 in
  Sendv4_probe (H := Fixture.host) i 1 33434 Examples.sends = Done (17, b)
  /\ len b = 8
  /\ get16 b 4 = (10 - 20) mod 2 ^ 16
  /\ (ListenPacket_err Examples.sends 17 = None ->
      NewRawConn_err Examples.sends = None ->
      WriteTo_err Examples.sends = None ->
      Sendv4 (H := Fixture.host) i 38841 1 33434 Examples.sends
      = Done (None, [RawV4 (mkHeader 4 20 28 17 38841 0 Examples.target) b]))
  /\ (forall args Theme Wait t,
        NewTrace (H := Fixture.host) args Theme Wait = NT_ok t ->
        Trace.pSize t = SetFlag_int (Externals := Fixture.host)
                          (snd (cli_Flag (Externals := Fixture.host) args)) "p" 52).
Proof.
  apply (udp_short_size_not_rejected (H := Fixture.host)
           (Examples.tracer false true false 10 30 (-1)) 38841 1 33434 Examples.sends).
  - reflexivity.
  - reflexivity.
  - cbn. lia.
Defined.

(** C9 as stated fails: for the command line with -u -p 10, [NewTrace]
    returns a tracer and no error, and with every system call succeeding
    [Sendv4] returns no error and writes an 8-byte datagram whose length
    field reads 65526. *)
Lemma short_packet_size_is_sent :
  match NewTrace (H := Fixture.host) "192.0.2.9 -u -p 10" "dark" "2s" with
  | NT_ok t =>
      Trace.udp t = true /\ Trace.pSize t = 10
      /\ Sendv4 (H := Fixture.host) t 38841 1 33434 Examples.sends
         = Done (None,
                 [RawV4 (mkHeader 4 20 28 17 38841 0 Examples.target)
                        (be16 64100 ++ be16 33434 ++ be16 65526 ++ be16 0)])
  | _ => False
  end.
Proof. vm_compute. repeat split; reflexivity. Qed.

(** ** Correlation of replies in ICMP mode *)

Section Correlation.
Context `{Externals}.

(** In ICMP mode the only test on a parsed reply is on its sequence
    number. *)
Lemma Recv_parse_icmp (i : Trace.t) (id seq : Z) (b from : list byte) :
  Trace.icmp i = true ->
  snd (Recv_parse i id seq b from)
  = negb (seq =? ICMPResp.seq (fst (Recv_parse i id seq b from))).
Proof.
  intros Hicmp. unfold Recv_parse. rewrite Hicmp.
  destruct (len (To4 (Trace.ip i)) =? 4); cbn [fst snd negb andb orb];
    rewrite orb_false_r; reflexivity.
Qed.

Lemma Recv_loop_accepts_seq (i : Trace.t) (id seq : Z) (events : list RecvEvent) :
  Trace.icmp i = true ->
  forall (blen : nat) (resp0 resp : ICMPResp.t),
    Recv_loop i id seq blen resp0 events = (resp, None) ->
    ICMPResp.seq resp = seq.
Proof.
  intros Hicmp. induction events as [|ev events IH]; intros blen resp0 resp.
  - cbn [Recv_loop]. discriminate.
  - destruct ev as [err since | frame from since]; cbn [Recv_loop].
    + destruct (is_EAGAIN err && (since <? wait_du i)); [apply IH | discriminate].
    + pose proof (Recv_parse_icmp i id seq (firstn blen frame) from Hicmp) as Hw.
      destruct (Recv_parse i id seq (firstn blen frame) from) as [r wrong].
      cbn [fst snd] in Hw. subst wrong.
      destruct (Z.eqb_spec seq (ICMPResp.seq r)) as [E|E]; cbn [negb].
      * intros [= <-]. symmetry. exact E.
      * destruct (since <? wait_du i); [apply IH | discriminate].
Qed.

(** C2, amended: in ICMP mode [Recv] returns a reply without error only
    if the sequence number its parser extracted is the one of the probe,
    and a frame is accepted exactly on that test: neither the ICMP type nor
    the identifier is examined.  A frame that fails it is skipped while
    the wait window is open, and is returned with the error wrong response
    once the window has closed. *)
Theorem icmp_recv_accepts_on_seq (i : Trace.t) (id seq : Z) :
  Trace.icmp i = true ->
  (forall events resp,
      Recv i id seq events = (resp, None) -> ICMPResp.seq resp = seq)
  /\ (forall blen resp0 frame from since events',
        let r := fst (Recv_parse i id seq (firstn blen frame) from) in
        Recv_loop i id seq blen resp0 (RecvFrame frame from since :: events')
        = if seq =? ICMPResp.seq r then (r, None)
          else if since <? wait_du i
               then Recv_loop i id seq (Datatypes.length (firstn blen frame)) r events'
               else (r, Some (errorString "wrong response"))).
Proof.
  intros Hicmp. split.
  - intros events resp. unfold Recv. apply Recv_loop_accepts_seq. exact Hicmp.
  - intros blen resp0 frame from since events'. cbn [Recv_loop].
    pose proof (Recv_parse_icmp i id seq (firstn blen frame) from Hicmp) as Hw.
    destruct (Recv_parse i id seq (firstn blen frame) from) as [r wrong].
    cbn [fst snd] in *. subst wrong.
    destruct (seq =? ICMPResp.seq r); reflexivity.
Qed.

End Correlation.

Lemma icmp_recv_accepts_on_seq_witness :
  let i := Examples.tracer true false false 52 30 (-1) in
  (forall events resp,
      Recv (H := Fixture.host) i 38841 1 events = (resp, None) -> ICMPResp.seq resp = 1)
  /\ (forall blen resp0 frame from since events',
        let r := fst (Recv_parse (H := Fixture.host) i 38841 1 (firstn blen frame) from) in
        Recv_loop (H := Fixture.host) i 38841 1 blen resp0
          (RecvFrame frame from since :: events')
        = if 1 =? ICMPResp.seq r then (r, None)
          else if since <? wait_du (H := Fixture.host) i
               then Recv_loop (H := Fixture.host) i 38841 1
                      (Datatypes.length (firstn blen frame)) r events'
               else (r, Some (errorString "wrong response"))).
Proof.
  apply (icmp_recv_accepts_on_seq (H := Fixture.host)
           (Examples.tracer true false false 52 30 (-1)) 38841 1).
  reflexivity.
Defined.

(** C2 as stated fails: the probe with sequence number 1 was sent with
    ICMP identifier 4242 and IP id 38841; an echo reply (type 0) with
    sequence number 1 and identifier 7 is accepted and returned without
    error. *)
Lemma echo_reply_with_other_id_accepted :
  let i := Examples.tracer true false false 52 30 (-1) in
  let frame := Examples.echo_reply Examples.target Examples.local 7 1 in
  let r := Recv (H := Fixture.host) i 38841 1 [RecvFrame frame [] 1000000] in
  snd r = None
  /\ ICMPResp.typ (fst r) = 0 /\ ICMPResp.id (fst r) = 7 /\ ICMPResp.seq (fst r) = 1
  /\ ICMPResp.id (fst r) <> 4242 /\ ICMPResp.id (fst r) <> 38841.
Proof. vm_compute. repeat split; discriminate. Qed.

(** ** Probes without a reply *)

Section NoReply.
Context `{Externals}.

(** C3: when the probe was sent and the receive fails, whatever the
    failure, [NextHop] returns the hop number with empty name and address,
    zero elapsed time, [last] false and no error; so for such a result the
    elapsed time is zero exactly when the address is empty. *)
Theorem NextHop_receive_failure (i : Trace.t) (hop : Z) (e : ProbeEnv)
  (id seq : Z) (i' : Trace.t) (pkts : list Packet) (resp : ICMPResp.t) (rerr : error) :
  Send (SetTTL i hop) 33434 (send_env e) = Done (id, seq, None, i', pkts) ->
  Recv i' id seq (recv_events e) = (resp, Some rerr) ->
  exists r,
    NextHop i hop e = Done (r, i', pkts)
    /\ HopResp.num r = hop
    /\ HopResp.ip r = EmptyString
    /\ HopResp.elapsed r = f64_zero
    /\ HopResp.last r = false
    /\ HopResp.err r = None
    /\ (HopResp.elapsed r = f64_zero <-> HopResp.ip r = EmptyString).
Proof.
  intros Hsend Hrecv. unfold NextHop. rewrite Hsend. cbn [obind]. rewrite Hrecv.
  eexists. split; [reflexivity|]. cbn. tauto.
Qed.

(** A receive during which nothing arrives fails. *)
Lemma Recv_silence (i : Trace.t) (id seq : Z) :
  Recv i id seq [] = (ICMPResp.zero, Some EAGAIN).
Proof. reflexivity. Qed.

End NoReply.

Lemma NextHop_receive_failure_witness :
  exists r,
    NextHop (H := Fixture.host) (Examples.tracer true false false 52 30 (-1)) 3
      Examples.silent
    = Done (r, Trace.set_seq (Trace.set_ttl (Examples.tracer true false false 52 30 (-1)) 3) 2,
            [RawV4 (mkHeader 4 20 52 1 38841 3 Examples.target)
                   (fst (Fixture.icmpV4Message_model 4242 1 52))])
    /\ HopResp.num r = 3
    /\ HopResp.ip r = EmptyString
    /\ HopResp.elapsed r = f64_zero
    /\ HopResp.last r = false
    /\ HopResp.err r = None
    /\ (HopResp.elapsed r = f64_zero <-> HopResp.ip r = EmptyString).
Proof.
  eapply (NextHop_receive_failure (H := Fixture.host)
            (Examples.tracer true false false 52 30 (-1)) 3 Examples.silent
            38841 1 _ _ ICMPResp.zero EAGAIN).
  - reflexivity.
  - reflexivity.
Defined.

(** ** Single-pass scan *)

Section SinglePass.
Context `{Externals}.

Lemma Send_inv (i : Trace.t) (port : Z) (e : SendEnv) (id seq : Z)
  (err : option error) (i' : Trace.t) (pkts : list Packet) :
  Send i port e = Done (id, seq, err, i', pkts) ->
  i' = Trace.set_seq i (int (Trace.seq i + 1)) /\ seq = Trace.seq i.
Proof.
  unfold Send.
  destruct (if Trace.icmp _ && _ then _ else _) as [sotype proto0].
  destruct (Socket_err e _ sotype proto0); [intros [= <- <- <- <- <-]; auto|].
  destruct (IsIPv4 _).
  - destruct (Sendv4 _ _ _ _ _) as [[err' pkts']|]; cbn [obind]; [|discriminate].
    intros [= <- <- <- <- <-]; auto.
  - destruct (icmpV6Message _ _ _) as [m [err'|]]; [intros [= <- <- <- <- <-]; auto|].
    destruct (Sendto_err e); intros [= <- <- <- <- <-]; auto.
Qed.

(** [NextHop] reports the hop it was asked for and touches only the
    counters of the tracer. *)
Lemma NextHop_inv (i : Trace.t) (hop : Z) (e : ProbeEnv)
  (r : HopResp.t) (i' : Trace.t) (pkts : list Packet) :
  NextHop i hop e = Done (r, i', pkts) ->
  HopResp.num r = hop
  /\ i' = Trace.set_seq (SetTTL i hop) (int (Trace.seq i + 1)).
Proof.
  unfold NextHop.
  destruct (Send _ _ _) as [[[[[id seq] err] i2] pkts2]|] eqn:E; cbn [obind];
    [|discriminate].
  apply Send_inv in E. destruct E as [-> ->].
  destruct err as [err|]; [intros [= <- <- <-]; auto|].
  destruct (Recv _ _ _ _) as [resp [err|]]; [intros [= <- <- <-]; auto|].
  intros [= <- <- <-]. split; [|reflexivity].
  destruct (if Trace.resolve _ then _ else _); destruct (existsb _ _); reflexivity.
Qed.

Lemma addWhois_inv (R R' : list HopResp.t) :
  addWhois R = Done R' ->
  exists f, R' = map (fun r => HopResp.set_whois r (f r)) R.
Proof.
  unfold addWhois. destruct (map_fold _ _ _) as [ips|]; cbn [obind]; [|discriminate].
  intros [= <-]. eexists (fun r => default Whois.zero (ips !! HopResp.ip r)).
  reflexivity.
Qed.

(** What the retries of one hop append to the batch. *)
Lemma Run_retries_spec (w : World) (h retry : Z) (fuel : nat) :
  forall (i : Trace.t) (n : Z) (r : list HopResp.t) (i' : Trace.t) (r' : list HopResp.t),
    Z.of_nat fuel = Z.max 0 (retry - n) ->
    Run_retries w fuel i h n retry r = Done (i', r') ->
    Trace.maxTTL i' = Trace.maxTTL i /\ Trace.ripe i' = Trace.ripe i
    /\ exists new,
         r' = r ++ new
         /\ Forall (fun x => HopResp.num x = h) new
         /\ ((Forall (fun x => HopResp.err x = None) new
              /\ Datatypes.length new = fuel)
             \/ (exists pre x, new = pre ++ [x]
                   /\ Forall (fun x => HopResp.err x = None) pre
                   /\ HopResp.err x <> None
                   /\ (Datatypes.length new <= fuel)%nat)).
Proof.
  induction fuel as [|fuel IH]; intros i n r i' r' Hfuel; cbn [Run_retries].
  - intros [= <- <-]. split; [reflexivity|]. split; [reflexivity|].
    exists []. rewrite app_nil_r. split; [reflexivity|]. split; [constructor|].
    left. split; [constructor | reflexivity].
  - destruct (Z.ltb_spec n retry) as [Hlt|Hge]; [|lia].
    destruct (NextHop i h _) as [[[hop i1] pk]|] eqn:E; cbn [obind]; [|discriminate].
    apply NextHop_inv in E. destruct E as [Hnum ->].
    destruct (bool_decide_reflect (HopResp.err hop <> None)) as [Herr|Hnoerr].
    + intros [= <- <-]. split; [reflexivity|]. split; [reflexivity|].
      exists [hop]. split; [reflexivity|]. split; [repeat constructor; exact Hnum|].
      right. exists [], hop. repeat split; [constructor | exact Herr | cbn; lia].
    + intros Hrec. apply IH in Hrec; [|lia].
      destruct Hrec as (Hm & Hr & new & -> & Hnums & Hshape).
      split; [exact Hm|]. split; [exact Hr|].
      exists (hop :: new). split; [rewrite <- app_assoc; reflexivity|].
      split; [constructor; assumption|].
      assert (Hnone : HopResp.err hop = None)
        by (destruct (HopResp.err hop); [exfalso; apply Hnoerr; discriminate | reflexivity]).
      destruct Hshape as [[Hall Hlen] | (pre & x & -> & Hpre & Hx & Hlen)].
      * left. split; [constructor; assumption | cbn; lia].
      * right. exists (hop :: pre), x.
        repeat split; [constructor; assumption | exact Hx | cbn in *; lia].
Qed.

Lemma Run_stop_Exists (r : list HopResp.t) :
  Run_stop r = true
  <-> Exists (fun x => HopResp.last x = true \/ HopResp.err x <> None) r.
Proof.
  unfold Run_stop. rewrite existsb_exists, Exists_exists. split.
  - intros (x & Hin & Hx). exists x. split; [apply list_elem_of_In, Hin|].
    apply orb_true_iff in Hx. destruct Hx as [Hx|Hx]; [left; exact Hx|].
    right. apply bool_decide_eq_true in Hx. exact Hx.
  - intros (x & Hin & Hx). exists x. split; [apply list_elem_of_In, Hin|].
    apply orb_true_iff. destruct Hx as [Hx|Hx]; [left; exact Hx|].
    right. apply bool_decide_eq_true. exact Hx.
Qed.

Lemma set_whois_batch (f : HopResp.t -> Whois.t) (r : list HopResp.t) (P : HopResp.t -> Prop) :
  (forall x w, P x -> P (HopResp.set_whois x w)) ->
  Forall P r -> Forall P (map (fun x => HopResp.set_whois x (f x)) r).
Proof.
  intros HP Hall. induction Hall as [|x r Hx Hall IH]; cbn [map]; constructor; auto.
Qed.

Lemma set_whois_Exists (f : HopResp.t -> Whois.t) (r : list HopResp.t) (P : HopResp.t -> Prop) :
  (forall x w, P (HopResp.set_whois x w) -> P x) ->
  Exists P (map (fun x => HopResp.set_whois x (f x)) r) -> Exists P r.
Proof.
  intros HP. induction r as [|x r IH]; cbn [map]; intros Hex.
  - inversion Hex.
  - inversion Hex; subst; [left; eauto | right; auto].
Qed.

Lemma set_whois_same (r : list HopResp.t) :
  map (fun x => HopResp.set_whois x (HopResp.whois x)) r = r.
Proof.
  induction r as [|x r IH]; cbn [map]; [reflexivity|].
  rewrite IH. destruct x; reflexivity.
Qed.

(** The batches [Run_loop] sends, started at hop [h]. *)
Lemma Run_loop_spec (w : World) (retry : Z) (fuel : nat) :
  forall (i : Trace.t) (h : Z) (batches : list (list HopResp.t)) (closed : bool),
    Run_loop w fuel i h retry [] = (batches, closed) ->
    forall (k : nat) (b : list HopResp.t),
      batches !! k = Some b ->
      h + Z.of_nat k <= Trace.maxTTL i
      /\ Forall (fun x => HopResp.num x = h + Z.of_nat k) b
      /\ ((Forall (fun x => HopResp.err x = None) b /\ len b = Z.max 0 retry)
          \/ (exists pre x, b = pre ++ [x]
                /\ Forall (fun x => HopResp.err x = None) pre
                /\ HopResp.err x <> None /\ len b <= Z.max 0 retry))
      /\ (Exists (fun x => HopResp.last x = true \/ HopResp.err x <> None) b ->
          S k = Datatypes.length batches).
Proof.
  induction fuel as [|fuel IH]; intros i h batches closed; cbn [Run_loop].
  - intros [= <- <-] k b Hk. discriminate.
  - destruct (Z.leb_spec h (Trace.maxTTL i)) as [Hle|Hgt];
      [|intros [= <- <-] k b Hk; discriminate].
    destruct (Run_retries w (Z.to_nat retry) i h 0 retry []) as [[i1 r1]|] eqn:E;
      [|intros [= <- <-] k b Hk; discriminate].
    apply Run_retries_spec in E; [|lia].
    destruct E as (Hm & Hripe & new & Hr1 & Hnums & Hshape).
    cbn [app] in Hr1. subst new.
    assert (Hw : forall r2, (if Trace.ripe i1 then addWhois r1 else Done r1) = Done r2 ->
                 exists f, r2 = map (fun x => HopResp.set_whois x (f x)) r1).
    { intros r2. destruct (Trace.ripe i1); [apply addWhois_inv|].
      intros [= <-]. exists HopResp.whois. symmetry. apply set_whois_same. }
    destruct (if Trace.ripe i1 then addWhois r1 else Done r1) as [r2|];
      [|intros [= <- <-] k b Hk; discriminate].
    destruct (Hw r2 eq_refl) as [f ->]. clear Hw.
    set (r2 := map (fun x => HopResp.set_whois x (f x)) r1) in *.
    assert (Hnums2 : Forall (fun x => HopResp.num x = h) r2)
      by (apply set_whois_batch; [intros x v Hx; exact Hx | exact Hnums]).
    assert (Hshape2 :
      (Forall (fun x => HopResp.err x = None) r2 /\ len r2 = Z.max 0 retry)
      \/ (exists pre x, r2 = pre ++ [x]
            /\ Forall (fun x => HopResp.err x = None) pre
            /\ HopResp.err x <> None /\ len r2 <= Z.max 0 retry)).
    { assert (Hlen2 : len r2 = len r1) by (unfold len, r2; rewrite length_map; reflexivity).
      destruct Hshape as [[Hall Hlen] | (pre & x & Hpre & Hall & Hx & Hlen)].
      - left. split; [apply set_whois_batch; [intros y v Hy; exact Hy | exact Hall]|].
        rewrite Hlen2. unfold len. lia.
      - right. exists (map (fun x => HopResp.set_whois x (f x)) pre),
                      (HopResp.set_whois x (f x)).
        split; [unfold r2; rewrite Hpre, map_app; reflexivity|].
        split; [apply set_whois_batch; [intros y v Hy; exact Hy | exact Hall]|].
        split; [exact Hx|]. rewrite Hlen2. unfold len. lia. }
    destruct (Run_stop r2) eqn:Hstop.
    + intros [= <- <-] k b Hk. destruct k as [|k]; [|discriminate].
      injection Hk as <-. rewrite Z.add_0_r. auto.
    + destruct (Run_loop w fuel i1 (h + 1) retry (firstn 0 r2)) as [sent cl] eqn:Hrec.
      cbn [firstn] in Hrec. intros [= <- <-] k b Hk.
      destruct k as [|k].
      * injection Hk as <-. rewrite Z.add_0_r.
        split; [exact Hle|]. split; [exact Hnums2|]. split; [exact Hshape2|].
        intros Hex. apply Run_stop_Exists in Hex. congruence.
      * cbn in Hk. destruct (IH _ _ _ _ Hrec k b Hk) as (Hb & Hn & Hs & Hl).
        rewrite Hm in Hb. replace (h + Z.of_nat (S k)) with (h + 1 + Z.of_nat k) by lia.
        split; [exact Hb|]. split; [exact Hn|]. split; [exact Hs|].
        intros Hex. cbn [Datatypes.length]. f_equal. apply Hl, Hex.
Qed.

Lemma list_lookup_last_length {A} (l : list A) :
  l = [] \/ exists x, l !! (Datatypes.length l - 1)%nat = Some x.
Proof.
  destruct l as [|a l]; [left; reflexivity|]. right.
  apply lookup_lt_is_Some. cbn. lia.
Qed.

(** The batches [Run] sends. *)
Lemma Run_spec (i : Trace.t) (retry : Z) (w : World)
  (batches : list (list HopResp.t)) (closed : bool) (err : option error) :
  Run i retry w = (batches, closed, err) ->
  forall (k : nat) (b : list HopResp.t),
    batches !! k = Some b ->
    1 + Z.of_nat k <= Trace.maxTTL i
    /\ Forall (fun x => HopResp.num x = 1 + Z.of_nat k) b
    /\ ((Forall (fun x => HopResp.err x = None) b /\ len b = Z.max 0 retry)
        \/ (exists pre x, b = pre ++ [x]
              /\ Forall (fun x => HopResp.err x = None) pre
              /\ HopResp.err x <> None /\ len b <= Z.max 0 retry))
    /\ (Exists (fun x => HopResp.last x = true \/ HopResp.err x <> None) b ->
        S k = Datatypes.length batches).
Proof.
  unfold Run, Bind.
  destruct (bind_Socket w) as [fd|e]; [|intros [= <- <- <-] k b Hk; discriminate].
  destruct (bind_Bind w) as [e|].
  - destruct (_ =? _); intros [= <- <- <-] k b Hk; discriminate.
  - cbn [Trace.maxTTL Trace.set_fd].
    destruct (Run_loop _ _ _ _ _ _) as [sent cl] eqn:E. intros [= <- <- <-].
    exact (Run_loop_spec w retry _ _ _ _ _ E).
Qed.

(** C1: in a single-pass scan with a retry count [retry >= 0], at most
    [maxTTL] batches are sent; the batch sent at position [k] (counted
    from 0) is the batch of hop [k + 1], with [k + 1 <= maxTTL]; it holds
    exactly [retry] results, none with an error, or it ends at its first
    result with an error and holds at most [retry]; and a batch holding a
    result with [last] set or with an error is the last batch sent. *)
Theorem Run_batches (i : Trace.t) (retry : Z) (w : World)
  (batches : list (list HopResp.t)) (closed : bool) (err : option error) :
  0 <= retry ->
  Run i retry w = (batches, closed, err) ->
  len batches <= Z.max 0 (Trace.maxTTL i) /\
  forall (k : nat) (b : list HopResp.t),
    batches !! k = Some b ->
    1 + Z.of_nat k <= Trace.maxTTL i
    /\ Forall (fun x => HopResp.num x = 1 + Z.of_nat k) b
    /\ ((Forall (fun x => HopResp.err x = None) b /\ len b = retry)
        \/ (exists pre x, b = pre ++ [x]
              /\ Forall (fun x => HopResp.err x = None) pre
              /\ HopResp.err x <> None /\ len b <= retry))
    /\ (Exists (fun x => HopResp.last x = true \/ HopResp.err x <> None) b ->
        S k = Datatypes.length batches).
Proof.
  intros Hretry Hrun. pose proof (Run_spec _ _ _ _ _ _ Hrun) as Hall.
  rewrite Z.max_r in Hall by exact Hretry. split; [|exact Hall].
  destruct (list_lookup_last_length batches) as [Hnil | (b & Hb)].
  - rewrite Hnil. unfold len. cbn. lia.
  - destruct (Hall _ _ Hb) as (Hk & _). unfold len.
    assert (Datatypes.length batches <> 0%nat)
      by (intros E0; rewrite E0 in Hb; destruct batches; discriminate).
    lia.
Qed.

(** In a single-pass scan a result with [last] set has the largest hop
    number of the whole run. *)
Lemma Run_last_is_max (i : Trace.t) (retry : Z) (w : World)
  (batches : list (list HopResp.t)) (closed : bool) (err : option error)
  (x y : HopResp.t) :
  Run i retry w = (batches, closed, err) ->
  In x (concat batches) -> HopResp.last x = true ->
  In y (concat batches) -> HopResp.num y <= HopResp.num x.
Proof.
  intros Hrun Hx Hlast Hy. pose proof (Run_spec _ _ _ _ _ _ Hrun) as Hall.
  apply in_concat in Hx. destruct Hx as (bx & Hbx & Hx).
  apply in_concat in Hy. destruct Hy as (by_ & Hby & Hy).
  apply list_elem_of_In, list_elem_of_lookup in Hbx. destruct Hbx as [kx Hkx].
  apply list_elem_of_In, list_elem_of_lookup in Hby. destruct Hby as [ky Hky].
  destruct (Hall _ _ Hkx) as (_ & Hnx & _ & Hstop).
  destruct (Hall _ _ Hky) as (_ & Hny & _ & _).
  rewrite List.Forall_forall in Hnx, Hny.
  rewrite (Hnx _ Hx), (Hny _ Hy).
  assert (Hend : S kx = Datatypes.length batches).
  { apply Hstop. apply Exists_exists. exists x.
    split; [apply list_elem_of_In, Hx | left; exact Hlast]. }
  apply lookup_lt_Some in Hky. lia.
Qed.

End SinglePass.

(** ** Continuous scan *)

Section Continuous.
Context `{Externals}.

(** One pass stays under the bound it starts with, and can only lower it. *)
Lemma MRun_pass_bound (w : World) (fuel : nat) :
  forall (i : Trace.t) (h maxTTL : Z) (sent : list HopResp.t) (e : pass_end),
    MRun_pass w fuel i h maxTTL = (sent, e) ->
    Forall (fun x => HopResp.num x <= maxTTL) sent
    /\ forall i' m', e = PassDone i' m' ->
         m' <= maxTTL /\ Trace.maxTTL i' = Trace.maxTTL i
         /\ Trace.count i' = Trace.count i.
Proof.
  induction fuel as [|fuel IH]; intros i h maxTTL sent e; cbn [MRun_pass].
  - intros [= <- <-]. split; [constructor|]. intros i' m' [= <- <-]. auto with zarith.
  - destruct (Z.leb_spec h maxTTL) as [Hle|Hgt].
    2:{ intros [= <- <-]. split; [constructor|]. intros i' m' [= <- <-]. auto with zarith. }
    destruct (NextHop i h _) as [[[hop i1] pk]|] eqn:E.
    2:{ intros [= <- <-]. split; [constructor|]. intros i' m' [=]. }
    apply NextHop_inv in E. destruct E as [Hnum Hi1].
    set (hop' := match ASN_snapshot _ !! HopResp.ip hop with
                 | Some w0 => HopResp.set_whois hop w0 | None => hop end).
    assert (Hnum' : HopResp.num hop' = h)
      by (unfold hop'; destruct (_ !! _); exact Hnum).
    set (m1 := if HopResp.last hop' && (maxTTL =? Trace.maxTTL i1) then h else maxTTL).
    assert (Hm1 : m1 <= maxTTL) by (unfold m1; destruct (_ && _); lia).
    destruct (MRun_pass w fuel i1 (h + 1) m1) as [rest e1] eqn:Hrec.
    intros [= <- <-]. destruct (IH _ _ _ _ _ Hrec) as [Hrest Hend]. split.
    + constructor; [lia|]. eapply Forall_impl; [exact Hrest|]. cbn. intros; lia.
    + intros i' m' ->. destruct (Hend _ _ eq_refl) as (Hm & Ht & Hc).
      subst i1. cbn in Ht, Hc. split; [lia|]. split; assumption.
Qed.

Lemma MRun_pass_no_last (w : World) (fuel : nat) :
  forall (i : Trace.t) (h maxTTL : Z) (sent : list HopResp.t) (i' : Trace.t) (m' : Z),
    MRun_pass w fuel i h maxTTL = (sent, PassDone i' m') ->
    Forall (fun x => HopResp.last x = false) sent -> m' = maxTTL.
Proof.
  induction fuel as [|fuel IH]; intros i h maxTTL sent i' m'; cbn [MRun_pass].
  - intros [= <- <- <-] _. reflexivity.
  - destruct (h <=? maxTTL); [|intros [= <- <- <-] _; reflexivity].
    destruct (NextHop i h _) as [[[hop i1] pk]|]; [|discriminate].
    set (hop' := match ASN_snapshot _ !! HopResp.ip hop with
                 | Some w0 => HopResp.set_whois hop w0 | None => hop end).
    destruct (MRun_pass w fuel i1 (h + 1) _) as [rest e1] eqn:Hrec.
    intros [= <- ->] Hall. inversion Hall as [|? ? Hhop Hrest]; subst.
    rewrite Hhop in Hrec. cbn [andb] in Hrec. exact (IH _ _ _ _ _ _ Hrec Hrest).
Qed.

(** The first result with [last] set, found while the bound is still the
    configured one, bounds everything sent after it in the pass, and the
    bound the pass leaves. *)
Lemma MRun_pass_first_last (w : World) (fuel : nat) :
  forall (i : Trace.t) (h maxTTL : Z) (sent : list HopResp.t) (e : pass_end)
         (pre : list HopResp.t) (x : HopResp.t) (post : list HopResp.t),
    MRun_pass w fuel i h maxTTL = (sent, e) ->
    maxTTL = Trace.maxTTL i ->
    sent = pre ++ x :: post ->
    Forall (fun y => HopResp.last y = false) pre -> HopResp.last x = true ->
    Forall (fun y => HopResp.num y <= HopResp.num x) post
    /\ forall i' m', e = PassDone i' m' -> m' <= HopResp.num x.
Proof.
  induction fuel as [|fuel IH]; intros i h maxTTL sent e pre x post; cbn [MRun_pass].
  - intros [= <- <-] _ Hsplit. destruct pre; discriminate.
  - destruct (h <=? maxTTL); [|intros [= <- <-] _ Hsplit; destruct pre; discriminate].
    destruct (NextHop i h _) as [[[hop i1] pk]|] eqn:E;
      [|intros [= <- <-] _ Hsplit; destruct pre; discriminate].
    apply NextHop_inv in E. destruct E as [Hnum Hi1].
    set (hop' := match ASN_snapshot _ !! HopResp.ip hop with
                 | Some w0 => HopResp.set_whois hop w0 | None => hop end).
    assert (Hnum' : HopResp.num hop' = h)
      by (unfold hop'; destruct (_ !! _); exact Hnum).
    assert (Hmax : Trace.maxTTL i1 = Trace.maxTTL i) by (subst i1; reflexivity).
    destruct (MRun_pass w fuel i1 (h + 1) _) as [rest e1] eqn:Hrec.
    intros [= <- <-] Hcfg Hsplit Hpre Hx.
    destruct pre as [|p pre]; cbn [app] in Hsplit; injection Hsplit as -> ->.
    + rewrite Hx, Hmax, <- Hcfg, Z.eqb_refl in Hrec. cbn [andb] in Hrec.
      destruct (MRun_pass_bound _ _ _ _ _ _ _ Hrec) as [Hrest Hend].
      rewrite Hnum'. split; [exact Hrest|].
      intros i' m' ->. destruct (Hend _ _ eq_refl) as (Hm & _). exact Hm.
    + inversion Hpre as [|? ? Hp Hpre']; subst.
      rewrite Hp in Hrec. cbn [andb] in Hrec.
      eapply IH; [exact Hrec | cbn; congruence | reflexivity | assumption | assumption].
Qed.

Lemma MRun_loop_bound (w : World) (passes : nat) :
  forall (i : Trace.t) (maxTTL count : Z) (sent : list HopResp.t) (closed : bool),
    MRun_loop w passes i maxTTL count = (sent, closed) ->
    Forall (fun x => HopResp.num x <= maxTTL) sent.
Proof.
  induction passes as [|passes IH]; intros i maxTTL count sent closed; cbn [MRun_loop].
  - intros [= <- <-]. constructor.
  - destruct (MRun_pass w _ i 1 maxTTL) as [sent1 e] eqn:Hpass.
    destruct (MRun_pass_bound _ _ _ _ _ _ _ Hpass) as [H1 Hend].
    destruct e as [i1 m1|]; [|intros [= <- <-]; exact H1].
    destruct (_ && _); [intros [= <- <-]; exact H1|].
    destruct (MRun_loop w passes i1 m1 _) as [sent2 cl] eqn:Hrec.
    intros [= <- <-]. apply Forall_app. split; [exact H1|].
    destruct (Hend _ _ eq_refl) as (Hm & _).
    eapply Forall_impl; [exact (IH _ _ _ _ _ Hrec)|]. cbn. intros; lia.
Qed.

Lemma split_at_first (A : Type) (s1 s2 pre post : list A) (x : A) :
  s1 ++ s2 = pre ++ x :: post ->
  (exists post1, s1 = pre ++ x :: post1 /\ post = post1 ++ s2)
  \/ (exists pre2, pre = s1 ++ pre2 /\ s2 = pre2 ++ x :: post).
Proof.
  revert pre. induction s1 as [|a s1 IH]; intros pre Heq.
  - right. exists pre. split; [reflexivity | exact Heq].
  - destruct pre as [|p pre]; cbn [app] in Heq; injection Heq as -> Heq.
    + left. exists s1. split; [reflexivity | symmetry; exact Heq].
    + destruct (IH _ Heq) as [(post1 & -> & ->) | (pre2 & -> & ->)].
      * left. exists post1. split; reflexivity.
      * right. exists pre2. split; reflexivity.
Qed.

Lemma MRun_loop_first_last (w : World) (passes : nat) :
  forall (i : Trace.t) (maxTTL count : Z) (sent : list HopResp.t) (closed : bool)
         (pre : list HopResp.t) (x : HopResp.t) (post : list HopResp.t),
    MRun_loop w passes i maxTTL count = (sent, closed) ->
    maxTTL = Trace.maxTTL i ->
    sent = pre ++ x :: post ->
    Forall (fun y => HopResp.last y = false) pre -> HopResp.last x = true ->
    Forall (fun y => HopResp.num y <= HopResp.num x) post.
Proof.
  induction passes as [|passes IH]; intros i maxTTL count sent closed pre x post;
    cbn [MRun_loop].
  - intros [= <- <-] _ Hsplit. destruct pre; discriminate.
  - destruct (MRun_pass w _ i 1 maxTTL) as [sent1 e] eqn:Hpass.
    pose proof (fun pre x post =>
                  MRun_pass_first_last _ _ _ _ _ _ _ pre x post Hpass) as Hfirst.
    destruct (MRun_pass_bound _ _ _ _ _ _ _ Hpass) as [_ Hend].
    destruct e as [i1 m1|].
    2:{ intros [= <- <-] Hcfg Hsplit Hpre Hx.
        exact (proj1 (Hfirst _ _ _ Hcfg Hsplit Hpre Hx)). }
    destruct (_ && _).
    { intros [= <- <-] Hcfg Hsplit Hpre Hx.
      exact (proj1 (Hfirst _ _ _ Hcfg Hsplit Hpre Hx)). }
    destruct (MRun_loop w passes i1 m1 _) as [sent2 cl] eqn:Hrec.
    intros [= <- <-] Hcfg Hsplit Hpre Hx.
    destruct (Hend _ _ eq_refl) as (_ & Hmax & _).
    destruct (split_at_first _ _ _ _ _ _ Hsplit)
      as [(post1 & Hs1 & ->) | (pre2 & -> & Hs2)].
    + destruct (Hfirst _ _ _ Hcfg Hs1 Hpre Hx) as [Hpost1 Hm].
      apply Forall_app. split; [exact Hpost1|].
      specialize (Hm _ _ eq_refl).
      eapply Forall_impl; [exact (MRun_loop_bound _ _ _ _ _ _ _ Hrec)|].
      cbn. intros; lia.
    + apply Forall_app in Hpre. destruct Hpre as [Hp1 Hp2].
      pose proof (MRun_pass_no_last _ _ _ _ _ _ _ _ Hpass Hp1) as ->.
      eapply IH; [exact Hrec | congruence | exact Hs2 | exact Hp2 | exact Hx].
Qed.

End Continuous.

Section LastHop.
Context `{Externals}.

(** C4, amended: in a single-pass scan, no result sent after a result
    with [last] set has a larger hop number; in a continuous scan, no
    result sent after the first result with [last] set has a larger hop
    number than that first one. *)
Theorem last_bounds_later_results (i : Trace.t) (w : World) :
  (forall retry batches closed err pre x post,
      Run i retry w = (batches, closed, err) ->
      concat batches = pre ++ x :: post ->
      HopResp.last x = true ->
      Forall (fun y => HopResp.num y <= HopResp.num x) post)
  /\ (forall passes sent closed err pre x post,
        MRun i w passes = (sent, closed, err) ->
        sent = pre ++ x :: post ->
        Forall (fun y => HopResp.last y = false) pre ->
        HopResp.last x = true ->
        Forall (fun y => HopResp.num y <= HopResp.num x) post).
Proof.
  split.
  - intros retry batches closed err pre x post Hrun Hsplit Hlast.
    apply List.Forall_forall. intros y Hy.
    apply (Run_last_is_max _ _ _ _ _ _ x y Hrun); [|exact Hlast|];
      rewrite Hsplit; apply in_or_app; right; [left; reflexivity | right; exact Hy].
  - intros passes sent closed err pre x post. unfold MRun, Bind.
    destruct (bind_Socket w) as [fd|e];
      [|intros [= <- <- <-] Hsplit; destruct pre; discriminate].
    destruct (bind_Bind w) as [e|].
    + destruct (_ =? _); intros [= <- <- <-] Hsplit; destruct pre; discriminate.
    + cbn [Trace.maxTTL Trace.set_fd].
      destruct (MRun_loop _ _ _ _ _) as [sent1 cl] eqn:E. intros [= <- <- <-].
      eapply MRun_loop_first_last; [exact E | reflexivity].
Qed.

End LastHop.

Lemma Run_batches_witness :
  let run := Run (H := Fixture.host) (Examples.tracer true false false 52 30 (-1)) 3
               Examples.two_hops in
  len (fst (fst run)) <= Z.max 0 30 /\
  forall (k : nat) (b : list HopResp.t),
    fst (fst run) !! k = Some b ->
    1 + Z.of_nat k <= 30
    /\ Forall (fun x => HopResp.num x = 1 + Z.of_nat k) b
    /\ ((Forall (fun x => HopResp.err x = None) b /\ len b = 3)
        \/ (exists pre x, b = pre ++ [x]
              /\ Forall (fun x => HopResp.err x = None) pre
              /\ HopResp.err x <> None /\ len b <= 3))
    /\ (Exists (fun x => HopResp.last x = true \/ HopResp.err x <> None) b ->
        S k = Datatypes.length (fst (fst run))).
Proof.
  intros run.
  apply (Run_batches (H := Fixture.host) (Examples.tracer true false false 52 30 (-1)) 3
           Examples.two_hops (fst (fst run)) (snd (fst run)) (snd run)).
  - lia.
  - subst run. destruct (Run _ _ _) as [[batches closed] err]. reflexivity.
Defined.

Lemma last_bounds_later_results_witness :
  let d := HopResp.mk 0 EmptyString EmptyString f64_zero false None Whois.zero in
  let i := Examples.tracer true false false 52 30 (-1) in
  let single := concat (fst (fst (Run (H := Fixture.host) i 3 Examples.two_hops))) in
  let j := Examples.tracer true false false 52 3 2 in
  let continuous := fst (fst (MRun (H := Fixture.host) j Examples.route_change 5)) in
  Forall (fun y => HopResp.num y <= HopResp.num (nth 3 single d)) (skipn 4 single)
  /\ Forall (fun y => HopResp.num y <= HopResp.num (nth 1 continuous d))
            (skipn 2 continuous).
Proof.
  intros d i single j continuous. split.
  - destruct (last_bounds_later_results (H := Fixture.host) i Examples.two_hops)
      as [Hsingle _].
    apply (Hsingle 3
             (fst (fst (Run (H := Fixture.host) i 3 Examples.two_hops)))
             (snd (fst (Run (H := Fixture.host) i 3 Examples.two_hops)))
             (snd (Run (H := Fixture.host) i 3 Examples.two_hops))
             (firstn 3 single)).
    + destruct (Run i 3 Examples.two_hops) as [[batches closed] err]. reflexivity.
    + vm_compute. reflexivity.
    + vm_compute. reflexivity.
  - destruct (last_bounds_later_results (H := Fixture.host) j Examples.route_change)
      as [_ Hcontinuous].
    apply (Hcontinuous 5%nat continuous
             (snd (fst (MRun (H := Fixture.host) j Examples.route_change 5)))
             (snd (MRun (H := Fixture.host) j Examples.route_change 5))
             (firstn 1 continuous)).
    + unfold continuous.
      destruct (MRun j Examples.route_change 5) as [[sent closed] err]. reflexivity.
    + vm_compute. reflexivity.
    + vm_compute. repeat constructor.
    + vm_compute. reflexivity.
Defined.

(** C4 as stated fails in a continuous scan.  With [maxTTL] 3 and two
    passes, the target answers at hop 2 in the first pass, which lowers
    the bound to 2; after a route change it answers at hop 1 in the second
    pass, the bound stays at 2, and the result of hop 2 is sent after the
    result of hop 1 that has [last] set. *)
Lemma continuous_scan_passes_last_hop :
  let sent := fst (fst (MRun (H := Fixture.host)
                          (Examples.tracer true false false 52 3 2)
                          Examples.route_change 5)) in
  Examples.summary sent = [(1, false); (2, true); (1, true); (2, true)]
  /\ exists pre x y post,
       sent = pre ++ x :: y :: post
       /\ HopResp.last x = true /\ HopResp.num x < HopResp.num y.
Proof.
  vm_compute. split; [reflexivity|].
  eexists [_; _], _, _, []. split; [reflexivity|]. split; reflexivity.
Qed.

(** ** Result formatter *)

Lemma string_app_assoc (a b c : string) :
  ((a ++ b) ++ c = a ++ (b ++ c))%string.
Proof.
  induction a as [|x a IH]; [reflexivity|].
  change (String x ((a ++ b) ++ c) = String x (a ++ (b ++ c)))%string.
  f_equal. exact IH.
Qed.

Lemma string_app_inv_head (a b c : string) :
  (a ++ b = a ++ c)%string -> b = c.
Proof.
  induction a as [|x a IH]; [auto|].
  change (String x (a ++ b) = String x (a ++ c) -> b = c)%string.
  intros [= E]. auto.
Qed.

(** The example value is the [float64] nearest to 12.345: its distance to
    12345 / 1000 is at most half a unit in the last place, 2^-50. *)
Lemma hop5_elapsed :
  HopResp.elapsed Examples.hop5 = S754_finite false 6949617174986097 (-49)
  /\ 2 * Z.abs (1000 * 6949617174986097 - 12345 * 2 ^ 49) <= 1000.
Proof. split; [reflexivity | vm_compute; discriminate]. Qed.

(** C7, amended: for every result [Marshal] prints the fields in the
    layout of the specification except that the key IP is followed by a
    space before its colon, so that it never equals the line of the
    specification; for the result of the scenario it prints that line with
    Elapsed 12.345 and ASN 64500. *)
Theorem Marshal_layout :
  (forall h : HopResp.t,
      let q := Fmt.dq in
      let pre := ("{ " ++ q ++ "Id" ++ q ++ ": " ++ Fmt.d (HopResp.num h)
                  ++ ", " ++ q ++ "Hop" ++ q ++ ": " ++ q ++ HopResp.hop h ++ q
                  ++ ", " ++ q ++ "IP" ++ q)%string in
      let suf := (q ++ HopResp.ip h ++ q
                  ++ ", " ++ q ++ "Elapsed" ++ q ++ ": " ++ Fmt.f 3 (HopResp.elapsed h)
                  ++ ", " ++ q ++ "Holder" ++ q ++ ": " ++ q
                  ++ Whois.holder (HopResp.whois h) ++ q
                  ++ ", " ++ q ++ "ASN" ++ q ++ ": "
                  ++ Fmt.f 0 (Whois.asn (HopResp.whois h))
                  ++ ", " ++ q ++ "Last" ++ q ++ ": " ++ Fmt.t (HopResp.last h)
                  ++ " }")%string in
      Marshal h = (pre ++ " : " ++ suf)%string
      /\ json_line h = (pre ++ ": " ++ suf)%string
      /\ Marshal h <> json_line h)
  /\ Marshal Examples.hop5 = Examples.hop5_Marshal.
Proof.
  split; [|reflexivity].
  intros h q pre suf.
  assert (HM : Marshal h = (pre ++ " : " ++ suf)%string).
  { unfold Marshal, pre, suf. fold q. repeat rewrite string_app_assoc. reflexivity. }
  assert (HJ : json_line h = (pre ++ ": " ++ suf)%string).
  { unfold json_line, pre, suf. fold q. repeat rewrite string_app_assoc. reflexivity. }
  split; [exact HM|]. split; [exact HJ|].
  rewrite HM, HJ. intros E. apply string_app_inv_head in E. discriminate E.
Qed.

(** C7 as stated fails: for the result of the scenario [Marshal] does not
    print the line in the layout of the specification. *)
Lemma Marshal_is_not_the_json_line :
  Marshal Examples.hop5 <> Examples.hop5_json_line
  /\ json_line Examples.hop5 = Examples.hop5_json_line.
Proof. split; [vm_compute; discriminate | reflexivity]. Qed.

(** ** Origin-AS lookup *)

Section OriginAS.
Context `{Externals}.

(** For an address [net.ParseCIDR] accepts with the suffix /24, the
    resource queried is the address as given. *)
Lemma whois_resource_parsed (ip : string) (n : IP * (IP * list byte)) :
  ParseCIDR (ip ++ "/24") = Some n -> whois_resource ip = ip.
Proof. intros Hp. unfold whois_resource. rewrite Hp. reflexivity. Qed.

Lemma whois_records_done (recs : list JVal) :
  Forall (fun h => exists m s f, h = JObj m /\ assoc "holder" m = JStr s
                                 /\ assoc "asn" m = JNum f) recs ->
  forall resp, exists resp',
    fold_left (fun acc h => do! resp <- acc; whois_record resp h) recs (Done resp)
    = Done resp'.
Proof.
  induction 1 as [|h recs (m & s & f & -> & Hs & Hf) _ IH]; intros resp; cbn [fold_left].
  - eauto.
  - cbn [obind whois_record]. rewrite Hs, Hf. apply IH.
Qed.

(** C8, amended: when the reply to the query holds a non-empty asns array
    of records with a string holder and a numeric asn, [whois] returns the
    holder and asn of the last record of the array, each record
    overwriting the one before. *)
Theorem whois_last_record (ip : string) (data : list (string * JVal))
  (recs : list JVal) (m : list (string * JVal)) (s : string) (f : float64) :
  assoc "data" (ripe_Data (whois_resource ip)) = JObj data ->
  assoc "asns" data = JArr (recs ++ [JObj m]) ->
  Forall (fun h => exists m' s' f', h = JObj m' /\ assoc "holder" m' = JStr s'
                                    /\ assoc "asn" m' = JNum f') recs ->
  assoc "holder" m = JStr s -> assoc "asn" m = JNum f ->
  whois ip = Done (Whois.mk s f, None).
Proof.
  intros Hdata Hasns Hrecs Hs Hf. unfold whois. rewrite Hdata, Hasns.
  rewrite fold_left_app. cbn [fold_left].
  destruct (whois_records_done recs Hrecs Whois.zero) as [resp' ->].
  cbn [obind whois_record]. rewrite Hs, Hf. reflexivity.
Qed.

End OriginAS.

Lemma whois_last_record_witness :
  whois (H := Fixture.host) "198.51.100.7"
  = Done (Whois.mk "EXAMPLE-TWO" (f64_of_Z 64501), None).
Proof.
  apply (whois_last_record (H := Fixture.host) "198.51.100.7"
           [("asns", JArr [Fixture.asn_record "EXAMPLE-ONE" 64500;
                           Fixture.asn_record "EXAMPLE-TWO" 64501])]
           [Fixture.asn_record "EXAMPLE-ONE" 64500]
           [("holder", JStr "EXAMPLE-TWO"); ("asn", JNum (f64_of_Z 64501))]).
  - reflexivity.
  - reflexivity.
  - repeat constructor. eexists _, _, _. split; [reflexivity|]. split; reflexivity.
  - reflexivity.
  - reflexivity.
Defined.

(** C8 as stated fails: for the router 198.51.100.7 the service is
    queried for the address itself and not for 198.51.100.0/24, and of the
    two records of the reply the second one fills the result, not the
    first. *)
Lemma whois_queries_address_keeps_last :
  whois_resource (H := Fixture.host) "198.51.100.7" = "198.51.100.7"
  /\ Fixture.IPNet_String_v4 (snd <$> Fixture.ParseCIDR_v4 "198.51.100.7/24")
     = "198.51.100.0/24"
  /\ assoc "asns" [("asns", JArr [Fixture.asn_record "EXAMPLE-ONE" 64500;
                                  Fixture.asn_record "EXAMPLE-TWO" 64501])]
     = JArr [Fixture.asn_record "EXAMPLE-ONE" 64500; Fixture.asn_record "EXAMPLE-TWO" 64501]
  /\ whois (H := Fixture.host) "198.51.100.7"
     = Done (Whois.mk "EXAMPLE-TWO" (f64_of_Z 64501), None)
  /\ whois (H := Fixture.host) "198.51.100.7"
     <> Done (Whois.mk "EXAMPLE-ONE" (f64_of_Z 64500), None).
Proof. vm_compute. repeat split; discriminate. Qed.


(** ** The loops run to their end

    The recursions on a count stand for [for] loops; the count each caller
    passes is enough for the loop to reach its exit test. *)

Section Fuel.
Context `{Externals}.

Lemma Run_retries_fuel (w : World) (h retry : Z) (fuel : nat) :
  forall (fuel' : nat) (i : Trace.t) (n : Z) (r : list HopResp.t),
    Z.max 0 (retry - n) <= Z.of_nat fuel ->
    Z.max 0 (retry - n) <= Z.of_nat fuel' ->
    Run_retries w fuel i h n retry r = Run_retries w fuel' i h n retry r.
Proof.
  induction fuel as [|fuel IH]; intros fuel' i n r Hf Hf'.
  - destruct fuel' as [|fuel']; cbn [Run_retries]; [reflexivity|].
    destruct (Z.ltb_spec n retry); [lia | reflexivity].
  - destruct fuel' as [|fuel']; cbn [Run_retries].
    + destruct (Z.ltb_spec n retry); [lia | reflexivity].
    + destruct (Z.ltb_spec n retry); [|reflexivity].
      destruct (NextHop i h _) as [[[hop i1] pk]|]; cbn [obind]; [|reflexivity].
      destruct (bool_decide _); [reflexivity|]. apply IH; lia.
Qed.

Lemma Run_loop_fuel (w : World) (retry : Z) (fuel : nat) :
  forall (fuel' : nat) (i : Trace.t) (h : Z) (r : list HopResp.t),
    Z.max 0 (Trace.maxTTL i - h + 1) <= Z.of_nat fuel ->
    Z.max 0 (Trace.maxTTL i - h + 1) <= Z.of_nat fuel' ->
    Run_loop w fuel i h retry r = Run_loop w fuel' i h retry r.
Proof.
  induction fuel as [|fuel IH]; intros fuel' i h r Hf Hf'.
  - destruct fuel' as [|fuel']; cbn [Run_loop]; [reflexivity|].
    destruct (Z.leb_spec h (Trace.maxTTL i)); [lia | reflexivity].
  - destruct fuel' as [|fuel']; cbn [Run_loop].
    + destruct (Z.leb_spec h (Trace.maxTTL i)); [lia | reflexivity].
    + destruct (Z.leb_spec h (Trace.maxTTL i)); [|reflexivity].
      destruct (Run_retries w _ i h 0 retry r) as [[i1 r1]|] eqn:E; [|reflexivity].
      apply Run_retries_spec in E; [|lia]. destruct E as (Hm & _).
      destruct (if Trace.ripe i1 then _ else _) as [r2|]; [|reflexivity].
      destruct (Run_stop r2); [reflexivity|].
      rewrite (IH fuel' i1 (h + 1) (firstn 0 r2)) by (rewrite Hm; lia). reflexivity.
Qed.

Lemma MRun_pass_fuel (w : World) (fuel : nat) :
  forall (fuel' : nat) (i : Trace.t) (h maxTTL : Z),
    Z.max 0 (maxTTL - h + 1) <= Z.of_nat fuel ->
    Z.max 0 (maxTTL - h + 1) <= Z.of_nat fuel' ->
    MRun_pass w fuel i h maxTTL = MRun_pass w fuel' i h maxTTL.
Proof.
  induction fuel as [|fuel IH]; intros fuel' i h maxTTL Hf Hf'.
  - destruct fuel' as [|fuel']; cbn [MRun_pass]; [reflexivity|].
    destruct (Z.leb_spec h maxTTL); [lia | reflexivity].
  - destruct fuel' as [|fuel']; cbn [MRun_pass].
    + destruct (Z.leb_spec h maxTTL); [lia | reflexivity].
    + destruct (Z.leb_spec h maxTTL); [|reflexivity].
      destruct (NextHop i h _) as [[[hop i1] pk]|]; [|reflexivity].
      rewrite (IH fuel') by (destruct (_ && _); lia). reflexivity.
Qed.

End Fuel.

(** ** Decimal formatting *)

(** The digits printed for a binary value are those of the nearest
    multiple of 10^-prec: the error is at most half a unit of the last
    digit printed, and none when the value is an integer. *)
Lemma scaled_round_nearest (m : positive) (e : Z) (prec : nat) :
  (0 <= e -> Fmt.scaled_round m e prec = Z.pos m * 10 ^ Z.of_nat prec * 2 ^ e)
  /\ (e < 0 ->
      2 * Z.abs (Fmt.scaled_round m e prec * 2 ^ (- e) - Z.pos m * 10 ^ Z.of_nat prec)
      <= 2 ^ (- e)).
Proof.
  unfold Fmt.scaled_round. split; intros He.
  - destruct (Z.leb_spec 0 e); [reflexivity | lia].
  - destruct (Z.leb_spec 0 e); [lia|].
    set (num := Z.pos m * 10 ^ Z.of_nat prec).
    set (den := 2 ^ (- e)).
    assert (Hden : 0 < den) by (apply Z.pow_pos_nonneg; lia).
    pose proof (Z.div_mod num den ltac:(lia)) as Hdm.
    pose proof (Z.mod_pos_bound num den Hden) as Hr.
    destruct (Z.ltb_spec (2 * (num mod den)) den); [nia|].
    destruct (Z.ltb_spec den (2 * (num mod den))); [nia|].
    destruct (Z.even (num / den)); nia.
Qed.

(** ** Verification of the checksum *)

Lemma be_words_app_even (n : nat) :
  forall (l1 l2 : list byte),
    Datatypes.length l1 = (2 * n)%nat ->
    be_words (l1 ++ l2) = be_words l1 ++ be_words l2.
Proof.
  induction n as [|n IH]; intros l1 l2 Hlen.
  - destruct l1; [reflexivity | discriminate].
  - destruct l1 as [|a [|b l1]]; cbn in Hlen; try lia.
    change ((a :: b :: l1) ++ l2) with (a :: b :: (l1 ++ l2)).
    cbn [be_words app]. rewrite IH by lia. reflexivity.
Qed.

Lemma be_words_nonneg (n : nat) (data : list byte) :
  Datatypes.length data = (2 * n)%nat -> 0 <= fold_right Z.add 0 (be_words data).
Proof. intros Hlen. apply (be_words_total_range n data Hlen). Qed.

Lemma be_words_positive (n : nat) :
  forall (data : list byte) (b : byte),
    Datatypes.length data = (2 * n)%nat -> In b data -> b <> x00 ->
    0 < fold_right Z.add 0 (be_words data).
Proof.
  induction n as [|n IH]; intros data b Hlen Hin Hb.
  - destruct data; [destruct Hin | discriminate].
  - destruct data as [|x [|y data]]; cbn in Hlen; try lia.
    cbn [be_words fold_right].
    pose proof (Zb_range x) as Hx. pose proof (Zb_range y) as Hy.
    pose proof (be_words_nonneg n data ltac:(lia)) as Hrest.
    rewrite Z.shiftl_mul_pow2 by lia. change (2 ^ 8) with 256.
    destruct Hin as [<- | [<- | Hin]].
    + assert (Zb x <> 0) by (intros E; apply Hb, Zb_zero, E). lia.
    + assert (Zb y <> 0) by (intros E; apply Hb, Zb_zero, E). lia.
    + pose proof (IH data b ltac:(lia) Hin Hb). lia.
Qed.

Lemma fold_carries_positive (n : nat) : forall s, 0 < s -> 0 < fold_carries n s.
Proof.
  induction n as [|n IH]; intros s Hs; cbn [fold_carries]; [exact Hs|].
  destruct (Z.shiftr s 16 >? 0) eqn:E; [|exact Hs].
  apply IH. apply Z.gtb_lt in E.
  destruct (fold_carries_step s ltac:(lia)) as [_ Hq].
  change 65535 with (Z.ones 16). rewrite Z.land_ones by lia.
  pose proof (Z.mod_pos_bound s (2 ^ 16) ltac:(reflexivity)). lia.
Qed.

Lemma lxor_65535 (s : Z) : 0 <= s < 2 ^ 16 -> Z.lxor s 65535 = 65535 - s.
Proof.
  intros Hs. rewrite <- uint16_lnot by exact Hs. unfold uint16, Z.lnot.
  change (2 ^ 16) with 65536 in *.
  replace (Z.pred (- s)) with (65535 - s + (-1) * 65536) by lia.
  rewrite Z.mod_add by lia. apply Z.mod_small. lia.
Qed.

Lemma word_of_be16 (c : Z) :
  0 <= c < 2 ^ 16 ->
  Z.shiftl (Zb (byte_of (Z.shiftr c 8))) 8 + Zb (byte_of c) = c.
Proof.
  intros Hc. rewrite !Zb_byte_of.
  rewrite Z.shiftr_div_pow2, Z.shiftl_mul_pow2 by lia.
  change (2 ^ 16) with 65536 in *. change (2 ^ 8) with 256.
  rewrite (Z.mod_small (c / 256) 256)
    by (split; [apply Z.div_pos; lia | apply Z.div_lt_upper_bound; lia]).
  pose proof (Z.div_mod c 256 ltac:(lia)). lia.
Qed.

Lemma checkSum_range (n : nat) (data : list byte) :
  Datatypes.length data = (2 * n)%nat -> 0 <= checkSum data < 2 ^ 16.
Proof.
  intros Hlen. rewrite (checkSum_even n data Hlen).
  assert (Hf : 0 <= fold_carries 2 (uint32 (fold_right Z.add 0 (be_words data))) < 2 ^ 16).
  { apply fold_carries_done. unfold uint32. apply Z.mod_pos_bound. reflexivity. }
  rewrite lxor_65535 by exact Hf. change (2 ^ 16) with 65536 in *. lia.
Qed.

Lemma checkSum_fills_to_zero (n m : nat) (pre post : list byte) (b : byte) :
  Datatypes.length pre = (2 * n)%nat -> Datatypes.length post = (2 * m)%nat ->
  len (pre ++ [x00; x00] ++ post) < 2 ^ 17 ->
  In b (pre ++ post) -> b <> x00 ->
  let c := checkSum (pre ++ [x00; x00] ++ post) in
  checkSum (pre ++ [byte_of (Z.shiftr c 8); byte_of c] ++ post) = 0.
Proof.
  intros Hpre Hpost Hshort Hin Hb c.
  assert (Hlen0 : Datatypes.length (pre ++ [x00; x00] ++ post) = (2 * (n + 1 + m))%nat)
    by (rewrite !length_app; cbn [Datatypes.length]; lia).
  assert (Hlen1 : Datatypes.length (pre ++ [byte_of (Z.shiftr c 8); byte_of c] ++ post)
                  = (2 * (n + 1 + m))%nat)
    by (rewrite !length_app; cbn [Datatypes.length]; lia).
  pose proof (checkSum_range _ _ Hlen0) as Hc. fold c in Hc.
  set (S0 := fold_right Z.add 0 (be_words pre) + fold_right Z.add 0 (be_words post)).
  assert (HS0 : fold_right Z.add 0 (be_words (pre ++ [x00; x00] ++ post)) = S0).
  { rewrite (be_words_app_even n) by exact Hpre. rewrite fold_right_add_app.
    change ([x00; x00] ++ post) with (x00 :: x00 :: post). cbn [be_words fold_right].
    change (Z.shiftl (Zb x00) 8 + Zb x00) with 0. unfold S0. lia. }
  assert (HS1 : fold_right Z.add 0
                  (be_words (pre ++ [byte_of (Z.shiftr c 8); byte_of c] ++ post)) = S0 + c).
  { rewrite (be_words_app_even n) by exact Hpre. rewrite fold_right_add_app.
    cbn [app be_words fold_right]. rewrite word_of_be16 by exact Hc. unfold S0. lia. }
  assert (Hpos : 0 < S0).
  { pose proof (be_words_nonneg n pre Hpre). pose proof (be_words_nonneg m post Hpost).
    apply in_app_or in Hin. destruct Hin as [Hin|Hin].
    - pose proof (be_words_positive n pre b Hpre Hin Hb). unfold S0. lia.
    - pose proof (be_words_positive m post b Hpost Hin Hb). unfold S0. lia. }
  assert (Hbound : S0 <= 65535 * 65535).
  { pose proof (be_words_total_range _ _ Hlen0) as Ht. rewrite HS0 in Ht.
    unfold len in Hshort. rewrite Hlen0 in Hshort.
    change (2 ^ 17) with 131072 in Hshort. nia. }
  assert (Hc0 : c = 65535 - fold_carries 2 S0).
  { unfold c. rewrite (checkSum_even _ _ Hlen0), HS0.
    rewrite uint32_small by (change (2 ^ 32) with 4294967296; lia).
    apply lxor_65535. apply fold_carries_done. change (2 ^ 32) with 4294967296. lia. }
  rewrite (checkSum_even _ _ Hlen1), HS1.
  change (2 ^ 16) with 65536 in Hc.
  rewrite uint32_small by (change (2 ^ 32) with 4294967296; lia).
  assert (Hf : 0 <= fold_carries 2 (S0 + c) < 2 ^ 16)
    by (apply fold_carries_done; change (2 ^ 32) with 4294967296; lia).
  assert (Hm : fold_carries 2 (S0 + c) mod 65535 = 0).
  { rewrite fold_carries_mod by lia. rewrite Hc0.
    pose proof (fold_carries_mod 2 S0 ltac:(lia)) as Hmod.
    pose proof (fold_carries_done S0 ltac:(change (2 ^ 32) with 4294967296; lia)) as Hd.
    replace (S0 + (65535 - fold_carries 2 S0)) with (S0 - fold_carries 2 S0 + 1 * 65535) by lia.
    rewrite Z.mod_add by lia.
    rewrite Zminus_mod, Hmod, Z.sub_diag. reflexivity. }
  pose proof (fold_carries_positive 2 (S0 + c) ltac:(lia)) as Hp.
  assert (Hv : fold_carries 2 (S0 + c) = 65535).
  { change (2 ^ 16) with 65536 in Hf.
    revert Hm Hf Hp. generalize (fold_carries 2 (S0 + c)). intros z Hm Hf Hp.
    Z.div_mod_to_equations. lia. }
  rewrite Hv. reflexivity.
Qed.

(** A message with an even number of bytes, not all zero, whose checksum
    field (two zero bytes at an even offset) is filled with [checkSum] of
    the message sums to zero: the checksum of the result is 0.  The value
    filled in is never 0xffff. *)
Theorem checkSum_verifies (n m : nat) (pre post : list byte) (b : byte) :
  Datatypes.length pre = (2 * n)%nat -> Datatypes.length post = (2 * m)%nat ->
  len (pre ++ [x00; x00] ++ post) < 2 ^ 17 ->
  In b (pre ++ post) -> b <> x00 ->
  let c := checkSum (pre ++ [x00; x00] ++ post) in
  0 <= c < 65535
  /\ checkSum (pre ++ [byte_of (Z.shiftr c 8); byte_of c] ++ post) = 0.
Proof.
  intros Hpre Hpost Hshort Hin Hb c.
  split; [|exact (checkSum_fills_to_zero n m pre post b Hpre Hpost Hshort Hin Hb)].
  assert (Hlen0 : Datatypes.length (pre ++ [x00; x00] ++ post) = (2 * (n + 1 + m))%nat)
    by (rewrite !length_app; cbn [Datatypes.length]; lia).
  assert (Hin0 : In b (pre ++ [x00; x00] ++ post)).
  { apply in_app_or in Hin. apply in_or_app.
    destruct Hin as [Hin|Hin]; [left; exact Hin | right; right; right; exact Hin]. }
  pose proof (be_words_positive _ _ b Hlen0 Hin0 Hb) as Hpos.
  pose proof (be_words_total_range _ _ Hlen0) as Ht.
  unfold len in Hshort. rewrite Hlen0 in Hshort. change (2 ^ 17) with 131072 in Hshort.
  unfold c. rewrite (checkSum_even _ _ Hlen0).
  set (S0 := fold_right Z.add 0 (be_words (pre ++ [x00; x00] ++ post))) in *.
  assert (Hsmall : 0 <= S0 < 2 ^ 32) by (change (2 ^ 32) with 4294967296; nia).
  rewrite uint32_small by exact Hsmall.
  pose proof (fold_carries_done S0 Hsmall) as Hd.
  pose proof (fold_carries_positive 2 S0 Hpos) as Hp.
  rewrite lxor_65535 by exact Hd. change (2 ^ 16) with 65536 in Hd. lia.
Qed.

Lemma checkSum_verifies_witness :
  let c := checkSum ([x45; x00] ++ [x00; x00] ++ [x00; x1c]) in
  0 <= c < 65535
  /\ checkSum ([x45; x00] ++ [byte_of (Z.shiftr c 8); byte_of c] ++ [x00; x1c]) = 0.
Proof.
  apply (checkSum_verifies 1 1 [x45; x00] [x00; x1c] x45).
  - reflexivity.
  - reflexivity.
  - vm_compute. reflexivity.
  - left. reflexivity.
  - discriminate.
Defined.

(** [setTCPCheckSum] writes bytes 16 and 17 of the header, high byte
    first, and nothing else. *)
Lemma setTCPCheckSum_bytes (src dst pre post : list byte) (x y : byte) :
  Datatypes.length pre = 16%nat ->
  let tcpHeader := pre ++ [x; y] ++ post in
  let c := checkSum (src ++ dst ++ [x00; x06] ++ be16 (len tcpHeader) ++ tcpHeader) in
  setTCPCheckSum src dst tcpHeader
  = Some (pre ++ [byte_of (Z.shiftr c 8); byte_of c] ++ post).
Proof.
  intros Hpre tcpHeader c. unfold setTCPCheckSum.
  assert (Hlen : len tcpHeader = 18 + len post).
  { unfold tcpHeader, len. rewrite !length_app, Hpre. cbn [Datatypes.length]. lia. }
  pose proof (len_nonneg post).
  destruct (Z.leb_spec (len tcpHeader) 17) as [Hle|_]; [lia|].
  f_equal.
  assert (Hhdr : (((src ++ dst) ++ be8 0) ++ be8 6) ++ be16 (uint16 (len tcpHeader))
                 = src ++ dst ++ [x00; x06] ++ be16 (len tcpHeader)).
  { rewrite <- !app_assoc. unfold be16. unfold uint16. rewrite Z.mod_mod by lia.
    reflexivity. }
  rewrite Hhdr. rewrite <- !app_assoc. fold c.
  unfold tcpHeader.
  rewrite (insert_app_r_alt pre) by lia. rewrite Hpre.
  rewrite (insert_app_r_alt pre) by lia.
  rewrite Hpre. reflexivity.
Qed.

Lemma setTCPCheckSum_length (src dst tcpHeader h : list byte) :
  setTCPCheckSum src dst tcpHeader = Some h ->
  Datatypes.length h = Datatypes.length tcpHeader.
Proof.
  unfold setTCPCheckSum. destruct (len tcpHeader <=? 17); [discriminate|].
  intros [= <-]. rewrite !length_insert. reflexivity.
Qed.

(** [setTCPCheckSum] panics exactly on headers of fewer than 18 bytes;
    otherwise the header keeps its length and every byte other than bytes
    16 and 17. *)
Theorem setTCPCheckSum_in_place (src dst tcpHeader : list byte) :
  (setTCPCheckSum src dst tcpHeader = None <-> len tcpHeader <= 17)
  /\ forall h, setTCPCheckSum src dst tcpHeader = Some h ->
       Datatypes.length h = Datatypes.length tcpHeader
       /\ forall k : nat, k <> 16%nat -> k <> 17%nat -> h !! k = tcpHeader !! k.
Proof.
  unfold setTCPCheckSum. destruct (Z.leb_spec (len tcpHeader) 17) as [Hle|Hgt].
  - split; [tauto | discriminate].
  - split; [split; [discriminate | lia]|].
    intros h [= <-]. split; [rewrite !length_insert; reflexivity|].
    intros k H16 H17. rewrite !list_lookup_insert_ne by lia. reflexivity.
Qed.

Lemma setTCPCheckSum_fills_to_zero (k m : nat) (src dst pre post : list byte) :
  Datatypes.length (src ++ dst) = (2 * k)%nat ->
  Datatypes.length pre = 16%nat -> Datatypes.length post = (2 * m)%nat ->
  len (src ++ dst) + len post < 2 ^ 16 ->
  let tcpHeader := pre ++ [x00; x00] ++ post in
  exists h,
    setTCPCheckSum src dst tcpHeader = Some h
    /\ checkSum (src ++ dst ++ [x00; x06] ++ be16 (len tcpHeader) ++ h) = 0.
Proof.
  intros Haddr Hpre Hpost Hshort tcpHeader.
  pose proof (setTCPCheckSum_bytes src dst pre post x00 x00 Hpre) as Hset.
  cbv zeta in Hset. fold tcpHeader in Hset. eexists. split; [exact Hset|].
  set (pseudo := src ++ dst ++ [x00; x06] ++ be16 (len tcpHeader)).
  assert (Hps : Datatypes.length (pseudo ++ pre) = (2 * (k + 10))%nat).
  { unfold pseudo. rewrite length_app in Haddr.
    rewrite !length_app, Hpre, length_be16. cbn [Datatypes.length]. lia. }
  pose proof (checkSum_fills_to_zero (k + 10) m (pseudo ++ pre) post x06 Hps Hpost) as Hv.
  cbv zeta in Hv. unfold pseudo in Hv |- *. unfold tcpHeader in Hv |- *.
  rewrite <- !app_assoc in Hv. rewrite <- ?app_assoc.
  apply Hv.
  - unfold len in *. rewrite !length_app in *. rewrite length_be16, Hpre.
    cbn [Datatypes.length]. change (2 ^ 16) with 65536 in Hshort.
    change (2 ^ 17) with 131072. lia.
  - apply in_or_app. right. apply in_or_app. right. right. left. reflexivity.
  - discriminate.
Qed.

(** A TCP header with a zero checksum field, an even number of bytes and
    addresses of even total length verifies after [setTCPCheckSum]: the
    checksum over pseudo-header and segment is 0, and the header differs
    from the one given in its checksum field only. *)
Theorem setTCPCheckSum_verifies (k m : nat) (src dst pre post : list byte) :
  Datatypes.length (src ++ dst) = (2 * k)%nat ->
  Datatypes.length pre = 16%nat -> Datatypes.length post = (2 * m)%nat ->
  len (src ++ dst) + len post < 2 ^ 16 ->
  let tcpHeader := pre ++ [x00; x00] ++ post in
  exists h,
    setTCPCheckSum src dst tcpHeader = Some h
    /\ checkSum (src ++ dst ++ [x00; x06] ++ be16 (len tcpHeader) ++ h) = 0
    /\ firstn 16 h = pre /\ skipn 18 h = post
    /\ Datatypes.length h = Datatypes.length tcpHeader.
Proof.
  intros Haddr Hpre Hpost Hshort tcpHeader.
  destruct (setTCPCheckSum_fills_to_zero k m src dst pre post Haddr Hpre Hpost Hshort)
    as (h & Hset & Hzero).
  exists h. split; [exact Hset|]. split; [exact Hzero|].
  pose proof (setTCPCheckSum_bytes src dst pre post x00 x00 Hpre) as Hb.
  cbv zeta in Hb. rewrite Hb in Hset. injection Hset as <-.
  split; [|split].
  - rewrite firstn_app, Hpre, Nat.sub_diag. cbn [firstn].
    rewrite app_nil_r. apply firstn_all2. lia.
  - rewrite skipn_app, Hpre. replace (18 - 16)%nat with 2%nat by lia.
    rewrite skipn_all2 by lia. reflexivity.
  - unfold tcpHeader. rewrite !length_app. reflexivity.
Qed.

Lemma setTCPCheckSum_verifies_witness :
  let tcpHeader := repeat x01 16 ++ [x00; x00] ++ [x02; x03] in
  exists h,
    setTCPCheckSum Examples.local Examples.target tcpHeader = Some h
    /\ checkSum (Examples.local ++ Examples.target ++ [x00; x06]
                 ++ be16 (len tcpHeader) ++ h) = 0
    /\ firstn 16 h = repeat x01 16 /\ skipn 18 h = [x02; x03]
    /\ Datatypes.length h = Datatypes.length tcpHeader.
Proof.
  apply (setTCPCheckSum_verifies 4 1 Examples.local Examples.target
           (repeat x01 16) [x02; x03]).
  - reflexivity.
  - reflexivity.
  - reflexivity.
  - vm_compute. reflexivity.
Defined.

Section TCPChecksum.
Context `{Externals}.

(** In TCP mode, with addresses of even total length, the segment
    [Sendv4] builds carries a checksum that verifies: the checksum over the
    pseudo-header (source, destination, zero, protocol 6, segment length)
    and the segment is 0. *)
Theorem tcp_probe_checksum_verifies (i : Trace.t) (seq rport : Z) (e : SendEnv)
  (k : nat) (b : list byte) :
  Trace.icmp i = false -> Trace.udp i = false -> Trace.tcp i = true ->
  Datatypes.length (Trace.src i ++ Trace.ip i) = (2 * k)%nat ->
  len (Trace.src i ++ Trace.ip i) < 2 ^ 15 ->
  Sendv4_probe i seq rport e = Done (6, b) ->
  checkSum (Trace.src i ++ Trace.ip i ++ [x00; x06] ++ be16 (len b) ++ b) = 0.
Proof.
  intros Hicmp Hudp Htcp Haddr Hshort. unfold Sendv4_probe.
  rewrite Hicmp, Hudp, Htcp.
  set (t := tcpMessage 0 33434 64 true (rand_Uint32 e) (Now_Unix e)).
  assert (Ht : t = firstn 16 t ++ [x00; x00] ++ skipn 18 t) by reflexivity.
  destruct (setTCPCheckSum_fills_to_zero k 13 (Trace.src i) (Trace.ip i)
              (firstn 16 t) (skipn 18 t) Haddr eq_refl eq_refl) as (h & Hset & Hsum).
  { change (len (skipn 18 t)) with 26. change (2 ^ 16) with 65536.
    change (2 ^ 15) with 32768 in Hshort. lia. }
  rewrite <- Ht in Hset, Hsum. rewrite Hset. cbn [of_option obind].
  intros [= <-].
  assert (Hlen : len h = len t).
  { unfold len. rewrite (setTCPCheckSum_length _ _ _ _ Hset). reflexivity. }
  rewrite Hlen. exact Hsum.
Qed.

End TCPChecksum.

Lemma tcp_probe_checksum_verifies_witness :
  match Sendv4_probe (H := Fixture.host) (Examples.tracer false false true 52 30 (-1))
          1 33434 Examples.sends with
  | Done (_, b) =>
      checkSum (Examples.local ++ Examples.target ++ [x00; x06] ++ be16 (len b) ++ b) = 0
  | Panicked => False
  end.
Proof.
  destruct (Sendv4_probe (H := Fixture.host) (Examples.tracer false false true 52 30 (-1))
              1 33434 Examples.sends) as [[p b]|] eqn:E.
  - assert (p = 6) as -> by (vm_compute in E; congruence).
    apply (tcp_probe_checksum_verifies (H := Fixture.host)
             (Examples.tracer false false true 52 30 (-1)) 1 33434 Examples.sends 4 b);
      try reflexivity.
    exact E.
  - vm_compute in E. discriminate.
Defined.

(** ** Layout of the probes *)

(** The TCP segment, byte for byte: ports, sequence number, zero
    acknowledgement, data offset 11 with the SYN flag alone, window 65535,
    zero checksum and urgent pointer, then the options MSS 1460, window
    scale 5, SACK-permitted followed by one byte beyond its declared length
    of 2, a timestamp holding the 8 bytes of the Unix time, the end of
    options, and 3 bytes of padding. *)
Lemma tcpMessage_layout (lport rport pSize : Z) (isIPv4 : bool) (rnd now : Z) :
  tcpMessage lport rport pSize isIPv4 rnd now
  = be16 lport ++ be16 rport ++ be32 rnd ++ [x00; x00; x00; x00]
    ++ [xb0; x02] ++ [xff; xff] ++ [x00; x00] ++ [x00; x00]
    ++ [x02; x04; x05; xb4] ++ [x03; x03; x05] ++ [x04; x02; x01]
    ++ [x08; x0a] ++ be64 now ++ [x00] ++ [x00; x00; x00].
Proof. reflexivity. Qed.

(** The UDP datagram for either family: the ports and the length are
    written modulo 2^16, the payload is zero bytes, and a packet size at or
    below the header overhead (28 for IPv4, 48 for IPv6) leaves the bare
    8-byte header. *)
Theorem udpMessage_fields (lport rport pSize : Z) (isIPv4 : bool) :
  - 2 ^ 62 <= pSize < 2 ^ 62 ->
  let payload := pSize - (if isIPv4 then 28 else 48) in
  let b := udpMessage lport rport pSize isIPv4 in
  get16 b 0 = lport mod 2 ^ 16 /\ get16 b 2 = rport mod 2 ^ 16
  /\ get16 b 4 = (8 + payload) mod 2 ^ 16 /\ get16 b 6 = 0
  /\ skipn 8 b = zeros payload
  /\ len b = 8 + Z.max 0 payload.
Proof.
  intros Hp payload b.
  assert (Hb : b = be16 lport ++ be16 rport ++ be16 (8 + payload) ++ be16 0 ++ zeros payload).
  { unfold b, udpMessage, payload. change (2 ^ 62) with 4611686018427387904 in Hp.
    destruct isIPv4.
    - rewrite !int_small by (change (2 ^ 63) with 9223372036854775808; lia).
      replace (pSize - (20 + 8)) with (pSize - 28) by lia.
      destruct (Z.gtb_spec (pSize - 28) 0) as [Hgt|Hle].
      + rewrite <- !app_assoc. reflexivity.
      + unfold zeros. rewrite Z2Nat.nonpos by lia. cbn [repeat].
        rewrite <- !app_assoc. reflexivity.
    - rewrite !int_small by (change (2 ^ 63) with 9223372036854775808; lia).
      replace (pSize - (40 + 8)) with (pSize - 48) by lia.
      destruct (Z.gtb_spec (pSize - 48) 0) as [Hgt|Hle].
      + rewrite <- !app_assoc. reflexivity.
      + unfold zeros. rewrite Z2Nat.nonpos by lia. cbn [repeat].
        rewrite <- !app_assoc. reflexivity. }
  rewrite Hb.
  destruct (udp_fields lport rport (8 + payload) (zeros payload))
    as (F0 & F2 & F4 & F6 & Fp & Fl).
  repeat split; try assumption.
  rewrite Fl. unfold len. rewrite length_zeros. lia.
Qed.

Lemma udpMessage_fields_witness :
  let payload := 1500 - 48 in
  let b := udpMessage 70000 33434 1500 false in
  get16 b 0 = 70000 mod 2 ^ 16 /\ get16 b 2 = 33434 mod 2 ^ 16
  /\ get16 b 4 = (8 + payload) mod 2 ^ 16 /\ get16 b 6 = 0
  /\ skipn 8 b = zeros payload
  /\ len b = 8 + Z.max 0 payload.
Proof.
  apply (udpMessage_fields 70000 33434 1500 false).
  vm_compute. split; [discriminate | reflexivity].
Defined.

(** ** What a probe does to the tracer and the wire *)

Section ProbeEffects.
Context `{Externals}.

Lemma Sendv4_probe_done (i : Trace.t) (seq rport : Z) (e : SendEnv) :
  exists proto b, Sendv4_probe i seq rport e = Done (proto, b).
Proof.
  unfold Sendv4_probe. destruct (Trace.icmp i); [eauto|].
  destruct (Trace.udp i); [eauto|]. destruct (Trace.tcp i); [|eauto].
  destruct (setTCPCheckSum_tcpMessage (Trace.src i) (Trace.ip i) 0 33434 64 true
              (rand_Uint32 e) (Now_Unix e)) as (b & -> & _).
  cbn [of_option obind]. eauto.
Qed.

Lemma Send_done (i : Trace.t) (port : Z) (e : SendEnv) :
  exists err pkts,
    Send i port e
    = Done (int (38840 + Trace.seq i), Trace.seq i, err,
            Trace.set_seq i (int (Trace.seq i + 1)), pkts)
    /\ (Datatypes.length pkts <= 1)%nat
    /\ (err <> None -> pkts = []).
Proof.
  unfold Send.
  destruct (if Trace.icmp _ && _ then _ else _) as [sotype proto0].
  destruct (Socket_err e _ sotype proto0) as [err|].
  { exists (Some err), []. cbn. auto. }
  destruct (IsIPv4 _).
  - unfold Sendv4.
    destruct (Sendv4_probe_done (Trace.set_seq i (int (Trace.seq i + 1)))
                (Trace.seq i) port e) as (proto & b & ->).
    cbn [obind].
    destruct (ListenPacket_err e proto) as [err|]; [exists (Some err), []; cbn; auto|].
    destruct (NewRawConn_err e) as [err|]; [exists (Some err), []; cbn; auto|].
    destruct (WriteTo_err e) as [err|]; [exists (Some err), []; cbn; auto|].
    eexists None, [_]. cbn. split; [reflexivity|]. split; [lia | congruence].
  - destruct (icmpV6Message _ _ _) as [m [err|]]; [exists (Some err), []; cbn; auto|].
    destruct (Sendto_err e) as [err|]; [exists (Some err), []; cbn; auto|].
    eexists None, [_]. cbn. split; [reflexivity|]. split; [lia | congruence].
Qed.

(** [NextHop] never panics.  It reports the hop it was given, advances
    [seq] by one and sets [ttl] to the hop, leaving the rest of the tracer
    as it was; it writes at most one packet; its result carries the zero
    [Whois]; and [err] is set exactly when the send failed, in which case
    nothing was written and the result is otherwise empty. *)
Theorem NextHop_effects (i : Trace.t) (hop : Z) (e : ProbeEnv) :
  exists r pkts,
    NextHop i hop e
    = Done (r, Trace.set_seq (Trace.set_ttl i hop) (int (Trace.seq i + 1)), pkts)
    /\ HopResp.num r = hop
    /\ HopResp.whois r = Whois.zero
    /\ (Datatypes.length pkts <= 1)%nat
    /\ (HopResp.err r <> None ->
        pkts = [] /\ HopResp.ip r = EmptyString /\ HopResp.hop r = EmptyString
        /\ HopResp.last r = false /\ HopResp.elapsed r = f64_zero)
    /\ (HopResp.err r <> None <->
        exists id seq err i' pkts',
          Send (SetTTL i hop) 33434 (send_env e) = Done (id, seq, Some err, i', pkts')).
Proof.
  unfold NextHop.
  destruct (Send_done (SetTTL i hop) 33434 (send_env e)) as (err & pkts & Hsend & Hlen & Hnil).
  rewrite Hsend. cbn [obind]. cbn [SetTTL Trace.seq Trace.set_ttl] in *.
  destruct err as [err|].
  - eexists _, pkts. split; [reflexivity|]. cbn.
    specialize (Hnil ltac:(discriminate)). subst pkts.
    repeat split; try congruence; try (cbn; lia). intros _. eauto 10.
  - destruct (Recv _ _ _ _) as [resp [rerr|]].
    + eexists _, pkts. split; [reflexivity|]. cbn.
      repeat split; try congruence; try lia.
      intros (? & ? & ? & ? & ? & [=]).
    + eexists _, pkts. split; [reflexivity|].
      destruct (if Trace.resolve _ then _ else _); destruct (existsb _ _); cbn;
        (repeat split; try congruence; try lia; intros (? & ? & ? & ? & ? & [=])).
Qed.

End ProbeEffects.

Section OtherPaths.
Context `{Externals}.

(** For a target that is not IPv4, whatever the mode, the only packet
    [Send] writes is the ICMPv6 message of [icmpV6Message], sent with the
    hop limit of the tracer to the port given: neither [udpMessage] nor
    [tcpMessage] is used. *)
Theorem Send_ipv6_sends_icmp (i : Trace.t) (port : Z) (e : SendEnv) (id seq : Z)
  (err : option error) (i' : Trace.t) (pkts : list Packet) (p : Packet) :
  IsIPv4 (Trace.ip i) = false ->
  Send i port e = Done (id, seq, err, i', pkts) -> In p pkts ->
  p = SendtoV6 (Trace.ttl i)
        (fst (icmpV6Message (Z.land (Getpid e) 65535) (Trace.seq i) (Trace.pSize i)))
        port (firstn 16 (To16 (Trace.ip i) ++ repeat x00 16))
  /\ err = None /\ pkts = [p].
Proof.
  intros Hv6. unfold Send.
  destruct (if Trace.icmp _ && _ then _ else _) as [sotype proto0].
  destruct (Socket_err e _ sotype proto0); [intros [= <- <- <- <- <-] []|].
  cbn [Trace.ip Trace.set_seq]. rewrite Hv6. cbn [Trace.pSize Trace.ttl].
  destruct (icmpV6Message _ _ _) as [m [err'|]]; [intros [= <- <- <- <- <-] []|].
  destruct (Sendto_err e); [intros [= <- <- <- <- <-] []|].
  intros [= <- <- <- <- <-] [<-|[]]. auto.
Qed.

End OtherPaths.

(** ** Receive path *)

Section Receive.
Context `{Externals}.

(** Outside ICMP mode the test on a parsed reply reads its destination,
    its identifier when it is an echo reply, and for IPv4 its IP id; the
    sequence number plays no part. *)
Lemma Recv_parse_other (i : Trace.t) (id seq : Z) (b from : list byte) :
  Trace.icmp i = false ->
  let v4 := len (To4 (Trace.ip i)) =? 4 in
  let resp := fst (Recv_parse i id seq b from) in
  snd (Recv_parse i id seq b from) = false ->
  IP_String (ICMPResp.dst (ICMPResp.ip resp)) = IP_String (Trace.ip i)
  /\ (ICMPResp.typ resp = (if v4 then IPv4ICMPTypeEchoReply else IPv6ICMPTypeEchoReply) ->
      ICMPResp.id resp = id)
  /\ (v4 = true ->
      ICMPResp.ipid (ICMPResp.ip resp) = id \/ ICMPResp.ipid (ICMPResp.ip resp) = 0).
Proof.
  intros Hicmp v4 resp. unfold resp, v4, Recv_parse. rewrite Hicmp.
  destruct (len (To4 (Trace.ip i)) =? 4); cbn [fst snd negb andb orb]; intros Hok.
  - apply orb_false_iff in Hok. destruct Hok as [Hok Hv4].
    apply orb_false_iff in Hok. destruct Hok as [Hdst Hid].
    apply negb_false_iff, String.eqb_eq in Hdst. split; [exact Hdst|]. split.
    + intros Htyp. rewrite Htyp, Z.eqb_refl in Hid. cbn [andb] in Hid.
      apply negb_false_iff, Z.eqb_eq in Hid. symmetry. exact Hid.
    + intros _. apply andb_false_iff in Hv4. destruct Hv4 as [Hv|Hv];
        apply negb_false_iff, Z.eqb_eq in Hv; [left; symmetry; exact Hv | right; exact Hv].
  - rewrite orb_false_r in Hok. apply orb_false_iff in Hok. destruct Hok as [Hdst Hid].
    apply negb_false_iff, String.eqb_eq in Hdst. split; [exact Hdst|]. split.
    + cbn [ICMPResp.typ ICMPResp.id ICMPResp.set_src] in *.
      intros Htyp. rewrite Htyp, Z.eqb_refl in Hid. cbn [andb] in Hid.
      apply negb_false_iff, Z.eqb_eq in Hid. symmetry. exact Hid.
    + discriminate.
Qed.

Lemma Recv_loop_other (i : Trace.t) (id seq : Z) (events : list RecvEvent) :
  Trace.icmp i = false ->
  forall (blen : nat) (resp0 resp : ICMPResp.t),
    Recv_loop i id seq blen resp0 events = (resp, None) ->
    exists b from, resp = fst (Recv_parse i id seq b from)
                   /\ snd (Recv_parse i id seq b from) = false.
Proof.
  intros Hicmp. induction events as [|ev events IH]; intros blen resp0 resp.
  - cbn [Recv_loop]. discriminate.
  - destruct ev as [err since | frame from since]; cbn [Recv_loop].
    + destruct (is_EAGAIN err && (since <? wait_du i)); [apply IH | discriminate].
    + destruct (Recv_parse i id seq (firstn blen frame) from) as [r wrong] eqn:E.
      destruct wrong.
      * destruct (since <? wait_du i); [apply IH | discriminate].
      * intros [= <-]. exists (firstn blen frame), from. rewrite E. auto.
Qed.

(** In UDP or TCP mode [Recv] returns a reply without error only if the
    destination of the IP header it carries prints like the target, its
    identifier is the id of the probe when it is an echo reply, and, for an
    IPv4 target, its IP id is the id of the probe or zero. *)
Theorem Recv_other_modes (i : Trace.t) (id seq : Z) (events : list RecvEvent)
  (resp : ICMPResp.t) :
  Trace.icmp i = false ->
  Recv i id seq events = (resp, None) ->
  let v4 := len (To4 (Trace.ip i)) =? 4 in
  IP_String (ICMPResp.dst (ICMPResp.ip resp)) = IP_String (Trace.ip i)
  /\ (ICMPResp.typ resp = (if v4 then IPv4ICMPTypeEchoReply else IPv6ICMPTypeEchoReply) ->
      ICMPResp.id resp = id)
  /\ (v4 = true ->
      ICMPResp.ipid (ICMPResp.ip resp) = id \/ ICMPResp.ipid (ICMPResp.ip resp) = 0).
Proof.
  intros Hicmp Hrecv. unfold Recv in Hrecv.
  destruct (Recv_loop_other i id seq events Hicmp _ _ _ Hrecv) as (b & from & -> & Hok).
  apply Recv_parse_other; assumption.
Qed.

(** The errors of [Recv]: an error [Recvfrom] returned, the error wrong
    response made for a frame that failed the test after the window, or the
    time-out that ends the events. *)
Theorem Recv_errors (i : Trace.t) (id seq : Z) (events : list RecvEvent)
  (resp : ICMPResp.t) (err : error) :
  Recv i id seq events = (resp, Some err) ->
  (exists since, In (RecvError err since) events
                 /\ (is_EAGAIN err = false \/ wait_du i <= since))
  \/ (err = errorString "wrong response"
      /\ exists frame from since, In (RecvFrame frame from since) events
                                  /\ wait_du i <= since)
  \/ err = EAGAIN.
Proof.
  unfold Recv. generalize 512%nat, ICMPResp.zero.
  induction events as [|ev events IH]; intros blen resp0; cbn [Recv_loop].
  - intros [= <- <-]. auto.
  - destruct ev as [e since | frame from since].
    + destruct (is_EAGAIN e) eqn:Ee; cbn [andb].
      * destruct (Z.ltb_spec since (wait_du i)).
        -- intros Hrec. destruct (IH _ _ Hrec) as [(s & Hin & Hs) | [(-> & f & fr & s & Hin & Hs) | ->]];
             [left; exists s; split; [right; exact Hin | exact Hs]
             | right; left; split; [reflexivity | exists f, fr, s; split; [right; exact Hin | exact Hs]]
             | auto].
        -- intros [= <- <-]. left. exists since. split; [left; reflexivity | right; lia].
      * intros [= <- <-]. left. exists since. split; [left; reflexivity | left; exact Ee].
    + destruct (Recv_parse i id seq (firstn blen frame) from) as [r wrong].
      destruct wrong; [|discriminate].
      destruct (Z.ltb_spec since (wait_du i)).
      * intros Hrec. destruct (IH _ _ Hrec) as [(s & Hin & Hs) | [(-> & f & fr & s & Hin & Hs) | ->]];
          [left; exists s; split; [right; exact Hin | exact Hs]
          | right; left; split; [reflexivity | exists f, fr, s; split; [right; exact Hin | exact Hs]]
          | auto].
      * intros [= <- <-]. right. left. split; [reflexivity|].
        exists frame, from, since. split; [left; reflexivity | lia].
Qed.

(** When the wait of the tracer is not a positive duration (it does not
    parse, say), [Recv] gives up at the first return of [Recvfrom]: what
    comes later is never read. *)
Theorem Recv_without_window (i : Trace.t) (id seq : Z) (ev : RecvEvent)
  (events : list RecvEvent) :
  wait_du i <= 0 -> 0 <= Scenarios.event_since ev ->
  Recv i id seq (ev :: events)
  = match ev with
    | RecvError err _ => (ICMPResp.zero, Some err)
    | RecvFrame frame from _ =>
        let '(resp, wrong) := Recv_parse i id seq (firstn 512 frame) from in
        (resp, if wrong then Some (errorString "wrong response") else None)
    end.
Proof.
  intros Hdu Hsince. unfold Recv. cbn [Recv_loop].
  destruct ev as [err since | frame from since]; cbn [Scenarios.event_since] in Hsince.
  - destruct (Z.ltb_spec since (wait_du i)); [lia|]. rewrite andb_false_r. reflexivity.
  - destruct (Recv_parse i id seq (firstn 512 frame) from) as [r wrong].
    destruct wrong; [|reflexivity].
    destruct (Z.ltb_spec since (wait_du i)); [lia | reflexivity].
Qed.

Lemma cut_event_firstn (n blen : nat) (frame : list byte) :
  (blen <= n)%nat -> firstn blen (firstn n frame) = firstn blen frame.
Proof. intros Hle. rewrite firstn_firstn. f_equal. lia. Qed.

Lemma Recv_loop_cut (i : Trace.t) (id seq : Z) (n : nat) (events : list RecvEvent) :
  forall (blen : nat) (resp : ICMPResp.t),
    (blen <= n)%nat ->
    Recv_loop i id seq blen resp (map (Scenarios.cut_event n) events)
    = Recv_loop i id seq blen resp events.
Proof.
  induction events as [|ev events IH]; intros blen resp Hle; [reflexivity|].
  destruct ev as [err since | frame from since];
    cbn [map Scenarios.cut_event Recv_loop].
  - destruct (is_EAGAIN err && (since <? wait_du i)); [apply IH; exact Hle | reflexivity].
  - rewrite cut_event_firstn by exact Hle.
    destruct (Recv_parse i id seq (firstn blen frame) from) as [r wrong].
    destruct wrong; [|reflexivity].
    destruct (since <? wait_du i); [|reflexivity].
    apply IH. rewrite length_firstn. lia.
Qed.

(** The receive buffer shrinks to the size of each frame read: after a
    frame of [n] bytes, every later frame is parsed from its first [n]
    bytes at most, and what lies beyond is lost. *)
Theorem Recv_buffer_shrinks (i : Trace.t) (id seq : Z) (frame from : list byte)
  (since : Z) (events : list RecvEvent) :
  Recv i id seq (RecvFrame frame from since :: events)
  = Recv i id seq (RecvFrame frame from since
                   :: map (Scenarios.cut_event (Datatypes.length frame)) events).
Proof.
  unfold Recv. cbn [Recv_loop].
  destruct (Recv_parse i id seq (firstn 512 frame) from) as [r wrong].
  destruct wrong; [|reflexivity].
  destruct (since <? wait_du i); [|reflexivity].
  symmetry. apply Recv_loop_cut. rewrite length_firstn. lia.
Qed.

End Receive.

(** ** Enrichment of a batch *)

Section Batches.
Context `{Externals}.

Lemma addWhois_keys (R : list HopResp.t) :
  forall (m0 : gmap string Whois.t) (k : string),
    fold_left (fun ips r => <[HopResp.ip r := Whois.zero]> ips) R m0 !! k
    = if bool_decide (k ∈ map HopResp.ip R) then Some Whois.zero else m0 !! k.
Proof.
  induction R as [|r R IH]; intros m0 k; cbn [fold_left map].
  - rewrite bool_decide_eq_false_2 by apply not_elem_of_nil. reflexivity.
  - rewrite IH. destruct (decide (k ∈ map HopResp.ip R)) as [Hin|Hnin].
    + rewrite !bool_decide_eq_true_2; [reflexivity | right; exact Hin | exact Hin].
    + rewrite (bool_decide_eq_false_2 _ Hnin).
      destruct (decide (k = HopResp.ip r)) as [->|Hne].
      * rewrite lookup_insert_eq. rewrite bool_decide_eq_true_2 by left. reflexivity.
      * rewrite lookup_insert_ne by congruence.
        rewrite bool_decide_eq_false_2; [reflexivity|].
        intros Hin. apply elem_of_cons in Hin. destruct Hin; [congruence | contradiction].
Qed.

Lemma addWhois_fold (ips0 : gmap string Whois.t) :
  (forall k v, ips0 !! k = Some v -> v = Whois.zero) ->
  forall m : gmap string Whois.t,
    match map_fold (fun ip (_ : Whois.t) (acc : outcome (gmap string Whois.t)) =>
                      do! ips <- acc;
                      if String.eqb ip EmptyString then Done ips
                      else
                        do! we <- whois ip;
                        match snd we with
                        | Some _ => Done ips
                        | None => Done (<[ip := fst we]> ips)
                        end)
                   (Done ips0) m with
    | Done ips =>
        (forall k, ips !! k
                   = match m !! k with
                     | Some _ => match ips0 !! k with
                                 | Some _ => Some (if String.eqb k EmptyString then Whois.zero else match whois k with Done (w, None) => w | _ => Whois.zero end)
                                 | None =>
                                     if String.eqb k EmptyString then None
                                     else match whois k with
                                          | Done (w, None) => Some w
                                          | _ => None
                                          end
                                 end
                     | None => ips0 !! k
                     end)
        /\ (forall k x, m !! k = Some x -> k <> EmptyString -> whois k <> Panicked)
    | Panicked =>
        exists k x, m !! k = Some x /\ k <> EmptyString /\ whois k = Panicked
    end.
Proof.
  intros Hzero m.
  apply (map_fold_weak_ind (fun acc m =>
    match acc with
    | Done ips =>
        (forall k, ips !! k
                   = match m !! k with
                     | Some _ => match ips0 !! k with
                                 | Some _ => Some (if String.eqb k EmptyString then Whois.zero else match whois k with Done (w, None) => w | _ => Whois.zero end)
                                 | None =>
                                     if String.eqb k EmptyString then None
                                     else match whois k with
                                          | Done (w, None) => Some w
                                          | _ => None
                                          end
                                 end
                     | None => ips0 !! k
                     end)
        /\ (forall k x, m !! k = Some x -> k <> EmptyString -> whois k <> Panicked)
    | Panicked =>
        exists k x, m !! k = Some x /\ k <> EmptyString /\ whois k = Panicked
    end)); clear m.
  - split; [intros k; rewrite lookup_empty; reflexivity|].
    intros k x Hk. rewrite lookup_empty in Hk. discriminate.
  - intros i x m acc Hfresh IH. destruct acc as [ips|]; cbn [obind].
    2:{ destruct IH as (k & y & Hk & Hne & Hp). exists k, y.
        split; [|auto]. rewrite lookup_insert_ne; [exact Hk | congruence]. }
    destruct IH as [Hlook Hnopanic].
    assert (Hother : forall k y, <[i:=x]> m !! k = Some y -> k <> i -> m !! k = Some y)
      by (intros k y Hk Hne; rewrite lookup_insert_ne in Hk by congruence; exact Hk).
    destruct (String.eqb_spec i EmptyString) as [Hi|Hi].
    + split.
      * intros k. rewrite Hlook. destruct (decide (k = i)) as [->|Hne].
        -- rewrite lookup_insert_eq, Hfresh. subst i. cbn.
           destruct (ips0 !! EmptyString) as [v|] eqn:E; [|reflexivity].
           rewrite (Hzero _ _ E). reflexivity.
        -- rewrite lookup_insert_ne by congruence. reflexivity.
      * intros k y Hk Hne. destruct (decide (k = i)) as [->|Hki]; [contradiction|].
        eapply Hnopanic; eauto.
    + destruct (whois i) as [[w [err|]]|] eqn:Ew; cbn [obind snd fst].
      * split.
        -- intros k. rewrite Hlook. destruct (decide (k = i)) as [->|Hne].
           ++ rewrite lookup_insert_eq, Hfresh.
              destruct (String.eqb_spec i EmptyString); [contradiction|]. rewrite Ew.
              destruct (ips0 !! i) as [v|] eqn:E; [|reflexivity].
              rewrite (Hzero _ _ E). reflexivity.
           ++ rewrite lookup_insert_ne by congruence. reflexivity.
        -- intros k y Hk Hne. destruct (decide (k = i)) as [->|Hki]; [congruence|].
           eapply Hnopanic; eauto.
      * split.
        -- intros k. destruct (decide (k = i)) as [->|Hne].
           ++ rewrite !lookup_insert_eq.
              destruct (String.eqb_spec i EmptyString); [contradiction|]. rewrite Ew.
              destruct (ips0 !! i); reflexivity.
           ++ rewrite !lookup_insert_ne by congruence. apply Hlook.
        -- intros k y Hk Hne. destruct (decide (k = i)) as [->|Hki]; [congruence|].
           eapply Hnopanic; eauto.
      * exists i, x. rewrite lookup_insert_eq. auto.
Qed.

(** [addWhois] changes nothing but the [whois] field.  Each result
    receives the answer of [whois] for its address, or the zero [Whois]
    when the address is empty or [whois] returned an error; and it panics
    exactly when [whois] panics for one of the addresses of the batch. *)
Theorem addWhois_result (R : list HopResp.t) :
  match addWhois R with
  | Done R' =>
      R' = map (fun r => HopResp.set_whois r
                           (if String.eqb (HopResp.ip r) EmptyString then Whois.zero
                            else match whois (HopResp.ip r) with
                                 | Done (w, None) => w
                                 | _ => Whois.zero
                                 end)) R
      /\ (forall r, In r R -> HopResp.ip r <> EmptyString ->
                    whois (HopResp.ip r) <> Panicked)
  | Panicked =>
      exists r, In r R /\ HopResp.ip r <> EmptyString /\ whois (HopResp.ip r) = Panicked
  end.
Proof.
  unfold addWhois.
  set (ips0 := fold_left (fun ips r => <[HopResp.ip r := Whois.zero]> ips) R ∅).
  assert (Hkeys : forall k, ips0 !! k
                            = if bool_decide (k ∈ map HopResp.ip R)
                              then Some Whois.zero else None).
  { intros k. unfold ips0. rewrite addWhois_keys, lookup_empty. reflexivity. }
  assert (Hzero : forall k v, ips0 !! k = Some v -> v = Whois.zero).
  { intros k v. rewrite Hkeys. destruct (bool_decide _); congruence. }
  pose proof (addWhois_fold ips0 Hzero ips0) as Hfold.
  destruct (map_fold _ _ ips0) as [ips|]; cbn [obind].
  - destruct Hfold as [Hlook Hnopanic]. split.
    + apply map_ext_in. intros r Hin. f_equal.
      rewrite Hlook, Hkeys.
      rewrite bool_decide_eq_true_2
        by (apply list_elem_of_In, in_map, Hin).
      reflexivity.
    + intros r Hin Hne. apply (Hnopanic (HopResp.ip r) Whois.zero); [|exact Hne].
      rewrite Hkeys. rewrite bool_decide_eq_true_2; [reflexivity|].
      apply list_elem_of_In, in_map, Hin.
  - destruct Hfold as (k & x & Hk & Hne & Hp). rewrite Hkeys in Hk.
    destruct (bool_decide_reflect (k ∈ map HopResp.ip R)) as [Hin|]; [|discriminate].
    apply list_elem_of_In, in_map_iff in Hin. destruct Hin as (r & <- & Hin). eauto.
Qed.

End Batches.

(** ** How the scans end *)

Section ScanEnds.
Context `{Externals}.

Lemma NextHop_done (i : Trace.t) (hop : Z) (e : ProbeEnv) :
  exists r pkts,
    NextHop i hop e
    = Done (r, Trace.set_seq (Trace.set_ttl i hop) (int (Trace.seq i + 1)), pkts)
    /\ HopResp.num r = hop /\ HopResp.whois r = Whois.zero.
Proof.
  unfold NextHop.
  destruct (Send_done (SetTTL i hop) 33434 (send_env e)) as (err & pkts & Hsend & _).
  rewrite Hsend. cbn [obind]. cbn [SetTTL Trace.seq Trace.set_ttl].
  destruct err as [err|]; [eexists _, pkts; split; [reflexivity|]; cbn; auto|].
  destruct (Recv _ _ _ _) as [resp [rerr|]];
    [eexists _, pkts; split; [reflexivity|]; cbn; auto|].
  eexists _, pkts. split; [reflexivity|].
  destruct (if Trace.resolve _ then _ else _); destruct (existsb _ _); cbn; auto.
Qed.

Lemma Run_retries_done (w : World) (h retry : Z) (fuel : nat) :
  forall (i : Trace.t) (n : Z) (r : list HopResp.t),
    exists i' r', Run_retries w fuel i h n retry r = Done (i', r')
                  /\ Trace.ripe i' = Trace.ripe i.
Proof.
  induction fuel as [|fuel IH]; intros i n r; cbn [Run_retries]; [eauto|].
  destruct (n <? retry); [|eauto].
  destruct (NextHop_done i h (probe w (Trace.seq i))) as (hop & pkts & -> & _).
  cbn [obind]. destruct (bool_decide _); [eauto|].
  destruct (IH (Trace.set_seq (Trace.set_ttl i h) (int (Trace.seq i + 1))) (n + 1)
              (r ++ [hop])) as (i' & r' & -> & Hr). eauto.
Qed.

Lemma Run_loop_full (w : World) (retry : Z) (fuel : nat) :
  forall (i : Trace.t) (h : Z) (batches : list (list HopResp.t)) (closed : bool),
    Trace.ripe i = false ->
    Run_loop w fuel i h retry [] = (batches, closed) ->
    closed = true
    /\ (Forall (fun b => Run_stop b = false) batches ->
        Z.of_nat (Datatypes.length batches)
        = Z.min (Z.of_nat fuel) (Z.max 0 (Trace.maxTTL i - h + 1))).
Proof.
  induction fuel as [|fuel IH]; intros i h batches closed Hripe; cbn [Run_loop].
  - intros [= <- <-]. split; [reflexivity|]. intros _. cbn. lia.
  - destruct (Z.leb_spec h (Trace.maxTTL i)) as [Hle|Hgt].
    2:{ intros [= <- <-]. split; [reflexivity|]. intros _. cbn [Datatypes.length]. lia. }
    destruct (Run_retries_done w h retry (Z.to_nat retry) i 0 []) as (i1 & r1 & E & Hr1).
    rewrite E.
    pose proof E as Hspec. apply Run_retries_spec in Hspec; [|lia].
    destruct Hspec as (Hm & _).
    rewrite Hr1, Hripe.
    destruct (Run_stop r1) eqn:Hstop.
    + intros [= <- <-]. split; [reflexivity|]. intros Hall.
      apply Forall_cons in Hall. destruct Hall as [Hb _]. cbv beta in Hb. congruence.
    + destruct (Run_loop w fuel i1 (h + 1) retry (firstn 0 r1)) as [sent cl] eqn:Hrec.
      cbn [firstn] in Hrec. intros [= <- <-].
      assert (Hripe1 : Trace.ripe i1 = false) by congruence.
      destruct (IH _ _ _ _ Hripe1 Hrec) as [Hcl Hcount].
      split; [exact Hcl|]. intros Hall. apply Forall_cons in Hall.
      destruct Hall as [_ Hrest]. cbn [Datatypes.length]. specialize (Hcount Hrest). rewrite Hm in Hcount. lia.
Qed.

(** When the lookup of origin AS is off, [Run] always closes its channel;
    and when no result of the run has [last] set or an error, it has sent
    exactly [maxTTL] batches (none when [maxTTL] is not positive). *)
Theorem Run_runs_to_maxTTL (i : Trace.t) (retry : Z) (w : World)
  (batches : list (list HopResp.t)) (closed : bool) :
  Trace.ripe i = false ->
  Run i retry w = (batches, closed, None) ->
  closed = true
  /\ (Forall (Forall (fun x => HopResp.last x = false /\ HopResp.err x = None)) batches ->
      len batches = Z.max 0 (Trace.maxTTL i)).
Proof.
  intros Hripe. unfold Run, Bind.
  destruct (bind_Socket w) as [fd|e]; [|discriminate].
  destruct (bind_Bind w) as [e|]; [destruct (_ =? _); discriminate|].
  cbn [Trace.maxTTL Trace.set_fd].
  destruct (Run_loop _ _ _ _ _ _) as [sent cl] eqn:E. intros [= <- <-].
  destruct (Run_loop_full _ _ _ (Trace.set_fd i fd) _ _ _ Hripe E) as [Hcl Hcount].
  cbn [Trace.maxTTL Trace.set_fd] in Hcount.
  split; [exact Hcl|]. intros Hall. unfold len. rewrite Hcount; [lia|].
  eapply Forall_impl; [exact Hall|]. intros b Hb.
  destruct (Run_stop b) eqn:Hstop; [|reflexivity].
  apply Run_stop_Exists, Exists_exists in Hstop. destruct Hstop as (x & Hin & Hx).
  rewrite Forall_forall in Hb. destruct (Hb x Hin) as [Hl He].
  destruct Hx; congruence.
Qed.

(** When [Bind] fails [Run] returns its error, wrapped as a system call
    error, and starts nothing: no batch is sent and the channel is left
    open. *)
Theorem Run_bind_failure (i : Trace.t) (retry : Z) (w : World)
  (batches : list (list HopResp.t)) (closed : bool) (err : error) :
  Run i retry w = (batches, closed, Some err) ->
  batches = [] /\ closed = false
  /\ ((exists e, bind_Socket w = inr e /\ err = SyscallError "bind.socket" e)
      \/ (exists fd e, bind_Socket w = inl fd /\ bind_Bind w = Some e
                       /\ err = SyscallError
                                  (if Trace.family i =? AF_INET then "bindv4" else "bindv6") e)).
Proof.
  unfold Run, Bind.
  destruct (bind_Socket w) as [fd|e].
  - destruct (bind_Bind w) as [e|].
    + cbn [Trace.family Trace.set_fd].
      destruct (Trace.family i =? AF_INET); intros [= <- <- <-];
        (split; [reflexivity|]; split; [reflexivity|]; right; eauto).
    + destruct (Run_loop _ _ _ _ _ _). discriminate.
  - intros [= <- <- <-]. split; [reflexivity|]. split; [reflexivity|]. left. eauto.
Qed.

End ScanEnds.

Section ContinuousEnds.
Context `{Externals}.

(** One pass never panics; its [k]-th result is the result of hop
    [h + k]; and the [Whois] of a result is the entry of the shared map
    for its address, or zero when there is none. *)
Lemma MRun_pass_shape (w : World) (fuel : nat) :
  forall (i : Trace.t) (h maxTTL : Z) (sent : list HopResp.t) (e : pass_end),
    MRun_pass w fuel i h maxTTL = (sent, e) ->
    (exists i' m', e = PassDone i' m' /\ Trace.count i' = Trace.count i
                   /\ Trace.maxTTL i' = Trace.maxTTL i)
    /\ (forall (k : nat) x, sent !! k = Some x -> HopResp.num x = h + Z.of_nat k)
    /\ Forall (fun x => HopResp.whois x = Whois.zero
                        \/ exists s, ASN_snapshot (probe w s) !! HopResp.ip x
                                     = Some (HopResp.whois x)) sent.
Proof.
  induction fuel as [|fuel IH]; intros i h maxTTL sent e; cbn [MRun_pass].
  - intros [= <- <-]. split; [eauto|]. split; [intros k x Hk; discriminate | constructor].
  - destruct (h <=? maxTTL).
    2:{ intros [= <- <-]. split; [eauto|].
        split; [intros k x Hk; discriminate | constructor]. }
    destruct (NextHop_done i h (probe w (Trace.seq i))) as (hop & pkts & -> & Hnum & Hwz).
    set (i1 := Trace.set_seq (Trace.set_ttl i h) (int (Trace.seq i + 1))).
    destruct (ASN_snapshot (probe w (Trace.seq i)) !! HopResp.ip hop) as [w0|] eqn:Ecache.
    + destruct (MRun_pass w fuel i1 (h + 1) _) as [rest e1] eqn:Hrec.
      intros [= <- <-]. destruct (IH _ _ _ _ _ Hrec) as ((i' & m' & -> & Hc & Hm) & Hk & Hw).
      split; [exists i', m'; auto|]. split.
      * intros [|k] x Hx; cbn in Hx.
        -- injection Hx as <-. cbn. lia.
        -- rewrite (Hk k x Hx). lia.
      * constructor; [|exact Hw]. right. exists (Trace.seq i). exact Ecache.
    + destruct (MRun_pass w fuel i1 (h + 1) _) as [rest e1] eqn:Hrec.
      intros [= <- <-]. destruct (IH _ _ _ _ _ Hrec) as ((i' & m' & -> & Hc & Hm) & Hk & Hw).
      split; [exists i', m'; auto|]. split.
      * intros [|k] x Hx; cbn in Hx.
        -- injection Hx as <-. lia.
        -- rewrite (Hk k x Hx). lia.
      * constructor; [|exact Hw]. left. exact Hwz.
Qed.

Lemma MRun_loop_shape (w : World) (passes : nat) :
  forall (i : Trace.t) (maxTTL count : Z) (sent : list HopResp.t) (closed : bool),
    0 <= count -> count + Z.of_nat passes < 2 ^ 63 ->
    (Trace.count i <= 0 \/ count < Trace.count i) ->
    MRun_loop w passes i maxTTL count = (sent, closed) ->
    (closed = true <-> 0 < Trace.count i <= count + Z.of_nat passes)
    /\ (forall x, sent !! 0%nat = Some x -> HopResp.num x = 1)
    /\ (forall (k : nat) x y, sent !! k = Some x -> sent !! S k = Some y ->
          HopResp.num y = HopResp.num x + 1 \/ HopResp.num y = 1)
    /\ Forall (fun x => HopResp.whois x = Whois.zero
                        \/ exists s, ASN_snapshot (probe w s) !! HopResp.ip x
                                     = Some (HopResp.whois x)) sent.
Proof.
  induction passes as [|passes IH]; intros i maxTTL count sent closed Hc0 Hc1 Hopen;
    cbn [MRun_loop].
  - intros [= <- <-]. split; [split; [discriminate | lia]|].
    split; [intros x Hx; discriminate|].
    split; [intros k x y Hx; discriminate | constructor].
  - destruct (MRun_pass w _ i 1 maxTTL) as [sent1 e] eqn:Hpass.
    destruct (MRun_pass_shape _ _ _ _ _ _ _ Hpass) as ((i1 & m1 & -> & Hcount & Hmax) & Hk & Hw).
    assert (Hadj1 : forall (k : nat) x y, sent1 !! k = Some x -> sent1 !! S k = Some y ->
                      HopResp.num y = HopResp.num x + 1).
    { intros k x y Hx Hy. rewrite (Hk _ _ Hx), (Hk _ _ Hy). lia. }
    assert (Hhead1 : forall x, sent1 !! 0%nat = Some x -> HopResp.num x = 1).
    { intros x Hx. rewrite (Hk _ _ Hx). lia. }
    rewrite int_small by (change (2 ^ 63) with 9223372036854775808 in *; lia).
    rewrite Hcount.
    destruct (Z.gtb_spec (Trace.count i) 0) as [Hpos|Hnon]; cbn [andb].
    + destruct (Z.geb_spec (count + 1) (Trace.count i)) as [Hge|Hlt].
      * intros [= <- <-]. split; [split; [lia | reflexivity]|].
        split; [exact Hhead1|]. split; [|exact Hw].
        intros k x y Hx Hy. left. eapply Hadj1; eauto.
      * destruct (MRun_loop w passes i1 m1 (count + 1)) as [sent2 cl] eqn:Hrec.
        intros [= <- <-].
        assert (Hopen1 : Trace.count i1 <= 0 \/ count + 1 < Trace.count i1) by lia.
        assert (Hc2 : count + 1 + Z.of_nat passes < 2 ^ 63) by lia.
        destruct (IH i1 m1 (count + 1) sent2 cl ltac:(lia) Hc2 Hopen1 Hrec)
          as (Hcl & Hhead2 & Hadj2 & Hw2).
        split; [rewrite Hcl, Hcount; lia|].
        split; [|split; [|apply Forall_app; auto]].
        -- intros x Hx. destruct sent1 as [|a sent1]; [apply Hhead2, Hx | apply Hhead1, Hx].
        -- intros k x y Hx Hy.
           destruct (Nat.lt_ge_cases (S k) (Datatypes.length sent1)) as [Hin|Hout].
           ++ rewrite lookup_app_l in Hx by lia. rewrite lookup_app_l in Hy by lia.
              left. eapply Hadj1; eauto.
           ++ rewrite lookup_app_r in Hy by lia.
              destruct (Nat.eq_dec (S k) (Datatypes.length sent1)) as [Heq|Hne].
              ** right. apply Hhead2. rewrite Heq, Nat.sub_diag in Hy. exact Hy.
              ** rewrite lookup_app_r in Hx by lia.
                 replace (S k - Datatypes.length sent1)%nat
                   with (S (k - Datatypes.length sent1)) in Hy by lia.
                 eapply Hadj2; eauto.
    + destruct (MRun_loop w passes i1 m1 (count + 1)) as [sent2 cl] eqn:Hrec.
      intros [= <- <-].
      assert (Hopen1 : Trace.count i1 <= 0 \/ count + 1 < Trace.count i1) by lia.
      assert (Hc2 : count + 1 + Z.of_nat passes < 2 ^ 63) by lia.
      destruct (IH i1 m1 (count + 1) sent2 cl ltac:(lia) Hc2 Hopen1 Hrec)
        as (Hcl & Hhead2 & Hadj2 & Hw2).
      split; [rewrite Hcl, Hcount; lia|].
      split; [|split; [|apply Forall_app; auto]].
      * intros x Hx. destruct sent1 as [|a sent1]; [apply Hhead2, Hx | apply Hhead1, Hx].
      * intros k x y Hx Hy.
        destruct (Nat.lt_ge_cases (S k) (Datatypes.length sent1)) as [Hin|Hout].
        -- rewrite lookup_app_l in Hx by lia. rewrite lookup_app_l in Hy by lia.
           left. eapply Hadj1; eauto.
        -- rewrite lookup_app_r in Hy by lia.
           destruct (Nat.eq_dec (S k) (Datatypes.length sent1)) as [Heq|Hne].
           ++ right. apply Hhead2. rewrite Heq, Nat.sub_diag in Hy. exact Hy.
           ++ rewrite lookup_app_r in Hx by lia.
              replace (S k - Datatypes.length sent1)%nat
                with (S (k - Datatypes.length sent1)) in Hy by lia.
              eapply Hadj2; eauto.
Qed.

(** A continuous scan that could bind never panics and returns no error.
    Observed for [passes] passes, its channel is closed exactly when the
    count of the tracer is positive and at most [passes]: with a count of
    zero or less it never closes. *)
Theorem MRun_closes_on_count (i : Trace.t) (w : World) (passes : nat)
  (sent : list HopResp.t) (closed : bool) :
  Z.of_nat passes < 2 ^ 63 ->
  MRun i w passes = (sent, closed, None) ->
  (closed = true <-> 0 < Trace.count i <= Z.of_nat passes).
Proof.
  intros Hp. unfold MRun, Bind.
  destruct (bind_Socket w) as [fd|e]; [|discriminate].
  destruct (bind_Bind w) as [e|]; [destruct (_ =? _); discriminate|].
  cbn [Trace.maxTTL Trace.set_fd].
  destruct (MRun_loop _ _ _ _ _) as [sent1 cl] eqn:E. intros [= <- <-].
  assert (Hopen : Trace.count (Trace.set_fd i fd) <= 0 \/ 0 < Trace.count (Trace.set_fd i fd))
    by lia.
  assert (Hp0 : 0 + Z.of_nat passes < 2 ^ 63) by lia.
  destruct (MRun_loop_shape _ _ (Trace.set_fd i fd) _ 0 _ _ (Z.le_refl 0) Hp0 Hopen E) as (Hcl & _).
  cbn [Trace.count Trace.set_fd] in Hcl. rewrite Hcl. lia.
Qed.

(** The results of a continuous scan come in hop order: the first is the
    result of hop 1, and each later one is the result of the hop after its
    predecessor's, or of hop 1 again when a new pass begins. *)
Theorem MRun_hop_order (i : Trace.t) (w : World) (passes : nat)
  (sent : list HopResp.t) (closed : bool) (err : option error) :
  Z.of_nat passes < 2 ^ 63 ->
  MRun i w passes = (sent, closed, err) ->
  (forall x, sent !! 0%nat = Some x -> HopResp.num x = 1)
  /\ (forall (k : nat) x y, sent !! k = Some x -> sent !! S k = Some y ->
        HopResp.num y = HopResp.num x + 1 \/ HopResp.num y = 1).
Proof.
  intros Hp. unfold MRun, Bind.
  destruct (bind_Socket w) as [fd|e];
    [|intros [= <- <- <-]; split; [intros x Hx | intros k x y Hx]; discriminate].
  destruct (bind_Bind w) as [e|];
    [destruct (_ =? _); intros [= <- <- <-];
     (split; [intros x Hx | intros k x y Hx]; discriminate)|].
  cbn [Trace.maxTTL Trace.set_fd].
  destruct (MRun_loop _ _ _ _ _) as [sent1 cl] eqn:E. intros [= <- <- <-].
  assert (Hopen : Trace.count (Trace.set_fd i fd) <= 0 \/ 0 < Trace.count (Trace.set_fd i fd))
    by lia.
  assert (Hp0 : 0 + Z.of_nat passes < 2 ^ 63) by lia.
  destruct (MRun_loop_shape _ _ (Trace.set_fd i fd) _ 0 _ _ (Z.le_refl 0) Hp0 Hopen E) as (_ & Hhead & Hadj & _).
  auto.
Qed.


End ContinuousEnds.

Lemma Run_runs_to_maxTTL_witness :
  let run := Run (H := Fixture.host) (Examples.tracer true false false 52 4 (-1)) 2
               Scenarios.quiet in
  snd (fst run) = true
  /\ (Forall (Forall (fun x => HopResp.last x = false /\ HopResp.err x = None))
             (fst (fst run)) ->
      len (fst (fst run)) = Z.max 0 4).
Proof.
  intros run.
  apply (Run_runs_to_maxTTL (H := Fixture.host) (Examples.tracer true false false 52 4 (-1)) 2
           Scenarios.quiet (fst (fst run)) (snd (fst run))).
  - reflexivity.
  - vm_compute. reflexivity.
Defined.

Lemma Run_bind_failure_witness :
  ([] : list (list HopResp.t)) = [] /\ false = false
  /\ ((exists e, bind_Socket Scenarios.refused = inr e
                 /\ SyscallError "bind.socket" (Errno 13) = SyscallError "bind.socket" e)
      \/ (exists fd e, bind_Socket Scenarios.refused = inl fd
                       /\ bind_Bind Scenarios.refused = Some e
                       /\ SyscallError "bind.socket" (Errno 13)
                          = SyscallError
                              (if Trace.family (Examples.tracer true false false 52 30 (-1))
                                  =? AF_INET then "bindv4" else "bindv6") e)).
Proof.
  apply (Run_bind_failure (H := Fixture.host) (Examples.tracer true false false 52 30 (-1)) 3
           Scenarios.refused [] false (SyscallError "bind.socket" (Errno 13))).
  reflexivity.
Defined.

Lemma MRun_closes_on_count_witness :
  let run := MRun (H := Fixture.host) (Examples.tracer true false false 52 5 2)
               Examples.two_hops 3 in
  snd (fst run) = true <-> 0 < 2 <= Z.of_nat 3.
Proof.
  intros run.
  apply (MRun_closes_on_count (H := Fixture.host) (Examples.tracer true false false 52 5 2)
           Examples.two_hops 3 (fst (fst run)) (snd (fst run))).
  - reflexivity.
  - vm_compute. reflexivity.
Defined.

Lemma MRun_hop_order_witness :
  let sent := fst (fst (MRun (H := Fixture.host) (Examples.tracer true false false 52 5 2)
                          Examples.two_hops 3)) in
  (forall x, sent !! 0%nat = Some x -> HopResp.num x = 1)
  /\ (forall (k : nat) x y, sent !! k = Some x -> sent !! S k = Some y ->
        HopResp.num y = HopResp.num x + 1 \/ HopResp.num y = 1).
Proof.
  intros sent.
  apply (MRun_hop_order (H := Fixture.host) (Examples.tracer true false false 52 5 2)
           Examples.two_hops 3 sent true None).
  - reflexivity.
  - vm_compute. reflexivity.
Defined.


(** ** Examples of the send and receive paths *)

Lemma Send_ipv6_sends_icmp_witness :
  let i := Scenarios.tracer6 false true false in
  let p := SendtoV6 7 (fst (Fixture.icmpV6Message_model 4242 1 52)) 33434 Scenarios.target6 in
  p = SendtoV6 (Trace.ttl i)
        (fst (icmpV6Message (Externals := Fixture.host)
                (Z.land (Getpid Examples.sends) 65535) (Trace.seq i) (Trace.pSize i)))
        33434 (firstn 16 (To16 (Trace.ip i) ++ repeat x00 16))
  /\ (None : option error) = None /\ [p] = [p].
Proof.
  intros i p.
  apply (Send_ipv6_sends_icmp (H := Fixture.host) i 33434 Examples.sends 38841 1 None
           (Trace.set_seq i 2) [p] p).
  - reflexivity.
  - reflexivity.
  - left. reflexivity.
Defined.

Lemma Recv_other_modes_witness :
  let i := Examples.tracer false true false 52 30 (-1) in
  let resp := Fixture.icmpV4RespParser_model
                (Examples.time_exceeded Examples.router Examples.local Examples.target
                   38841 64100 33434) in
  let v4 := len (To4 (Trace.ip i)) =? 4 in
  IP_String (Externals := Fixture.host) (ICMPResp.dst (ICMPResp.ip resp))
  = IP_String (Externals := Fixture.host) (Trace.ip i)
  /\ (ICMPResp.typ resp = (if v4 then IPv4ICMPTypeEchoReply (Externals := Fixture.host)
                           else IPv6ICMPTypeEchoReply (Externals := Fixture.host)) ->
      ICMPResp.id resp = 38841)
  /\ (v4 = true ->
      ICMPResp.ipid (ICMPResp.ip resp) = 38841 \/ ICMPResp.ipid (ICMPResp.ip resp) = 0).
Proof.
  intros i resp.
  apply (Recv_other_modes (H := Fixture.host) i 38841 1
           [RecvFrame (Examples.time_exceeded Examples.router Examples.local Examples.target
                         38841 64100 33434) [] 1000000] resp).
  - reflexivity.
  - reflexivity.
Defined.

Lemma Recv_errors_witness :
  (exists since, In (RecvError (Errno 111) since)
                   [RecvError EAGAIN 1000; RecvError (Errno 111) 2000]
                 /\ (is_EAGAIN (Errno 111) = false
                     \/ wait_du (H := Fixture.host)
                          (Examples.tracer true false false 52 30 (-1)) <= since))
  \/ (Errno 111 = errorString "wrong response"
      /\ exists frame from since,
           In (RecvFrame frame from since)
              [RecvError EAGAIN 1000; RecvError (Errno 111) 2000]
           /\ wait_du (H := Fixture.host)
                (Examples.tracer true false false 52 30 (-1)) <= since)
  \/ Errno 111 = EAGAIN.
Proof.
  apply (Recv_errors (H := Fixture.host) (Examples.tracer true false false 52 30 (-1))
           38841 1 [RecvError EAGAIN 1000; RecvError (Errno 111) 2000] ICMPResp.zero
           (Errno 111)).
  reflexivity.
Defined.

Lemma Recv_without_window_witness :
  Recv (H := Fixture.host) Scenarios.hasty 38841 1
    [RecvError EAGAIN 1000;
     RecvFrame (Examples.echo_reply Examples.target Examples.local 4242 1) [] 2000]
  = (ICMPResp.zero, Some EAGAIN).
Proof.
  apply (Recv_without_window (H := Fixture.host) Scenarios.hasty 38841 1
           (RecvError EAGAIN 1000)
           [RecvFrame (Examples.echo_reply Examples.target Examples.local 4242 1) [] 2000]).
  - vm_compute. discriminate.
  - vm_compute. discriminate.
Defined.

(** ** Name and last flag of a result *)

Section Names.
Context `{Externals}.

(** The name of a result is empty or the first name the reverse lookup
    returned, and then only when [resolve] is on: the DNS cache of
    [NextHop] is made anew at each call and never hit.  The [last] flag is
    set only on a result whose address is the text of one of the addresses
    the target resolved to; and a result with a name or with [last] set
    has no error. *)
Theorem NextHop_name_and_last (i : Trace.t) (hop : Z) (e : ProbeEnv)
  (r : HopResp.t) (i' : Trace.t) (pkts : list Packet) :
  NextHop i hop e = Done (r, i', pkts) ->
  (HopResp.hop r = EmptyString
   \/ (Trace.resolve i = true
       /\ exists names, LookupAddr e = Some (HopResp.hop r :: names)))
  /\ (HopResp.last r = true ->
      exists h, In h (Trace.ips i) /\ HopResp.ip r = IP_String h)
  /\ (HopResp.hop r <> EmptyString \/ HopResp.last r = true -> HopResp.err r = None).
Proof.
  unfold NextHop.
  destruct (Send (SetTTL i hop) 33434 (send_env e)) as [[[[[id seq] err] i1] pk]|] eqn:Hsend;
    [|discriminate].
  cbn [obind].
  assert (Hi1 : Trace.resolve i1 = Trace.resolve i /\ Trace.ips i1 = Trace.ips i).
  { destruct (Send_done (SetTTL i hop) 33434 (send_env e)) as (err' & pk' & Hs & _).
    rewrite Hs in Hsend. injection Hsend as _ _ _ <- _. cbn. auto. }
  destruct Hi1 as [Hres Hips]. rewrite Hres, Hips.
  destruct err as [err|].
  { intros [= <- _ _]. cbn. split; [auto|]. split; [discriminate|].
    intros [Hn|Hl]; [contradiction Hn; reflexivity | discriminate]. }
  destruct (Recv i1 id seq (recv_events e)) as [resp [rerr|]].
  { intros [= <- _ _]. cbn. split; [auto|]. split; [discriminate | reflexivity]. }
  rewrite lookup_empty.
  set (name := if Trace.resolve i then fst (lookupAddr (LookupAddr e)) else []).
  assert (Hname : name = [] \/ (Trace.resolve i = true
                                /\ exists n0 names, name = n0 :: names
                                                    /\ LookupAddr e = Some (n0 :: names))).
  { unfold name. destruct (Trace.resolve i); [|auto].
    destruct (LookupAddr e) as [[|n0 names]|]; cbn; [auto | right | auto].
    split; [reflexivity|]. eauto. }
  destruct (existsb _ (Trace.ips i)) eqn:Hex.
  - apply existsb_exists in Hex. destruct Hex as (h & Hin & Heq).
    apply String.eqb_eq in Heq.
    destruct Hname as [-> | (Hr & n0 & names & -> & Hl)]; intros [= <- _ _]; cbn.
    + split; [auto|]. split; [eauto | reflexivity].
    + split; [right; eauto|]. split; [eauto | reflexivity].
  - destruct Hname as [-> | (Hr & n0 & names & -> & Hl)]; intros [= <- _ _]; cbn.
    + split; [auto|]. split; [discriminate | reflexivity].
    + split; [right; eauto|]. split; [discriminate | reflexivity].
Qed.

End Names.

Lemma NextHop_name_and_last_witness :
  let e := Scenarios.named (Some ["target.example."; "alias.example."]) in
  let r := match NextHop (H := Fixture.host) Scenarios.resolving 1 e with
           | Done (r, _, _) => r
           | Panicked => Scenarios.from EmptyString
           end in
  (HopResp.hop r = EmptyString
   \/ (Trace.resolve Scenarios.resolving = true
       /\ exists names, LookupAddr e = Some (HopResp.hop r :: names)))
  /\ (HopResp.last r = true ->
      exists h, In h (Trace.ips Scenarios.resolving)
                /\ HopResp.ip r = IP_String (Externals := Fixture.host) h)
  /\ (HopResp.hop r <> EmptyString \/ HopResp.last r = true -> HopResp.err r = None).
Proof.
  intros e r.
  eapply (NextHop_name_and_last (H := Fixture.host) Scenarios.resolving 1 e r).
  vm_compute. reflexivity.
Defined.

(** ** Construction of the tracer *)

Section Built.
Context `{Externals}.

Lemma setReportDCount_fields (i : Trace.t) (c : Z) :
  let j := setReportDCount i c in
  Trace.host j = Trace.host i /\ Trace.ips j = Trace.ips i /\ Trace.ip j = Trace.ip i
  /\ Trace.src j = Trace.src i /\ Trace.seq j = Trace.seq i
  /\ Trace.family j = Trace.family i /\ Trace.proto j = Trace.proto i
  /\ Trace.icmp j = Trace.icmp i /\ Trace.udp j = Trace.udp i /\ Trace.tcp j = Trace.tcp i
  /\ Trace.report j = Trace.report i /\ Trace.ttl j = Trace.ttl i /\ Trace.fd j = Trace.fd i
  /\ Trace.pSize j = Trace.pSize i /\ Trace.maxTTL j = Trace.maxTTL i.
Proof.
  unfold setReportDCount. destruct (Trace.report i && (Trace.count i <? 0));
    cbn; repeat split; reflexivity.
Qed.

Lemma setReportDCount_count (i : Trace.t) (c : Z) :
  0 <= c ->
  Trace.report (setReportDCount i c) = true -> 0 <= Trace.count (setReportDCount i c).
Proof.
  intros Hc. unfold setReportDCount.
  destruct (Trace.report i) eqn:Hr; cbn [andb].
  - destruct (Z.ltb_spec (Trace.count i) 0); [cbn; auto | lia].
  - rewrite Hr. discriminate.
Qed.

(** [setReportDCount] changes [count] only, and only in report mode with
    a negative count; given a default that is not negative, it leaves a
    tracer whose count is not negative in report mode, and a second call
    changes nothing. *)
Theorem setReportDCount_default (i : Trace.t) (c c' : Z) :
  0 <= c ->
  (Trace.report (setReportDCount i c) = true -> 0 <= Trace.count (setReportDCount i c))
  /\ (Trace.report i = false \/ 0 <= Trace.count i -> setReportDCount i c = i)
  /\ (Trace.report i = true -> Trace.count i < 0 -> Trace.count (setReportDCount i c) = c)
  /\ Trace.set_count (setReportDCount i c) (Trace.count i) = i
  /\ setReportDCount (setReportDCount i c) c' = setReportDCount i c.
Proof.
  intros Hc. unfold setReportDCount.
  destruct (Trace.report i) eqn:Hr; cbn [andb].
  - destruct (Z.ltb_spec (Trace.count i) 0) as [Hlt|Hge].
    + cbn [Trace.report Trace.count Trace.set_count]. rewrite Hr. cbn [andb].
      destruct (Z.ltb_spec c 0); [lia|].
      split; [auto|]. split; [intros [?|?]; [discriminate | lia]|].
      split; [auto|]. split; [destruct i; reflexivity | reflexivity].
    + rewrite Hr. cbn [andb]. destruct (Z.ltb_spec (Trace.count i) 0); [lia|].
      split; [auto|]. split; [auto|]. split; [lia|].
      split; [destruct i; reflexivity | reflexivity].
  - rewrite Hr. cbn [andb].
    split; [discriminate|]. split; [auto|]. split; [discriminate|].
    split; [destruct i; reflexivity | reflexivity].
Qed.

Lemma NewTrace_ok (args Theme Wait : string) (t : Trace.t) :
  NewTrace args Theme Wait = NT_ok t ->
  let target := fst (cli_Flag args) in
  let flag := snd (cli_Flag args) in
  let UDP := SetFlag_bool flag "u" false in
  let TCP := SetFlag_bool flag "t" false in
  exists ips ip lAddr t0,
    flag_has flag "help" = false /\ 3 <= Z.of_nat (String.length target)
    /\ LookupIP target = inl ips
    /\ List.find (fun IP => (IsIPv4 IP && negb (SetFlag_bool flag "6" false))
                            || (IsIPv6 IP && negb (SetFlag_bool flag "4" false))) ips
       = Some ip
    /\ ip <> []
    /\ getLocalAddr (IP_String ip) = inl lAddr
    /\ t = setReportDCount t0 10
    /\ Trace.host t0 = target /\ Trace.ips t0 = ips /\ Trace.ip t0 = ip
    /\ Trace.src t0 = lAddr /\ Trace.seq t0 = 1 /\ Trace.ttl t0 = 0 /\ Trace.fd t0 = 0
    /\ (Trace.family t0, Trace.proto t0)
       = (if IsIPv4 ip then (AF_INET, IPPROTO_ICMP) else (AF_INET6, IPPROTO_ICMPV6))
    /\ Trace.icmp t0 = negb UDP && negb TCP
    /\ Trace.udp t0 = UDP && negb TCP
    /\ Trace.tcp t0 = TCP && negb UDP.
Proof.
  unfold NewTrace. destruct (cli_Flag args) as [target flag]. cbn [fst snd].
  destruct (flag_has flag "help") eqn:Hhelp; cbn [orb]; [discriminate|].
  destruct (Z.ltb_spec (Z.of_nat (String.length target)) 3) as [|Hlen]; [discriminate|].
  destruct (LookupIP target) as [ips|err]; [|discriminate].
  destruct (List.find _ ips) as [ip|] eqn:Hfind; cbn [from_option id]; [|discriminate].
  destruct ip as [|b ip]; [discriminate|]. cbn [is_nil].
  destruct (getLocalAddr _) as [lAddr|err] eqn:Hloc; [|discriminate].
  destruct (IsIPv4 (b :: ip)) eqn:Hv4.
  - intros [= <-]. eexists ips, (b :: ip), lAddr, _.
    split; [reflexivity|]. split; [lia|]. split; [reflexivity|]. split; [exact Hfind|].
    split; [discriminate|]. split; [exact Hloc|]. split; [reflexivity|].
    cbn. rewrite Hv4. repeat split; reflexivity.
  - intros [= <-]. eexists ips, (b :: ip), lAddr, _.
    split; [reflexivity|]. split; [lia|]. split; [reflexivity|]. split; [exact Hfind|].
    split; [discriminate|]. split; [exact Hloc|]. split; [reflexivity|].
    cbn. rewrite Hv4. repeat split; reflexivity.
Qed.

(** What holds of every tracer [NewTrace] returns: its target has at
    least 3 characters and resolved to [ips]; [ip] is one of them, is not
    nil, and is the first one that is IPv4 (unless -6 is given) or IPv6
    (unless -4 is given); [src] is the local address for it; the family and
    protocol follow [IsIPv4]; [seq] is 1; at most one of the three modes is
    set; and in report mode the count is not negative. *)
Theorem NewTrace_invariants (args Theme Wait : string) (t : Trace.t) :
  NewTrace args Theme Wait = NT_ok t ->
  3 <= Z.of_nat (String.length (Trace.host t))
  /\ LookupIP (Trace.host t) = inl (Trace.ips t)
  /\ In (Trace.ip t) (Trace.ips t) /\ Trace.ip t <> []
  /\ (IsIPv4 (Trace.ip t) || IsIPv6 (Trace.ip t) = true)
  /\ getLocalAddr (IP_String (Trace.ip t)) = inl (Trace.src t)
  /\ (Trace.family t, Trace.proto t)
     = (if IsIPv4 (Trace.ip t) then (AF_INET, IPPROTO_ICMP) else (AF_INET6, IPPROTO_ICMPV6))
  /\ Trace.seq t = 1 /\ Trace.ttl t = 0 /\ Trace.fd t = 0
  /\ (Trace.icmp t && Trace.udp t = false) /\ (Trace.icmp t && Trace.tcp t = false)
  /\ (Trace.udp t && Trace.tcp t = false)
  /\ (Trace.report t = true -> 0 <= Trace.count t).
Proof.
  intros Hok. pose proof (NewTrace_ok _ _ _ _ Hok) as Hf. cbv zeta in Hf.
  destruct Hf as (ips & ip & lAddr & t0 & _ & Hlen & Hlook & Hfind & Hnil & Hloc & -> &
                  Hhost & Hips & Hip & Hsrc & Hseq & Httl & Hfd & Hfam & Hi & Hu & Ht).
  destruct (setReportDCount_fields t0 10)
    as (-> & -> & -> & -> & -> & Ff & Fp & -> & -> & -> & _ & -> & -> & _).
  rewrite Ff, Fp, Hhost, Hips, Hip, Hsrc.
  apply find_some in Hfind. destruct Hfind as [Hin Hpred].
  split; [exact Hlen|]. split; [exact Hlook|]. split; [exact Hin|]. split; [exact Hnil|].
  split.
  { destruct (IsIPv4 ip); [reflexivity|]. destruct (IsIPv6 ip); [reflexivity|]. discriminate. }
  split; [exact Hloc|]. split; [exact Hfam|].
  split; [exact Hseq|]. split; [exact Httl|]. split; [exact Hfd|].
  rewrite Hi, Hu, Ht.
  split; [destruct (SetFlag_bool _ "u" false), (SetFlag_bool _ "t" false); reflexivity|].
  split; [destruct (SetFlag_bool _ "u" false), (SetFlag_bool _ "t" false); reflexivity|].
  split; [destruct (SetFlag_bool _ "u" false), (SetFlag_bool _ "t" false); reflexivity|].
  apply setReportDCount_count. lia.
Qed.

(** With both -u and -t no mode is set, neither UDP nor TCP nor ICMP: the
    probe [Sendv4] then builds has protocol number 0 and no payload, and
    what [Send] writes to an IPv4 target is a bare IP header of total
    length 20. *)
Theorem NewTrace_both_modes (args Theme Wait : string) (t : Trace.t) :
  NewTrace args Theme Wait = NT_ok t ->
  SetFlag_bool (snd (cli_Flag args)) "u" false = true ->
  SetFlag_bool (snd (cli_Flag args)) "t" false = true ->
  Trace.icmp t = false /\ Trace.udp t = false /\ Trace.tcp t = false
  /\ (forall seq rport e, Sendv4_probe t seq rport e = Done (0, []))
  /\ (forall port e pkts p id seq err t',
        IsIPv4 (Trace.ip t) = true ->
        Send t port e = Done (id, seq, err, t', pkts) -> In p pkts ->
        p = RawV4 (mkHeader 4 20 20 0 (int (38840 + Trace.seq t)) (Trace.ttl t)
                            (To4 (Trace.ip t))) []).
Proof.
  intros Hok HU HT. pose proof (NewTrace_ok _ _ _ _ Hok) as Hf. cbv zeta in Hf.
  destruct Hf as (ips & ip & lAddr & t0 & _ & _ & _ & _ & _ & _ & -> &
                  _ & _ & _ & _ & _ & _ & _ & _ & Hi & Hu & Ht).
  rewrite HU, HT in Hi, Hu, Ht. cbn in Hi, Hu, Ht.
  destruct (setReportDCount_fields t0 10)
    as (_ & _ & Fip & _ & Fseq & _ & _ & Fi & Fu & Ft & _ & Fttl & _).
  set (t := setReportDCount t0 10) in *.
  assert (Hmodes : Trace.icmp t = false /\ Trace.udp t = false /\ Trace.tcp t = false)
    by (rewrite Fi, Fu, Ft; auto).
  destruct Hmodes as (Mi & Mu & Mt).
  assert (Hprobe : forall i seq rport e,
             Trace.icmp i = false -> Trace.udp i = false -> Trace.tcp i = false ->
             Sendv4_probe i seq rport e = Done (0, [])).
  { intros i seq rport e Ai Au At. unfold Sendv4_probe. rewrite Ai, Au, At. reflexivity. }
  split; [exact Mi|]. split; [exact Mu|]. split; [exact Mt|].
  split; [intros; apply Hprobe; assumption|].
  intros port e pkts p id seq err t' Hv4. unfold Send.
  destruct (if Trace.icmp _ && _ then _ else _) as [sotype proto0].
  destruct (Socket_err e _ sotype proto0); [intros [= <- <- <- <- <-] []|].
  cbn [Trace.ip Trace.set_seq]. rewrite Hv4. unfold Sendv4.
  rewrite Hprobe by (cbn; assumption). cbn [obind].
  destruct (ListenPacket_err e 0); [intros [= <- <- <- <- <-] []|].
  destruct (NewRawConn_err e); [intros [= <- <- <- <- <-] []|].
  destruct (WriteTo_err e); [intros [= <- <- <- <- <-] []|].
  intros [= <- <- <- <- <-] [<-|[]]. reflexivity.
Qed.

Lemma find_none_forced (ips : list IP) :
  List.find (fun IP => (IsIPv4 IP && negb true) || (IsIPv6 IP && negb true)) ips = None.
Proof.
  induction ips as [|a ips IH]; [reflexivity|]. cbn [List.find negb].
  rewrite !andb_false_r. exact IH.
Qed.

(** With both -4 and -6 no address qualifies: [NewTrace] never returns a
    tracer, and once the target has resolved its error is that there is no
    A or AAAA record, whatever the records are. *)
Theorem NewTrace_both_families (args Theme Wait : string) :
  SetFlag_bool (snd (cli_Flag args)) "4" false = true ->
  SetFlag_bool (snd (cli_Flag args)) "6" false = true ->
  (forall t, NewTrace args Theme Wait <> NT_ok t)
  /\ (forall ips, flag_has (snd (cli_Flag args)) "help" = false ->
                  3 <= Z.of_nat (String.length (fst (cli_Flag args))) ->
                  LookupIP (fst (cli_Flag args)) = inl ips ->
                  NewTrace args Theme Wait
                  = NT_err (errorString "there is not A or AAAA record")).
Proof.
  unfold NewTrace. destruct (cli_Flag args) as [target flag]. cbn [fst snd].
  intros H4 H6. rewrite H4, H6. split.
  - intros t. destruct (_ || _); [discriminate|].
    destruct (LookupIP target) as [ips|err]; [|discriminate].
    rewrite find_none_forced. cbn [from_option id is_nil]. discriminate.
  - intros ips Hhelp Hlen Hlook. rewrite Hhelp. cbn [orb].
    destruct (Z.ltb_spec (Z.of_nat (String.length target)) 3); [lia|].
    rewrite Hlook, find_none_forced. reflexivity.
Qed.

End Built.

Lemma setReportDCount_default_witness :
  let i := Trace.set_count (Examples.tracer false true false 52 30 (-1)) (-1) in
  (Trace.report (setReportDCount i 10) = true -> 0 <= Trace.count (setReportDCount i 10))
  /\ (Trace.report i = false \/ 0 <= Trace.count i -> setReportDCount i 10 = i)
  /\ (Trace.report i = true -> Trace.count i < 0 -> Trace.count (setReportDCount i 10) = 10)
  /\ Trace.set_count (setReportDCount i 10) (Trace.count i) = i
  /\ setReportDCount (setReportDCount i 10) 3 = setReportDCount i 10.
Proof.
  intros i. apply (setReportDCount_default i 10 3). lia.
Defined.

Lemma NewTrace_invariants_witness :
  let t := match NewTrace (H := Scenarios.host) "192.0.2.9 -R -t" "dark" "2s" with
           | NT_ok t => t
           | _ => Scenarios.hasty
           end in
  3 <= Z.of_nat (String.length (Trace.host t))
  /\ LookupIP (Externals := Scenarios.host) (Trace.host t) = inl (Trace.ips t)
  /\ In (Trace.ip t) (Trace.ips t) /\ Trace.ip t <> []
  /\ (IsIPv4 (Externals := Scenarios.host) (Trace.ip t)
      || IsIPv6 (Externals := Scenarios.host) (Trace.ip t) = true)
  /\ getLocalAddr (Externals := Scenarios.host)
       (IP_String (Externals := Scenarios.host) (Trace.ip t)) = inl (Trace.src t)
  /\ (Trace.family t, Trace.proto t)
     = (if IsIPv4 (Externals := Scenarios.host) (Trace.ip t)
        then (AF_INET, IPPROTO_ICMP) else (AF_INET6, IPPROTO_ICMPV6))
  /\ Trace.seq t = 1 /\ Trace.ttl t = 0 /\ Trace.fd t = 0
  /\ (Trace.icmp t && Trace.udp t = false) /\ (Trace.icmp t && Trace.tcp t = false)
  /\ (Trace.udp t && Trace.tcp t = false)
  /\ (Trace.report t = true -> 0 <= Trace.count t).
Proof.
  intros t.
  apply (NewTrace_invariants (H := Scenarios.host) "192.0.2.9 -R -t" "dark" "2s" t).
  vm_compute. reflexivity.
Defined.

Lemma NewTrace_both_modes_witness :
  let t := match NewTrace (H := Scenarios.host) "192.0.2.9 -u -t" "dark" "2s" with
           | NT_ok t => t
           | _ => Scenarios.hasty
           end in
  Trace.icmp t = false /\ Trace.udp t = false /\ Trace.tcp t = false
  /\ (forall seq rport e, Sendv4_probe (H := Scenarios.host) t seq rport e = Done (0, []))
  /\ (forall port e pkts p id seq err t',
        IsIPv4 (Externals := Scenarios.host) (Trace.ip t) = true ->
        Send (H := Scenarios.host) t port e = Done (id, seq, err, t', pkts) -> In p pkts ->
        p = RawV4 (mkHeader 4 20 20 0 (int (38840 + Trace.seq t)) (Trace.ttl t)
                            (To4 (Trace.ip t))) []).
Proof.
  intros t.
  apply (NewTrace_both_modes (H := Scenarios.host) "192.0.2.9 -u -t" "dark" "2s" t).
  - vm_compute. reflexivity.
  - reflexivity.
  - reflexivity.
Defined.

Lemma NewTrace_both_families_witness :
  (forall t, NewTrace (H := Scenarios.host) "192.0.2.9 -4 -6" "dark" "2s" <> NT_ok t)
  /\ (forall ips,
        flag_has (Externals := Scenarios.host)
          (snd (cli_Flag (Externals := Scenarios.host) "192.0.2.9 -4 -6")) "help" = false ->
        3 <= Z.of_nat (String.length
                         (fst (cli_Flag (Externals := Scenarios.host) "192.0.2.9 -4 -6"))) ->
        LookupIP (Externals := Scenarios.host)
          (fst (cli_Flag (Externals := Scenarios.host) "192.0.2.9 -4 -6")) = inl ips ->
        NewTrace (H := Scenarios.host) "192.0.2.9 -4 -6" "dark" "2s"
        = NT_err (errorString "there is not A or AAAA record")).
Proof.
  apply (NewTrace_both_families (H := Scenarios.host) "192.0.2.9 -4 -6" "dark" "2s").
  - reflexivity.
  - reflexivity.
Defined.

(** ** Sorting interface *)

Lemma at_in_range (h : list HopResp.t) (i : Z) :
  0 <= i < MHopResp.Len h -> exists x, MHopResp.at_ h i = Done x /\ h !! Z.to_nat i = Some x.
Proof.
  intros Hi. unfold MHopResp.at_, MHopResp.Len, len in *.
  destruct (Z.ltb_spec i 0); [lia|].
  destruct (lookup_lt_is_Some_2 h (Z.to_nat i)) as [x Hx]; [lia|].
  rewrite Hx. eauto.
Qed.

Lemma at_out_of_range (h : list HopResp.t) (i : Z) :
  ~ 0 <= i < MHopResp.Len h -> MHopResp.at_ h i = Panicked.
Proof.
  intros Hi. unfold MHopResp.at_, MHopResp.Len, len in *.
  destruct (Z.ltb_spec i 0); [reflexivity|].
  rewrite lookup_ge_None_2 by lia. reflexivity.
Qed.

Lemma at_done (h : list HopResp.t) (i : Z) (x : HopResp.t) :
  MHopResp.at_ h i = Done x -> 0 <= i < MHopResp.Len h /\ h !! Z.to_nat i = Some x.
Proof.
  unfold MHopResp.at_, MHopResp.Len, len.
  destruct (Z.ltb_spec i 0); [discriminate|].
  destruct (h !! Z.to_nat i) as [y|] eqn:E; [|discriminate].
  intros [= <-]. apply lookup_lt_Some in E. split; [lia | reflexivity].
Qed.

(** [Swap] and [Less] panic exactly when one of the two indices is
    outside the slice. *)
Theorem MHopResp_panics (h : list HopResp.t) (i j : Z) :
  (MHopResp.Swap h i j = Panicked
   <-> ~ (0 <= i < MHopResp.Len h /\ 0 <= j < MHopResp.Len h))
  /\ (MHopResp.Less h i j = Panicked
      <-> ~ (0 <= i < MHopResp.Len h /\ 0 <= j < MHopResp.Len h)).
Proof.
  unfold MHopResp.Swap, MHopResp.Less.
  destruct (MHopResp.at_ h i) as [x|] eqn:Ei; destruct (MHopResp.at_ h j) as [y|] eqn:Ej;
    cbn [obind].
  - apply at_done in Ei, Ej. split; (split; [discriminate | tauto]).
  - assert (~ 0 <= j < MHopResp.Len h).
    { intros Hj. destruct (at_in_range h j Hj) as (z & Hz & _). congruence. }
    split; (split; [tauto | reflexivity]).
  - assert (~ 0 <= i < MHopResp.Len h).
    { intros Hi. destruct (at_in_range h i Hi) as (z & Hz & _). congruence. }
    split; (split; [tauto | reflexivity]).
  - assert (~ 0 <= j < MHopResp.Len h).
    { intros Hj. destruct (at_in_range h j Hj) as (z & Hz & _). congruence. }
    split; (split; [tauto | reflexivity]).
Qed.

Lemma Swap_lookup (h : list HopResp.t) (i j : nat) (x y : HopResp.t) (k : nat) :
  h !! i = Some x -> h !! j = Some y ->
  <[j := x]> (<[i := y]> h) !! k
  = if decide (k = j) then Some x else if decide (k = i) then Some y else h !! k.
Proof.
  intros Hx Hy.
  assert (Hi : (i < Datatypes.length h)%nat) by (eapply lookup_lt_Some; eauto).
  assert (Hj : (j < Datatypes.length h)%nat) by (eapply lookup_lt_Some; eauto).
  destruct (decide (k = j)) as [->|Hkj].
  - apply list_lookup_insert_eq. rewrite length_insert. exact Hj.
  - rewrite list_lookup_insert_ne by congruence.
    destruct (decide (k = i)) as [->|Hki].
    + apply list_lookup_insert_eq. exact Hi.
    + rewrite list_lookup_insert_ne by congruence. reflexivity.
Qed.

(** Within the slice [Swap] exchanges the elements at the two indices and
    leaves the others where they are: the length is kept, the result is a
    permutation of the slice, and swapping again gives the slice back. *)
Theorem Swap_exchanges (h : list HopResp.t) (i j : Z) :
  0 <= i < MHopResp.Len h -> 0 <= j < MHopResp.Len h ->
  exists h',
    MHopResp.Swap h i j = Done h'
    /\ MHopResp.Len h' = MHopResp.Len h
    /\ MHopResp.at_ h' i = MHopResp.at_ h j
    /\ MHopResp.at_ h' j = MHopResp.at_ h i
    /\ (forall k, k <> i -> k <> j -> MHopResp.at_ h' k = MHopResp.at_ h k)
    /\ Permutation h h'
    /\ MHopResp.Swap h' i j = Done h.
Proof.
  intros Hi Hj.
  destruct (at_in_range h i Hi) as (x & Ex & Lx).
  destruct (at_in_range h j Hj) as (y & Ey & Ly).
  unfold MHopResp.Swap. rewrite Ex, Ey. cbn [obind].
  set (h' := <[Z.to_nat j := x]> (<[Z.to_nat i := y]> h)).
  assert (Hlook : forall k : nat,
             h' !! k = if decide (k = Z.to_nat j) then Some x
                       else if decide (k = Z.to_nat i) then Some y else h !! k)
    by (intros k; apply Swap_lookup; assumption).
  assert (Hlen : Datatypes.length h' = Datatypes.length h)
    by (unfold h'; rewrite !length_insert; reflexivity).
  assert (Hat : forall k, MHopResp.at_ h' k
                          = if k <? 0 then Panicked
                            else if decide (Z.to_nat k = Z.to_nat j) then Done x
                            else if decide (Z.to_nat k = Z.to_nat i) then Done y
                            else MHopResp.at_ h k).
  { intros k. unfold MHopResp.at_. destruct (k <? 0); [reflexivity|].
    rewrite Hlook. repeat destruct (decide _); reflexivity. }
  assert (Hx' : h' !! Z.to_nat i = Some y).
  { rewrite Hlook. destruct (decide (Z.to_nat i = Z.to_nat j)) as [Heq|Hne].
    - rewrite Heq in Lx. congruence.
    - destruct (decide (Z.to_nat i = Z.to_nat i)); [reflexivity | contradiction]. }
  assert (Hy' : h' !! Z.to_nat j = Some x).
  { rewrite Hlook. destruct (decide (Z.to_nat j = Z.to_nat j)); [reflexivity | contradiction]. }
  assert (Ai : MHopResp.at_ h' i = Done y).
  { unfold MHopResp.at_. destruct (Z.ltb_spec i 0); [lia|]. rewrite Hx'. reflexivity. }
  assert (Aj : MHopResp.at_ h' j = Done x).
  { unfold MHopResp.at_. destruct (Z.ltb_spec j 0); [lia|]. rewrite Hy'. reflexivity. }
  assert (Hback : <[Z.to_nat j := y]> (<[Z.to_nat i := x]> h') = h).
  { apply list_eq. intros k.
    rewrite (Swap_lookup h' _ _ _ _ k Hx' Hy'), Hlook.
    destruct (decide (k = Z.to_nat j)) as [->|Hkj]; [congruence|].
    destruct (decide (k = Z.to_nat i)) as [->|Hki]; [congruence | reflexivity]. }
  exists h'. split; [reflexivity|].
  split; [unfold MHopResp.Len, len; rewrite Hlen; reflexivity|].
  split; [exact Ai|]. split; [exact Aj|].
  split.
  { intros k Hki Hkj. rewrite Hat. destruct (Z.ltb_spec k 0) as [Hneg|Hpos].
    - unfold MHopResp.at_. destruct (Z.ltb_spec k 0); [reflexivity | lia].
    - destruct (decide _); [lia|]. destruct (decide _); [lia | reflexivity]. }
  split.
  - apply Permutation_inj. split; [symmetry; exact Hlen|].
    exists (fun k => if decide (k = Z.to_nat j) then Z.to_nat i
                     else if decide (k = Z.to_nat i) then Z.to_nat j else k).
    split.
    + intros a b Hab. cbv beta in Hab. repeat case_decide; lia.
    + intros k. cbv beta.
      destruct (decide (k = Z.to_nat j)) as [->|Hkj]; [congruence|].
      destruct (decide (k = Z.to_nat i)) as [->|Hki]; [congruence|].
      rewrite Hlook.
      destruct (decide (k = Z.to_nat j)); [contradiction|].
      destruct (decide (k = Z.to_nat i)); [contradiction | reflexivity].
  - rewrite Ai, Aj. cbn [obind]. rewrite Hback. reflexivity.
Qed.

(** [Less] is a strict weak order on the indices of the slice: no index
    is before itself, the relation is transitive, and so is being unordered
    either way, which holds of two results exactly when the texts of their
    addresses have the same length.  It puts longer addresses first. *)
Theorem Less_strict_weak_order (h : list HopResp.t) (i j k : Z) :
  0 <= i < MHopResp.Len h -> 0 <= j < MHopResp.Len h -> 0 <= k < MHopResp.Len h ->
  MHopResp.Less h i i = Done false
  /\ (MHopResp.Less h i j = Done true -> MHopResp.Less h j i = Done false)
  /\ (MHopResp.Less h i j = Done true -> MHopResp.Less h j k = Done true ->
      MHopResp.Less h i k = Done true)
  /\ (MHopResp.Less h i j = Done false -> MHopResp.Less h j i = Done false ->
      MHopResp.Less h j k = Done false -> MHopResp.Less h k j = Done false ->
      MHopResp.Less h i k = Done false /\ MHopResp.Less h k i = Done false)
  /\ (MHopResp.Less h i j = Done false /\ MHopResp.Less h j i = Done false
      <-> exists x y, MHopResp.at_ h i = Done x /\ MHopResp.at_ h j = Done y
                      /\ String.length (HopResp.ip x) = String.length (HopResp.ip y)).
Proof.
  intros Hi Hj Hk.
  destruct (at_in_range h i Hi) as (x & Ex & _).
  destruct (at_in_range h j Hj) as (y & Ey & _).
  destruct (at_in_range h k Hk) as (z & Ez & _).
  unfold MHopResp.Less. rewrite Ex, Ey, Ez. cbn [obind].
  set (a := Z.of_nat (String.length (HopResp.ip x))).
  set (b := Z.of_nat (String.length (HopResp.ip y))).
  set (c := Z.of_nat (String.length (HopResp.ip z))).
  assert (Hab : String.length (HopResp.ip x) = String.length (HopResp.ip y) <-> a = b)
    by (unfold a, b; lia).
  assert (Hex : (exists x0 y0, Done x = Done x0 /\ Done y = Done y0
                               /\ String.length (HopResp.ip x0) = String.length (HopResp.ip y0))
                <-> a = b).
  { rewrite <- Hab. split.
    - intros (x0 & y0 & [= <-] & [= <-] & Hl). exact Hl.
    - intros Hl. exists x, y. auto. }
  rewrite Hex. clear Hex Hab.
  destruct (Z.gtb_spec a a); [lia|].
  split; [reflexivity|].
  destruct (Z.gtb_spec a b), (Z.gtb_spec b a); try lia.
  - split; [reflexivity|]. split.
    + intros _ Hbc. destruct (Z.gtb_spec b c); [|discriminate].
      destruct (Z.gtb_spec a c); [reflexivity | lia].
    + split; [discriminate|]. split; [intros [? ?]; discriminate | lia].
  - split; [discriminate|]. split; [discriminate|].
    split; [discriminate|]. split; [intros [? ?]; discriminate | lia].
  - split; [discriminate|]. split; [discriminate|]. split.
    + intros _ _. destruct (Z.gtb_spec b c), (Z.gtb_spec c b); try discriminate.
      intros _ _. destruct (Z.gtb_spec a c), (Z.gtb_spec c a); try lia. auto.
    + split; [lia | auto].
Qed.

Lemma Swap_exchanges_witness :
  let h := [Scenarios.from "10.0.0.1"; Scenarios.from "198.51.100.7"; Scenarios.from "1.1.1.1"] in
  exists h',
    MHopResp.Swap h 0 1 = Done h'
    /\ MHopResp.Len h' = MHopResp.Len h
    /\ MHopResp.at_ h' 0 = MHopResp.at_ h 1
    /\ MHopResp.at_ h' 1 = MHopResp.at_ h 0
    /\ (forall k, k <> 0 -> k <> 1 -> MHopResp.at_ h' k = MHopResp.at_ h k)
    /\ Permutation h h'
    /\ MHopResp.Swap h' 0 1 = Done h.
Proof.
  intros h. apply (Swap_exchanges h 0 1); vm_compute; split; congruence.
Defined.

Lemma Less_strict_weak_order_witness :
  let h := [Scenarios.from "10.0.0.1"; Scenarios.from "198.51.100.7"; Scenarios.from "1.1.1.1"] in
  MHopResp.Less h 1 1 = Done false
  /\ (MHopResp.Less h 1 0 = Done true -> MHopResp.Less h 0 1 = Done false)
  /\ (MHopResp.Less h 1 0 = Done true -> MHopResp.Less h 0 2 = Done true ->
      MHopResp.Less h 1 2 = Done true)
  /\ (MHopResp.Less h 1 0 = Done false -> MHopResp.Less h 0 1 = Done false ->
      MHopResp.Less h 0 2 = Done false -> MHopResp.Less h 2 0 = Done false ->
      MHopResp.Less h 1 2 = Done false /\ MHopResp.Less h 2 1 = Done false)
  /\ (MHopResp.Less h 1 0 = Done false /\ MHopResp.Less h 0 1 = Done false
      <-> exists x y, MHopResp.at_ h 1 = Done x /\ MHopResp.at_ h 0 = Done y
                      /\ String.length (HopResp.ip x) = String.length (HopResp.ip y)).
Proof.
  intros h. apply (Less_strict_weak_order h 1 0 2); vm_compute; split; congruence.
Defined.

(** ** Outcomes of the origin-AS lookup *)

Section Outcomes.
Context `{Externals}.

Lemma whois_record_done (resp : Whois.t) (h : JVal) :
  (exists m s f, h = JObj m /\ assoc "holder" m = JStr s /\ assoc "asn" m = JNum f
                 /\ whois_record resp h = Done (Whois.mk s f))
  \/ ((forall m s f, h = JObj m -> assoc "holder" m = JStr s -> assoc "asn" m <> JNum f)
      /\ whois_record resp h = Panicked).
Proof.
  unfold whois_record.
  destruct h as [| | | | |m]; try (right; split; [intros; discriminate | reflexivity]).
  destruct (assoc "holder" m) as [| | |s| |] eqn:Hs;
    try (right; split; [intros ? ? ? [= <-] Hs'; congruence | reflexivity]).
  destruct (assoc "asn" m) as [| |f| | |] eqn:Hf;
    try (right; split; [intros ? ? ? [= <-] _; congruence | reflexivity]).
  left. exists m, s, f. auto.
Qed.

Lemma whois_fold_panicked (recs : list JVal) :
  fold_left (fun acc h => do! resp <- acc; whois_record resp h) recs Panicked = Panicked.
Proof. induction recs as [|h recs IH]; [reflexivity | exact IH]. Qed.

Lemma whois_fold (recs : list JVal) :
  forall resp,
    (Forall (fun h => exists m s f, h = JObj m /\ assoc "holder" m = JStr s
                                    /\ assoc "asn" m = JNum f) recs
     /\ exists resp',
          fold_left (fun acc h => do! resp <- acc; whois_record resp h) recs (Done resp)
          = Done resp'
          /\ (recs = [] -> resp' = resp))
    \/ (Exists (fun h => forall m s f, h = JObj m -> assoc "holder" m = JStr s ->
                                       assoc "asn" m <> JNum f) recs
        /\ fold_left (fun acc h => do! resp <- acc; whois_record resp h) recs (Done resp)
           = Panicked).
Proof.
  induction recs as [|h recs IH]; intros resp; cbn [fold_left obind].
  - left. split; [constructor | eauto].
  - destruct (whois_record_done resp h) as [(m & s & f & -> & Hs & Hf & ->) | [Hbad ->]].
    + destruct (IH (Whois.mk s f)) as [[Hall (resp' & -> & _)] | [Hex ->]].
      * left. split; [constructor; [exists m, s, f; auto | exact Hall]|]. exists resp'. split; [reflexivity | discriminate].
      * right. split; [right; exact Hex | reflexivity].
    + right. split; [left; exact Hbad | apply whois_fold_panicked].
Qed.

(** The three outcomes of [whois] and when each occurs.  It returns the
    error data not available, with the zero [Whois], exactly when the
    reply has no object under data.  Otherwise it panics unless asns is an
    array whose records all carry a string holder and a numeric asn; and
    for such an array it returns no error, and the zero [Whois] when the
    array is empty. *)
Theorem whois_outcomes (ip : string) :
  let data := assoc "data" (ripe_Data (whois_resource ip)) in
  let well_formed := fun h => exists m s f, h = JObj m /\ assoc "holder" m = JStr s
                                            /\ assoc "asn" m = JNum f in
  ((forall d, data <> JObj d)
   /\ whois ip = Done (Whois.zero, Some (errorString "data not available")))
  \/ (exists d, data = JObj d
        /\ ((exists recs, assoc "asns" d = JArr recs /\ Forall well_formed recs
               /\ exists resp, whois ip = Done (resp, None)
                               /\ (recs = [] -> resp = Whois.zero))
            \/ (whois ip = Panicked
                /\ forall recs, assoc "asns" d = JArr recs ->
                                Exists (fun h => ~ well_formed h) recs))).
Proof.
  cbv zeta. unfold whois.
  destruct (assoc "data" _) as [| | | | |d] eqn:Hd;
    try (left; split; [intros; discriminate | reflexivity]).
  right. exists d. split; [reflexivity|].
  destruct (assoc "asns" d) as [| | | |recs|] eqn:Ha;
    try (right; split; [reflexivity | intros; discriminate]).
  destruct (whois_fold recs Whois.zero) as [[Hall (resp & -> & Hnil)] | [Hex ->]]; cbn [obind].
  - left. exists recs. split; [reflexivity|]. split; [exact Hall|]. eauto.
  - right. split; [reflexivity|]. intros recs' [= <-].
    eapply Exists_impl; [exact Hex|]. cbv beta.
    intros h Hbad (m & s & f & -> & Hs & Hf). exact (Hbad m s f eq_refl Hs Hf).
Qed.

End Outcomes.

(** ** Statistics *)

Lemma SFcompare_antisym (a b : spec_float) :
  SFcompare b a = option_map CompOpp (SFcompare a b).
Proof.
  destruct a as [sa|sa| |sa ma ea], b as [sb|sb| |sb mb eb]; cbn;
    try reflexivity;
    try (destruct sa; reflexivity);
    try (destruct sb; reflexivity);
    try (destruct sa, sb; reflexivity).
  destruct sa, sb; try reflexivity.
  - rewrite (Z.compare_antisym ea eb). destruct (ea ?= eb)%Z; cbn; try reflexivity.
    do 2 f_equal. change (Pos.compare_cont Eq mb ma = CompOpp (Pos.compare_cont Eq ma mb)).
    rewrite (Pos.compare_cont_antisym ma mb Eq). reflexivity.
  - rewrite (Z.compare_antisym ea eb). destruct (ea ?= eb)%Z; cbn; try reflexivity.
    f_equal. change (Pos.compare_cont Eq mb ma = CompOpp (Pos.compare_cont Eq ma mb)).
    rewrite (Pos.compare_cont_antisym ma mb Eq). reflexivity.
Qed.

Lemma f64_ltb_asym (a b : float64) : f64_ltb a b = true -> f64_ltb b a = false.
Proof.
  unfold f64_ltb, SFltb. rewrite (SFcompare_antisym a b).
  destruct (SFcompare a b) as [[| |]|]; cbn; (discriminate || reflexivity).
Qed.

Lemma f64_ltb_irrefl (a : float64) : f64_ltb a a = false.
Proof.
  destruct (f64_ltb a a) eqn:E; [|reflexivity].
  pose proof (f64_ltb_asym a a E). congruence.
Qed.

Lemma max_bounds (a b : float64) :
  f64_ltb (Statistics.max a b) a = false /\ f64_ltb (Statistics.max a b) b = false.
Proof.
  unfold Statistics.max. destruct (f64_ltb b a) eqn:E.
  - split; [apply f64_ltb_irrefl | apply f64_ltb_asym, E].
  - split; [exact E | apply f64_ltb_irrefl].
Qed.

Lemma min_bounds (a b : float64) :
  f64_eqb a f64_zero = false ->
  f64_ltb a (Statistics.min a b) = false /\ f64_ltb b (Statistics.min a b) = false.
Proof.
  unfold Statistics.min. intros ->. destruct (f64_ltb a b) eqn:E.
  - split; [apply f64_ltb_irrefl | apply f64_ltb_asym, E].
  - split; [exact E | apply f64_ltb_irrefl].
Qed.

(** [max] returns one of its arguments, and neither argument is above
    what it returns; with a NaN as first argument it returns the second,
    and with a NaN as second argument it returns the NaN. *)
Theorem max_is_upper_bound (a b : float64) :
  (Statistics.max a b = a \/ Statistics.max a b = b)
  /\ f64_ltb (Statistics.max a b) a = false
  /\ f64_ltb (Statistics.max a b) b = false
  /\ Statistics.max S754_nan b = b
  /\ Statistics.max a S754_nan = S754_nan.
Proof.
  split; [unfold Statistics.max; destruct (f64_ltb b a); auto|].
  split; [apply max_bounds|]. split; [apply max_bounds|].
  split; [destruct b; reflexivity | destruct a; reflexivity].
Qed.

(** [min] treats a first argument equal to zero as not yet set and
    returns the second, even when the second is larger; otherwise it
    returns one of its arguments and neither of them is below it. *)
Theorem min_skips_zero (a b : float64) :
  (f64_eqb a f64_zero = true -> Statistics.min a b = b)
  /\ (f64_eqb a f64_zero = false ->
      (Statistics.min a b = a \/ Statistics.min a b = b)
      /\ f64_ltb a (Statistics.min a b) = false
      /\ f64_ltb b (Statistics.min a b) = false).
Proof.
  split; intros Hz.
  - unfold Statistics.min. rewrite Hz. reflexivity.
  - split; [unfold Statistics.min; rewrite Hz; destruct (f64_ltb a b); auto|].
    apply min_bounds, Hz.
Qed.

(** The first sample: from the zero statistics, [calcStatistics] with an
    elapsed time that is not below zero sets the minimum, the average and
    the maximum to it. *)
Theorem calcStatistics_first (elapsed : float64) :
  f64_ltb elapsed f64_zero = false ->
  calcStatistics (Stats.mk f64_zero f64_zero f64_zero) elapsed
  = Stats.mk elapsed elapsed elapsed.
Proof.
  intros Hpos. unfold calcStatistics, Statistics.min, Statistics.avg, Statistics.max.
  cbn [Stats.min Stats.avg Stats.max]. rewrite Hpos. reflexivity.
Qed.

(** [calcStatistics] never lowers the maximum, and never raises a
    minimum that is set: neither the sample nor the old value is above the
    new maximum, and when the old minimum is not zero neither is below the
    new minimum.  An average that is set becomes the mean of itself and the
    sample, so the last sample weighs as much as all the earlier ones. *)
Theorem calcStatistics_bounds (s : Stats.t) (elapsed : float64) :
  let s' := calcStatistics s elapsed in
  f64_ltb (Stats.max s') (Stats.max s) = false
  /\ f64_ltb (Stats.max s') elapsed = false
  /\ (f64_eqb (Stats.min s) f64_zero = false ->
      f64_ltb (Stats.min s) (Stats.min s') = false
      /\ f64_ltb elapsed (Stats.min s') = false)
  /\ (f64_eqb (Stats.avg s) f64_zero = false ->
      Stats.avg s' = f64_div (f64_add (Stats.avg s) elapsed) (f64_of_Z 2)).
Proof.
  cbv zeta. unfold calcStatistics. cbn [Stats.min Stats.avg Stats.max].
  destruct (max_bounds (Stats.max s) elapsed) as (Ha & Hb).
  split; [exact Ha|]. split; [exact Hb|]. split.
  - intros Hz. apply min_bounds, Hz.
  - intros Hz. unfold Statistics.avg. rewrite Hz. reflexivity.
Qed.

Lemma calcStatistics_first_witness :
  calcStatistics (Stats.mk f64_zero f64_zero f64_zero) (HopResp.elapsed Examples.hop5)
  = Stats.mk (HopResp.elapsed Examples.hop5) (HopResp.elapsed Examples.hop5)
      (HopResp.elapsed Examples.hop5).
Proof.
  apply (calcStatistics_first (HopResp.elapsed Examples.hop5)). reflexivity.
Defined.
